(** * gosqlite: the paged B+ tree (btree_ex.go) and the MVCC transaction
    engine ([TrxContext], [Trx]), embedded as executable Rocq functions.

    Go values are modelled as the code has them: [int64] counters as [Z]
    with their wrap-around written out, a pointer into one of the fixed
    pools as the index of the slot it points to, a nil pointer as [None],
    the byte image of the tree as a flat [list byte].  A Go runtime panic
    (nil dereference, index or slice bound out of range) is the outcome
    [Fault]; a loop or recursion that has no bound in the source runs on
    fuel and reports [Timeout] when the fuel is exhausted. *)

From Stdlib Require Import ZArith List Lia Bool.
From Stdlib Require Import Strings.String Strings.Byte.
From stdpp Require Import base list.
Import ListNotations.
Open Scope Z_scope.

(** ** Outcomes of a Go call *)

Inductive outcome (A : Type) : Type :=
| Ok (a : A)
| Fault
| Timeout.
Arguments Ok {A} a.
Arguments Fault {A}.
Arguments Timeout {A}.

#[global] Instance outcome_ret : MRet outcome := fun A a => Ok a.
#[global] Instance outcome_bind : MBind outcome := fun A B f m =>
  match m with
  | Ok a => f a
  | Fault => Fault
  | Timeout => Timeout
  end.

Definition is_ok {A} (o : outcome A) : bool :=
  match o with Ok _ => true | _ => false end.

(** [int64] arithmetic: the result of an addition is reduced to the
    signed 64-bit range, as [atomic.AddInt64] does. *)
Definition wrap64 (z : Z) : Z := (z + 2^63) mod 2^64 - 2^63.

(** * The MVCC transaction engine ([TrxContext] and [Trx]) *)

Module Mvcc.

(** The four status constants [unused = 0], [uncommit = 1], [commit = 2],
    [rollback = 3]. *)
Inductive status := unused | uncommit | commit | rollback.

Definition status_eqb (a b : status) : bool :=
  match a, b with
  | unused, unused | uncommit, uncommit
  | commit, commit | rollback, rollback => true
  | _, _ => false
  end.

(** [type Trx struct] and [type readView struct].  A view holds copies of
    the [Trx] structs it saw, each with the view pointer it had then. *)
Inductive Trx := mkTrx { trxID : Z; st : status; view : option readView }
with readView := mkReadView
  { lowLimitID : Z; upLimitID : Z; view_trxIDs : list Trx }.

(** [type record struct]; [rollPtr] only ever points into the undo pool, so
    it is the index of an undo slot. *)
Record record := mkRecord
  { rowID : Z; rec_trxID : Z; rollPtr : option nat; data : list byte }.

Record TrxContext := mkTrxContext
  { trxIDs : list Trx;
    dataPool : list record;
    undo : list record;
    trxCounter : Z;
    rowCounter : Z }.

Definition poolSize : nat := 1024.

Definition CreateTrxContext : TrxContext :=
  {| trxIDs := repeat (mkTrx 0 unused None) poolSize;
     dataPool := repeat (mkRecord 0 0 None []) poolSize;
     undo := repeat (mkRecord 0 0 None []) poolSize;
     trxCounter := 0;
     rowCounter := 0 |}.

(** The loop [for i := 0; i < n; i++ { if p(pool[i]) { return &pool[i] } }
    return nil], from slot [i] on, where [rest] is the pool from that slot:
    indexing past the end of the pool panics. *)
Fixpoint scan_from {A} (p : A -> bool) (rest : list A) (i n : nat)
  {struct n} : outcome (option nat) :=
  match n with
  | O => Ok None
  | S n' =>
      match rest with
      | [] => Fault
      | r :: rest' =>
          if p r then Ok (Some i) else scan_from p rest' (S i) n'
      end
  end.

Definition scan {A} (p : A -> bool) (pool : list A) (n : nat) :=
  scan_from p pool 0 n.

Definition AllocteTrx (context : TrxContext) : outcome (option nat) :=
  scan (fun t => status_eqb (st t) unused) (trxIDs context)
       (length (trxIDs context)).

Definition allocteUndo (context : TrxContext) : outcome (option nat) :=
  scan (fun r => rowID r =? 0) (undo context) (length (trxIDs context)).

Definition allocteRecord (context : TrxContext) : outcome (option nat) :=
  scan (fun r => rowID r =? 0) (dataPool context) (length (trxIDs context)).

Definition findRecord (context : TrxContext) (rowid : Z)
  : outcome (option nat) :=
  scan (fun r => rowID r =? rowid) (dataPool context)
       (length (trxIDs context)).

Definition is_uncommit (t : Trx) : bool := status_eqb (st t) uncommit.

Definition createReadView (context : TrxContext) : readView :=
  let ids := List.filter is_uncommit (trxIDs context) in
  match ids with
  | [] => mkReadView 0 0 ids
  | first :: _ => mkReadView (trxID first) (trxID (List.last ids first)) ids
  end.

Definition set_trxIDs (context : TrxContext) (l : list Trx) : TrxContext :=
  {| trxIDs := l; dataPool := dataPool context; undo := undo context;
     trxCounter := trxCounter context; rowCounter := rowCounter context |}.

(** Dereferencing a pointer: an index outside the pool stands for a pointer
    that is not one of the pool's, and faults like nil. *)
Definition deref {A} (pool : list A) (p : nat) : outcome A :=
  match pool !! p with
  | Some x => Ok x
  | None => Fault
  end.

(** [func (t *Trx) Begin(context *TrxContext)] *)
Definition Begin (context : TrxContext) (t : nat) : outcome TrxContext :=
  let counter := wrap64 (trxCounter context + 1) in
  tr ← deref (trxIDs context) t;
  let tr1 := mkTrx counter uncommit (view tr) in
  let context1 :=
    {| trxIDs := <[t := tr1]> (trxIDs context);
       dataPool := dataPool context; undo := undo context;
       trxCounter := counter; rowCounter := rowCounter context |} in
  let v := createReadView context1 in
  Ok (set_trxIDs context1
        (<[t := mkTrx counter uncommit (Some v)]> (trxIDs context1))).

Definition set_status (context : TrxContext) (t : nat) (s : status)
  : outcome TrxContext :=
  tr ← deref (trxIDs context) t;
  Ok (set_trxIDs context
        (<[t := mkTrx (trxID tr) s (view tr)]> (trxIDs context))).

Definition Commit (context : TrxContext) (t : nat) :=
  set_status context t commit.

Definition Rollback (context : TrxContext) (t : nat) :=
  set_status context t rollback.

(** [func (t *Trx) Insert(context *TrxContext, data string)]: the record
    returned by [allocteRecord] is written without a nil test. *)
Definition Insert (context : TrxContext) (t : nat) (d : list byte)
  : outcome TrxContext :=
  r ← allocteRecord context;
  match r with
  | None => Fault
  | Some ri =>
      rec ← deref (dataPool context) ri;
      tr ← deref (trxIDs context) t;
      let counter := wrap64 (rowCounter context + 1) in
      Ok {| trxIDs := trxIDs context;
            dataPool :=
              <[ri := mkRecord counter (trxID tr) (rollPtr rec) d]>
                (dataPool context);
            undo := undo context;
            trxCounter := trxCounter context;
            rowCounter := counter |}
  end.

(** [func (t *Trx) Update(ctx *TrxContext, rowid int64, data string)] *)
Definition Update (ctx : TrxContext) (t : nat) (rowid : Z) (d : list byte)
  : outcome TrxContext :=
  r ← findRecord ctx rowid;
  u ← allocteUndo ctx;
  match r, u with
  | Some ri, Some ui =>
      rec ← deref (dataPool ctx) ri;
      urec ← deref (undo ctx) ui;
      (* u.trxID = r.trxID; u.data = r.data *)
      let urec1 := mkRecord (rowID urec) (rec_trxID rec) (rollPtr urec)
                            (data rec) in
      (* r.rollPtr = u, and u.rollPtr = u1 when r had a chain *)
      let urec2 :=
        match rollPtr rec with
        | None => urec1
        | Some u1 => mkRecord (rowID urec1) (rec_trxID urec1) (Some u1)
                              (data urec1)
        end in
      tr ← deref (trxIDs ctx) t;
      Ok {| trxIDs := trxIDs ctx;
            dataPool :=
              <[ri := mkRecord (rowID rec) (trxID tr) (Some ui) d]>
                (dataPool ctx);
            undo := <[ui := urec2]> (undo ctx);
            trxCounter := trxCounter ctx;
            rowCounter := rowCounter ctx |}
  | _, _ => Fault
  end.

Definition active_ids (v : readView) : list Z := map trxID (view_trxIDs v).

(** [func (t *Trx) inView(tid int64) bool] *)
Definition inView (v : readView) (tid : Z) : bool :=
  existsb (fun x => trxID x =? tid) (view_trxIDs v).

(** [func (t *Trx) check(tid int64) bool]: [t.view] is dereferenced only
    after the own-id test. *)
Definition check (t : Trx) (tid : Z) : outcome bool :=
  if trxID t =? tid then Ok true
  else
    match view t with
    | None => Fault
    | Some v =>
        let tmin := lowLimitID v in
        let tmax := upLimitID v in
        if tid <? tmin then Ok true
        else if tid >? tmax then Ok false
        else if inView v tid then Ok false
        else Ok true
    end.

(** [func (t *Trx) selectRollback]: walks the chain from [r.rollPtr] and
    yields the data of the first visible version, if any. *)
Fixpoint walk (fuel : nat) (pool : list record) (t : Trx) (p : option nat)
  : outcome (option (list byte)) :=
  match p with
  | None => Ok None
  | Some i =>
      match fuel with
      | O => Timeout
      | S fuel' =>
          u ← deref pool i;
          vis ← check t (rec_trxID u);
          if (vis : bool) then Ok (Some (data u)) else walk fuel' pool t (rollPtr u)
      end
  end.

Definition selectRollback (fuel : nat) (ctx : TrxContext) (t : Trx)
  (r : record) : outcome (option (list byte)) :=
  walk fuel (undo ctx) t (rollPtr r).

(** [func (t *Trx) Select]: the rows printed, as pairs of the printed row
    id (none for a version found in the undo chain) and the data. *)
Fixpoint select_rows (fuel : nat) (ctx : TrxContext) (t : Trx)
  (rows : list record) : outcome (list (option Z * list byte)) :=
  match rows with
  | [] => Ok []
  | r :: rest =>
      if rowID r >? 0 then
        vis ← check t (rec_trxID r);
        if (vis : bool) then
          (out ← select_rows fuel ctx t rest;
           Ok ((Some (rowID r), data r) :: out))
        else
          (old ← selectRollback fuel ctx t r;
           out ← select_rows fuel ctx t rest;
           Ok (match old with
               | Some d => (None, d) :: out
               | None => out
               end))
      else select_rows fuel ctx t rest
  end.

Definition Select (fuel : nat) (ctx : TrxContext) (t : nat) :=
  tr ← deref (trxIDs ctx) t;
  select_rows fuel ctx tr (dataPool ctx).

(** The calls a client can make on a context that change it. *)
Inductive op :=
| OpBegin (t : nat)
| OpCommit (t : nat)
| OpRollback (t : nat)
| OpInsert (t : nat) (d : list byte)
| OpUpdate (t : nat) (rowid : Z) (d : list byte).

Definition step (ctx : TrxContext) (o : op) : outcome TrxContext :=
  match o with
  | OpBegin t => Begin ctx t
  | OpCommit t => Commit ctx t
  | OpRollback t => Rollback ctx t
  | OpInsert t d => Insert ctx t d
  | OpUpdate t rowid d => Update ctx t rowid d
  end.

Fixpoint run (ctx : TrxContext) (ops : list op) : outcome TrxContext :=
  match ops with
  | [] => Ok ctx
  | o :: rest => ctx' ← step ctx o; run ctx' rest
  end.

(** States a client can reach from a fresh context. *)
Inductive reachable : TrxContext -> Prop :=
| reach_init : reachable CreateTrxContext
| reach_step ctx o ctx' :
    reachable ctx -> step ctx o = Ok ctx' -> reachable ctx'.

(** The versions a record's [rollPtr] heads, as [(trxID, data)] pairs from
    the head on; a chain that does not end exhausts any fuel. *)
Fixpoint chain (fuel : nat) (pool : list record) (p : option nat)
  : outcome (list (Z * list byte)) :=
  match p with
  | None => Ok []
  | Some i =>
      match fuel with
      | O => Timeout
      | S fuel' =>
          u ← deref pool i;
          rest ← chain fuel' pool (rollPtr u);
          Ok ((rec_trxID u, data u) :: rest)
      end
  end.

(** The three pools have the length [CreateTrxContext] gives them all. *)
Definition aligned (ctx : TrxContext) : Prop :=
  length (dataPool ctx) = length (trxIDs ctx) /\
  length (undo ctx) = length (trxIDs ctx).

(** What [createReadView] establishes between a view's limits and its list,
    and what [Begin] adds: the transaction's own id is in the list. *)
Definition anchored (v : readView) : Prop :=
  lowLimitID v = hd 0 (active_ids v) /\
  upLimitID v = List.last (active_ids v) 0.

Definition begun_ok (tr : Trx) : Prop :=
  forall v, view tr = Some v -> anchored v /\ In (trxID tr) (active_ids v).

Definition views_ok (ctx : TrxContext) : Prop :=
  forall t tr, trxIDs ctx !! t = Some tr -> begun_ok tr.

(** The context a run of calls leaves, from a fresh one. *)
Definition ctx_after (ops : list op) : TrxContext :=
  match run CreateTrxContext ops with
  | Ok ctx => ctx
  | _ => CreateTrxContext
  end.

Definition slot (ctx : TrxContext) (t : nat) : Trx :=
  match trxIDs ctx !! t with
  | Some tr => tr
  | None => mkTrx 0 unused None
  end.

Definition view_of (tr : Trx) : readView :=
  match view tr with
  | Some v => v
  | None => mkReadView 0 0 []
  end.

Definition bytes (s : string) : list byte := list_byte_of_string s.

(** The second scenario of the repository's test: T1 inserts and commits,
    T2 and T3 begin, T3 updates row 1, both insert. *)
Definition interleaved : list op :=
  [OpBegin 0%nat; OpInsert 0%nat (bytes "trx1-data1"); OpCommit 0%nat;
   OpBegin 1%nat; OpBegin 2%nat;
   OpUpdate 2%nat 1 (bytes "trx3-data0");
   OpInsert 1%nat (bytes "trx2-data1");
   OpInsert 2%nat (bytes "trx3-data1")].

(** Slot 0 is begun, slot 1 is begun, and slot 0 is begun again, as
    happens when two handles came from [AllocteTrx] before either was
    begun: both are slot 0. *)
Definition begun_twice : list op :=
  [OpBegin 0%nat; OpBegin 1%nat; OpBegin 0%nat].

(** One row, updated twice. *)
Definition updated_once : list op :=
  [OpBegin 0%nat; OpInsert 0%nat (bytes "v0");
   OpUpdate 0%nat 1 (bytes "v1")].
Definition updated_twice : list op :=
  updated_once ++ [OpUpdate 0%nat 1 (bytes "v2")].

(** As many inserts as the data pool has slots. *)
Definition pool_filled : list op :=
  OpBegin 0%nat :: repeat (OpInsert 0%nat (bytes "x")) poolSize.

(** The context they leave. *)
Definition filled : TrxContext := Eval vm_compute in ctx_after pool_filled.

(** A context with no free slot in any pool. *)
Definition no_free_slot : TrxContext :=
  {| trxIDs := repeat (mkTrx 1 commit None) poolSize;
     dataPool := repeat (mkRecord 1 1 None []) poolSize;
     undo := repeat (mkRecord 1 1 None []) poolSize;
     trxCounter := 1;
     rowCounter := 1 |}.

(** ** Observations used to state more facts *)

(** The data pool as [Insert] fills it: the pools keep the size
    [CreateTrxContext] gave them, slot [i] carries row id [i + 1] once it
    is taken and row id 0 before, and [rowCounter] counts the taken
    slots. *)
Definition rows_ok (ctx : TrxContext) : Prop :=
  length (trxIDs ctx) = poolSize /\
  length (dataPool ctx) = poolSize /\
  0 <= rowCounter ctx <= Z.of_nat poolSize /\
  forall i r, dataPool ctx !! i = Some r ->
    rowID r = if Z.of_nat i <? rowCounter ctx then Z.of_nat i + 1 else 0.

Definition is_begin (o : op) : bool :=
  match o with OpBegin _ => true | _ => false end.

(** The number of [Begin] calls in a run. *)
Definition begins (ops : list op) : nat := length (List.filter is_begin ops).

(** Every id in the pool lies between 0 and the counter. *)
Definition ids_bounded (ctx : TrxContext) : Prop :=
  0 <= trxCounter ctx /\
  forall t tr, trxIDs ctx !! t = Some tr -> 0 <= trxID tr <= trxCounter ctx.

(** Two slots that have been begun never carry the same id. *)
Definition ids_unique (ctx : TrxContext) : Prop :=
  forall t1 t2 tr1 tr2,
    trxIDs ctx !! t1 = Some tr1 -> trxIDs ctx !! t2 = Some tr2 ->
    t1 <> t2 -> trxID tr1 <> 0 -> trxID tr1 <> trxID tr2.

(** The repository's second test up to the point where T2 and T3 have
    begun: T1 has inserted row 1 and committed. *)
Definition two_readers : list op :=
  [OpBegin 0%nat; OpInsert 0%nat (bytes "trx1-data1"); OpCommit 0%nat;
   OpBegin 1%nat; OpBegin 2%nat].

End Mvcc.

(** * The paged B+ tree (btree_ex.go) *)

Module Btree.

(** ** Integers and bytes *)

(** Conversion to [uint32]: reduction modulo the word size. *)
Definition u32 (z : Z) : Z := z mod 2^32.

(** Go's [byte(v)] and [uintN(b)]. *)
Definition byte_of_Z (z : Z) : byte :=
  match Byte.of_N (Z.to_N (z mod 256)) with
  | Some b => b
  | None => x00
  end.

Definition Z_of_byte (b : byte) : Z := Z.of_N (Byte.to_N b).

Definition zeros (n : Z) : list byte := repeat x00 (Z.to_nat n).

Definition len (l : list byte) : Z := Z.of_nat (length l).

(** [binary.BigEndian.PutUint32], [Uint32], [PutUint64], [Uint64] on the
    first bytes of a buffer. *)
Definition PutUint32 (v : Z) : list byte :=
  [byte_of_Z (Z.shiftr v 24); byte_of_Z (Z.shiftr v 16);
   byte_of_Z (Z.shiftr v 8); byte_of_Z v].

Definition PutUint64 (v : Z) : list byte :=
  [byte_of_Z (Z.shiftr v 56); byte_of_Z (Z.shiftr v 48);
   byte_of_Z (Z.shiftr v 40); byte_of_Z (Z.shiftr v 32);
   byte_of_Z (Z.shiftr v 24); byte_of_Z (Z.shiftr v 16);
   byte_of_Z (Z.shiftr v 8); byte_of_Z v].

Definition Uint32 (bs : list byte) : outcome Z :=
  match bs with
  | b0 :: b1 :: b2 :: b3 :: _ =>
      Ok (Z.lor (Z.lor (Z.lor (Z_of_byte b3) (Z.shiftl (Z_of_byte b2) 8))
                       (Z.shiftl (Z_of_byte b1) 16))
                (Z.shiftl (Z_of_byte b0) 24))
  | _ => Fault
  end.

Definition Uint64 (bs : list byte) : outcome Z :=
  match bs with
  | b0 :: b1 :: b2 :: b3 :: b4 :: b5 :: b6 :: b7 :: _ =>
      Ok (Z.lor (Z.lor (Z.lor (Z.lor (Z.lor (Z.lor (Z.lor
            (Z_of_byte b7) (Z.shiftl (Z_of_byte b6) 8))
            (Z.shiftl (Z_of_byte b5) 16)) (Z.shiftl (Z_of_byte b4) 24))
            (Z.shiftl (Z_of_byte b3) 32)) (Z.shiftl (Z_of_byte b2) 40))
            (Z.shiftl (Z_of_byte b1) 48)) (Z.shiftl (Z_of_byte b0) 56))
  | _ => Fault
  end.

(** ** Buffers *)

(** [rd d a n] is the [n] bytes of [d] from index [a]; [wr d a bs] is [d]
    with [bs] stored from index [a].  Callers check the bounds first, as
    the Go runtime does. *)
Definition rd (d : list byte) (a n : Z) : list byte :=
  take (Z.to_nat n) (drop (Z.to_nat a) d).

Definition wr (d : list byte) (a : Z) (bs : list byte) : list byte :=
  take (Z.to_nat a) d ++ bs ++ drop (Z.to_nat a + length bs) d.

(** [func blockCopy]: a failed range test returns an error that every
    caller drops, so the destination is then unchanged. *)
Definition blockCopy (src : list byte) (srcOffset : Z) (dst : list byte)
  (dstOffset count : Z) : outcome (list byte) :=
  let srcLen := len src in
  if (srcOffset >? srcLen) || (count >? srcLen)
     || (srcOffset + count >? srcLen) then Ok dst
  else
    let dstLen := len dst in
    if (dstOffset >? dstLen) || (count >? dstLen)
       || (dstOffset + count >? dstLen) then Ok dst
    else if count <=? 0 then Ok dst
    else if (srcOffset <? 0) || (dstOffset <? 0) then Fault
    else Ok (wr dst dstOffset (rd src srcOffset count)).

(** [func lshift] and [func rshift]: both loops read every byte before
    they overwrite it, so each moves the block [data[src : src+len]] as a
    whole; an index outside the slice panics. *)
Definition move (data : list byte) (src n dst : Z) : outcome (list byte) :=
  if n <=? 0 then Ok data
  else if (0 <=? src) && (src + n <=? len data)
          && (0 <=? dst) && (dst + n <=? len data)
  then Ok (wr data dst (rd data src n))
  else Fault.

Definition lshift (data : list byte) (src n shiftSize : Z) :=
  move data src n (src - shiftSize).

Definition rshift (data : list byte) (src n shiftSize : Z) :=
  move data src n (src + shiftSize).

(** [func shift] *)
Definition shift (data : list byte) (src n shiftSize : Z)
  : outcome (list byte) :=
  if shiftSize >? 0 then rshift data src n shiftSize
  else if shiftSize <? 0 then lshift data src n (- shiftSize)
  else Ok data.

(** ** The tree and its pages *)

Definition pageSize : Z := 512.
Definition rootPageNo : Z := 1.
Definition nodeTypeInternal : byte := x01.
Definition nodeTypeLeaf : byte := x02.
Definition nodeUsed : byte := x01.
Definition nodeUnused : byte := x00.
Definition offsetPageNo : Z := 0.
Definition offsetNodeType : Z := 4.
Definition offsetUsed : Z := 5.
Definition offsetParent : Z := 8.
Definition offsetUsablePtr : Z := 12.
Definition offsetNumberOfKey : Z := 32.
Definition offsetKey : Z := 36.
Definition offsetPayload : Z := pageSize - 8.
Definition offsetNext : Z := pageSize - 8.
Definition offsetOverflowPage : Z := pageSize - 4.

Record BPlusTree := mkTree { data : list byte; leaf : Z; order : Z }.

Definition set_data (b : BPlusTree) (d : list byte) : BPlusTree :=
  mkTree d (leaf b) (order b).

(** [func ceil(n int64) int]: [math.Ceil(float64(n) / 2)], exact as long
    as [n] is an integer that [float64] represents. *)
Definition ceil (n : Z) : Z := (n + 1) / 2.

(** A slice of [b.data]: where it starts and its length.  Its capacity
    is what is left of [b.data] from there on. *)
Record slice := mkSlice { base : Z; slen : Z }.

(** [n <= len(d)], decided on the first [n] cells of [d]. *)
Definition fits (n : Z) (d : list byte) : bool :=
  if n <=? 0 then true
  else match drop (Z.to_nat (n - 1)) d with
       | [] => false
       | _ :: _ => true
       end.

(** [s[lo:hi]], which may reach past the length of [s] but not past its
    capacity. *)
Definition subslice (b : BPlusTree) (s : slice) (lo hi : Z) : outcome slice :=
  if (0 <=? lo) && (lo <=? hi) && fits (base s + hi) (data b)
  then Ok (mkSlice (base s + lo) (hi - lo))
  else Fault.

(** [s[lo:]] *)
Definition subslice_from (s : slice) (lo : Z) : outcome slice :=
  if (0 <=? lo) && (lo <=? slen s)
  then Ok (mkSlice (base s + lo) (slen s - lo))
  else Fault.

(** [func (b *BPlusTree) getPageData(page uint32) []byte] *)
Definition getPageData (b : BPlusTree) (page : Z) : outcome slice :=
  let offset := u32 (page * pageSize) in
  let n := u32 (offset + pageSize) in
  if (offset <=? n) && fits n (data b)
  then Ok (mkSlice offset (n - offset))
  else Fault.

(** The bytes a slice shows, and storing them back. *)
Definition view (b : BPlusTree) (s : slice) : list byte :=
  rd (data b) (base s) (slen s).

Definition store (b : BPlusTree) (s : slice) (bs : list byte) : BPlusTree :=
  set_data b (wr (data b) (base s) bs).

(** [s[i]] and [s[i] = v] *)
Definition index_get (b : BPlusTree) (s : slice) (i : Z) : outcome byte :=
  if (0 <=? i) && (i <? slen s) then
    match data b !! Z.to_nat (base s + i) with
    | Some x => Ok x
    | None => Fault
    end
  else Fault.

Definition index_set (b : BPlusTree) (s : slice) (i : Z) (v : byte)
  : outcome BPlusTree :=
  if (0 <=? i) && (i <? slen s)
  then Ok (set_data b (wr (data b) (base s + i) [v]))
  else Fault.

(** [func setInt32], [getInt32], [setInt64], [getInt64] *)
Definition setInt32 (b : BPlusTree) (s : slice) (offset v : Z)
  : outcome BPlusTree :=
  sub ← subslice b s offset (offset + 4);
  Ok (store b sub (PutUint32 v)).

Definition getInt32 (b : BPlusTree) (s : slice) (offset : Z) : outcome Z :=
  sub ← subslice b s offset (offset + 4);
  Uint32 (view b sub).

Definition setInt64 (b : BPlusTree) (s : slice) (offset v : Z)
  : outcome BPlusTree :=
  sub ← subslice b s offset (offset + 8);
  Ok (store b sub (PutUint64 v)).

Definition getInt64 (b : BPlusTree) (s : slice) (offset : Z) : outcome Z :=
  sub ← subslice b s offset (offset + 8);
  Uint64 (view b sub).

Definition getPageInt32 (b : BPlusTree) (page offset : Z) : outcome Z :=
  s ← getPageData b page; getInt32 b s offset.

Definition setPageInt32 (b : BPlusTree) (page offset v : Z)
  : outcome BPlusTree :=
  s ← getPageData b page; setInt32 b s offset v.

Definition setPageNo b page v := setPageInt32 b page offsetPageNo v.
Definition getPageNo b page := getPageInt32 b page offsetPageNo.
Definition setNext b page v := setPageInt32 b page offsetNext v.
Definition getNext b page := getPageInt32 b page offsetNext.
Definition setNumberOfKey b page v := setPageInt32 b page offsetNumberOfKey v.
Definition getNumberOfKey b page := getPageInt32 b page offsetNumberOfKey.
Definition setParent b page v := setPageInt32 b page offsetParent v.
Definition getParent b page := getPageInt32 b page offsetParent.

Definition setNodeType (b : BPlusTree) (page : Z) (v : byte) :=
  s ← getPageData b page; index_set b s offsetNodeType v.

Definition getNodeType (b : BPlusTree) (page : Z) : outcome byte :=
  s ← getPageData b page; index_get b s offsetNodeType.

Definition setUsed (b : BPlusTree) (page : Z) (v : byte) :=
  s ← getPageData b page; index_set b s offsetUsed v.

Definition isUsed (b : BPlusTree) (page : Z) : outcome bool :=
  s ← getPageData b page;
  x ← index_get b s offsetUsed;
  Ok (Byte.eqb x nodeUsed).

Definition is_leaf (t : byte) : bool := Byte.eqb t nodeTypeLeaf.

Definition setKey (b : BPlusTree) (page index k : Z) : outcome BPlusTree :=
  s ← getPageData b page; setInt64 b s (offsetKey + index * 12) k.

Definition getKey (b : BPlusTree) (page index : Z) : outcome Z :=
  s ← getPageData b page; getInt64 b s (offsetKey + index * 12).

Definition setCellPtr (b : BPlusTree) (page index k : Z) :=
  s ← getPageData b page; setInt32 b s (offsetKey + index * 12 + 8) k.

Definition getCellPtr (b : BPlusTree) (page index : Z) : outcome Z :=
  s ← getPageData b page; getInt32 b s (offsetKey + index * 12 + 8).

Definition setUsablePtr (b : BPlusTree) (page ptr : Z) :=
  s ← getPageData b page; setInt32 b s offsetUsablePtr ptr.

Definition getUsablePtr (b : BPlusTree) (page : Z) : outcome Z :=
  s ← getPageData b page; getInt32 b s offsetUsablePtr.

Definition getMaxKey (b : BPlusTree) (page : Z) : outcome Z :=
  numberOfKey ← getNumberOfKey b page;
  getKey b page (numberOfKey - 1).

(** [func (b *BPlusTree) getKeyIndex]: the loop from slot [i] over the [n]
    slots that remain. *)
Fixpoint getKeyIndex_from (n : nat) (b : BPlusTree) (page key i : Z)
  : outcome Z :=
  match n with
  | O => Ok (-1)
  | S n' =>
      ikey ← getKey b page i;
      if ikey =? key then Ok i
      else getKeyIndex_from n' b page key (i + 1)
  end.

Definition getKeyIndex (b : BPlusTree) (page key : Z) : outcome Z :=
  numberOfKey ← getNumberOfKey b page;
  getKeyIndex_from (Z.to_nat numberOfKey) b page key 0.

(** [func (b *BPlusTree) getKeyCell]: [None] is the nil slice. *)
Definition getKeyCell (b : BPlusTree) (page key : Z)
  : outcome (option (list byte)) :=
  index ← getKeyIndex b page key;
  if index =? -1 then Ok None
  else
    offset ← getCellPtr b page index;
    t ← getNodeType b page;
    if is_leaf t then
      s ← getPageData b page;
      sub ← subslice_from s (u32 (offset + 4));
      payloadSize ← Uint32 (view b sub);
      let n := u32 (8 + payloadSize) in
      cell ← blockCopy (view b s) offset (zeros n) 0 n;
      Ok (Some cell)
    else
      s ← getPageData b page;
      cell ← blockCopy (view b s) offset (zeros 4) 0 4;
      Ok (Some cell).

(** [func (b *BPlusTree) getKeyPayload]: [cell[8:]] panics when the cell
    has fewer than 8 bytes, so also when it is nil. *)
Definition getKeyPayload (b : BPlusTree) (page key : Z)
  : outcome (option (list byte)) :=
  cell ← getKeyCell b page key;
  t ← getNodeType b page;
  if is_leaf t then
    match cell with
    | Some c => if 8 <=? len c then Ok (Some (drop 8 c)) else Fault
    | None => Fault
    end
  else Ok None.

(** [func (b *BPlusTree) marshal] *)
Definition marshal (child : Z) (payload : option (list byte))
  : outcome (list byte) :=
  match payload with
  | Some p =>
      let cell := zeros (8 + len p) in
      let cell := wr cell 0 (PutUint32 child) in
      let cell := wr cell 4 (PutUint32 (u32 (len p))) in
      blockCopy p 0 cell 8 (len p)
  | None => Ok (PutUint32 child)
  end.

(** [func (b *BPlusTree) shiftCellPtr] *)
Fixpoint shiftCellPtr_from (n : nat) (b : BPlusTree)
  (page cellptr shiftSize i : Z) : outcome BPlusTree :=
  match n with
  | O => Ok b
  | S n' =>
      icellPtr ← getCellPtr b page i;
      b ← (if (icellPtr >? 0) && (icellPtr <? cellptr)
           then setCellPtr b page i (u32 (icellPtr + shiftSize))
           else Ok b);
      shiftCellPtr_from n' b page cellptr shiftSize (i + 1)
  end.

Definition shiftCellPtr (b : BPlusTree) (page cellptr shiftSize : Z)
  : outcome BPlusTree :=
  numberOfKey ← getNumberOfKey b page;
  shiftCellPtr_from (Z.to_nat numberOfKey) b page cellptr shiftSize 0.

Definition cell_len (cell : option (list byte)) : Z :=
  match cell with
  | Some c => len c
  | None => 0
  end.

(** [func (b *BPlusTree) deleteCell] *)
Definition deleteCell (b : BPlusTree) (page index : Z) : outcome BPlusTree :=
  cellptr ← getCellPtr b page index;
  if cellptr =? 0 then Ok b
  else
    s ← getPageData b page;
    key ← getKey b page index;
    cell ← getKeyCell b page key;
    usablePtr ← getUsablePtr b page;
    let shiftSize := cell_len cell in
    let length := u32 (cellptr - usablePtr) in
    b ← (if length >? 0 then
           d ← shift (view b s) usablePtr length shiftSize;
           shiftCellPtr (store b s d) page cellptr shiftSize
         else Ok b);
    b ← setUsablePtr b page (u32 (usablePtr + shiftSize));
    setCellPtr b page index 0.

(** [func (b *BPlusTree) insertOrUpdateCell] *)
Definition insertOrUpdateCell (b : BPlusTree) (page index : Z)
  (cell : list byte) : outcome BPlusTree :=
  cellPtr ← getCellPtr b page index;
  s ← getPageData b page;
  key ← getKey b page index;
  oldCell ← getKeyCell b page key;
  '(b, cellPtr, shiftSize) ←
    (if cellPtr =? 0 then
       usablePtr ← getUsablePtr b page;
       let cellPtr := u32 (usablePtr - u32 (len cell)) in
       b ← setCellPtr b page index cellPtr;
       b ← setUsablePtr b page cellPtr;
       Ok (b, cellPtr, 0)
     else
       match oldCell with
       | Some old =>
           let shiftSize := len old - len cell in
           usablePtr ← getUsablePtr b page;
           let n := u32 (cellPtr - usablePtr) in
           if n >? 0 then
             d ← shift (view b s) usablePtr n shiftSize;
             b ← shiftCellPtr (store b s d) page cellPtr shiftSize;
             b ← setUsablePtr b page (u32 (usablePtr + shiftSize));
             b ← setCellPtr b page index (u32 (cellPtr + shiftSize));
             Ok (b, cellPtr, shiftSize)
           else Ok (b, cellPtr, shiftSize)
       | None => Ok (b, cellPtr, 0)
       end);
  d ← blockCopy cell 0 (view b s) (cellPtr + shiftSize) (len cell);
  Ok (store b s d).

(** [func (b *BPlusTree) getChildByKey], [getChildByIndex], [getChild] *)
Definition getChildByKey (b : BPlusTree) (page key : Z) : outcome Z :=
  cell ← getKeyCell b page key;
  match cell with
  | Some c => Uint32 c
  | None => Fault
  end.

Definition getChildByIndex (b : BPlusTree) (page index : Z) : outcome Z :=
  key ← getKey b page index;
  getChildByKey b page key.

Definition getChild (b : BPlusTree) (page index : Z) : outcome Z :=
  getChildByIndex b page index.

(** [func (b *BPlusTree) setChild] *)
Definition setChild (b : BPlusTree) (page index child : Z)
  (payload : option (list byte)) : outcome BPlusTree :=
  match payload with
  | None => insertOrUpdateCell b page index (PutUint32 child)
  | Some _ =>
      cell ← marshal child payload;
      insertOrUpdateCell b page index cell
  end.

(** [func (b *BPlusTree) setChildParent] *)
Fixpoint setChildParent_from (n : nat) (b : BPlusTree) (page i : Z)
  : outcome BPlusTree :=
  match n with
  | O => Ok b
  | S n' =>
      ichild ← getChild b page i;
      b ← setParent b ichild page;
      setChildParent_from n' b page (i + 1)
  end.

Definition setChildParent (b : BPlusTree) (page : Z) : outcome BPlusTree :=
  numberOfKey ← getNumberOfKey b page;
  setChildParent_from (Z.to_nat numberOfKey) b page 0.

(** [func (b *BPlusTree) allocte]: the loop from page [i] over the [n]
    pages that remain of 2..31. *)
Fixpoint allocte_from (n : nat) (b : BPlusTree) (i : Z)
  : outcome (Z * BPlusTree) :=
  match n with
  | O => Ok (0, b)
  | S n' =>
      used ← isUsed b (u32 i);
      if (used : bool) then allocte_from n' b (i + 1)
      else
        b ← setUsed b (u32 i) nodeUsed;
        Ok (u32 i, b)
  end.

Definition allocte (b : BPlusTree) : outcome (Z * BPlusTree) :=
  allocte_from 30 b 2.

(** [func (b *BPlusTree) copy] *)
Definition copy (b : BPlusTree) (src dst : Z) : outcome BPlusTree :=
  srcData ← getPageData b src;
  dstData ← getPageData b dst;
  let n := Z.min (slen dstData) (slen srcData) in
  let b := store b dstData (rd (data b) (base srcData) n) in
  setPageNo b dst dst.

(** [func (b *BPlusTree) searchInternalNode]: first the loop that picks
    the slot [k], from slot [i] over the [n] slots that remain. *)
Fixpoint pick_slot (n : nat) (b : BPlusTree) (pageNo key i k : Z)
  : outcome Z :=
  match n with
  | O => Ok k
  | S n' =>
      nodeKey ← getKey b pageNo i;
      if nodeKey >=? key then Ok i
      else pick_slot n' b pageNo key (i + 1) k
  end.

Fixpoint searchInternalNode (fuel : nat) (b : BPlusTree) (pageNo key : Z)
  : outcome Z :=
  match fuel with
  | O => Timeout
  | S fuel' =>
      numberOfKey ← getNumberOfKey b pageNo;
      k ← pick_slot (Z.to_nat numberOfKey) b pageNo key 0 (numberOfKey - 1);
      child ← getChild b pageNo k;
      t ← getNodeType b child;
      if is_leaf t then Ok child
      else searchInternalNode fuel' b child key
  end.

(** [func (b *BPlusTree) search] *)
Definition search (fuel : nat) (b : BPlusTree) (key : Z) : outcome Z :=
  t ← getNodeType b rootPageNo;
  if is_leaf t then Ok rootPageNo
  else searchInternalNode fuel b rootPageNo key.

(** [func (b *BPlusTree) updateKey] *)
Fixpoint updateKey_from (n : nat) (b : BPlusTree) (pageNo oldKey newKey i : Z)
  : outcome BPlusTree :=
  match n with
  | O => Ok b
  | S n' =>
      ikey ← getKey b pageNo i;
      b ← (if ikey =? oldKey then setKey b pageNo i newKey else Ok b);
      updateKey_from n' b pageNo oldKey newKey (i + 1)
  end.

Definition updateKey (b : BPlusTree) (pageNo oldKey newKey : Z)
  : outcome BPlusTree :=
  numberOfKey ← getNumberOfKey b pageNo;
  updateKey_from (Z.to_nat numberOfKey) b pageNo oldKey newKey 0.

(** [func (b *BPlusTree) insertAndNotSplit]: the loop that opens a gap,
    run for the slots [n-1] down to 0; it yields the tree and [k]. *)
Fixpoint open_gap (n : nat) (b : BPlusTree) (pageNo key k : Z)
  : outcome (BPlusTree * Z) :=
  match n with
  | O => Ok (b, k)
  | S n' =>
      let i := Z.of_nat n' in
      ikey ← getKey b pageNo i;
      icellptr ← getCellPtr b pageNo i;
      if ikey <? key then Ok (b, i + 1)
      else
        b ← setKey b pageNo (i + 1) ikey;
        b ← setCellPtr b pageNo (i + 1) icellptr;
        b ← setCellPtr b pageNo i 0;
        open_gap n' b pageNo key i
  end.

Definition insertAndNotSplit (b : BPlusTree) (pageNo key child : Z)
  (payload : option (list byte)) : outcome BPlusTree :=
  numberOfKey ← getNumberOfKey b pageNo;
  oldMaxKey ← getKey b pageNo (numberOfKey - 1);
  '(b, k) ← open_gap (Z.to_nat numberOfKey) b pageNo key numberOfKey;
  b ← setKey b pageNo k key;
  b ← setChild b pageNo k child payload;
  newMaxKey ← getKey b pageNo numberOfKey;
  parent ← getParent b pageNo;
  b ← (if negb (parent =? 0) && negb (oldMaxKey =? newMaxKey)
       then updateKey b parent oldMaxKey newMaxKey
       else Ok b);
  setNumberOfKey b pageNo (u32 (numberOfKey + 1)).

(** [func (b *BPlusTree) insertAndSplitRoot] *)
Definition insertAndSplitRoot (b : BPlusTree) (root leftPage rightPage : Z)
  : outcome BPlusTree :=
  leftMaxKey ← getMaxKey b leftPage;
  rightMaxKey ← getMaxKey b rightPage;
  b ← setNodeType b root nodeTypeInternal;
  b ← setUsablePtr b root offsetPayload;
  b ← setKey b root 0 leftMaxKey;
  b ← setCellPtr b root 0 0;
  b ← setChild b root 0 leftPage None;
  b ← setKey b root 1 rightMaxKey;
  b ← setCellPtr b root 1 0;
  b ← setChild b root 1 rightPage None;
  b ← setNumberOfKey b root 2;
  b ← setParent b leftPage root;
  b ← setParent b rightPage root;
  t ← getNodeType b leftPage;
  Ok (if is_leaf t then mkTree (data b) leftPage (order b) else b).

(** [func (b *BPlusTree) insertAndSplitKey]: the loop over the slots
    [n-1] down to 0 with its variables [l], [r], [k]. *)
Fixpoint split_slots (n : nat) (b : BPlusTree)
  (pageNo rightPageNo key child : Z) (payload : option (list byte))
  (l r k : Z) : outcome (BPlusTree * Z * Z * Z) :=
  match n with
  | O => Ok (b, l, r, k)
  | S n' =>
      let i := Z.of_nat n' in
      ikey ← getKey b pageNo i;
      ichild ← getChild b pageNo i;
      ipayload ← getKeyPayload b pageNo ikey;
      icellptr ← getCellPtr b pageNo i;
      '(b, l, r, k) ←
        (if k >? ikey then
           if r >? 0 then
             let r := r - 1 in
             b ← setKey b rightPageNo r key;
             b ← setChild b rightPageNo r child payload;
             Ok (b, l, r, 0)
           else
             let l := l - 1 in
             b ← setKey b pageNo l key;
             b ← setChild b pageNo l child payload;
             Ok (b, l, r, 0)
         else Ok (b, l, r, k));
      '(b, l, r) ←
        (if r >? 0 then
           let r := r - 1 in
           b ← setKey b rightPageNo r ikey;
           b ← setChild b rightPageNo r ichild ipayload;
           b ← setKey b pageNo i 0;
           b ← deleteCell b pageNo i;
           Ok (b, l, r)
         else
           let l := l - 1 in
           b ← setKey b pageNo l ikey;
           b ← setCellPtr b pageNo l icellptr;
           Ok (b, l, r));
      split_slots n' b pageNo rightPageNo key child payload l r k
  end.

Definition insertAndSplitKey (b : BPlusTree) (pageNo key child : Z)
  (payload : option (list byte)) : outcome (Z * BPlusTree) :=
  '(rightPageNo, b) ← allocte b;
  let leftNumberOfKey := ceil (order b) in
  let rightNumberOfKey := order b - leftNumberOfKey + 1 in
  '(b, l, r, k) ← split_slots (Z.to_nat (order b)) b pageNo rightPageNo
                    key child payload leftNumberOfKey rightNumberOfKey key;
  b ← (if negb (k =? 0) then
         b ← setKey b pageNo 0 key;
         setChild b pageNo 0 child payload
       else Ok b);
  b ← setNumberOfKey b rightPageNo (u32 rightNumberOfKey);
  b ← setNumberOfKey b pageNo (u32 leftNumberOfKey);
  b ← setNext b pageNo rightPageNo;
  Ok (rightPageNo, b).

(** [func (b *BPlusTree) insertAndsplit]; it calls [insertKey] on the
    parent, which is passed in as [insertKey_parent]. *)
Definition insertAndsplit
  (insertKey_parent :
     BPlusTree -> Z -> Z -> Z -> option (list byte) -> outcome BPlusTree)
  (b : BPlusTree) (pageNo key child : Z) (payload : option (list byte))
  : outcome BPlusTree :=
  oldLeftMaxKey ← getMaxKey b pageNo;
  '(rightPageNo, b) ← insertAndSplitKey b pageNo key child payload;
  splitNodeType ← getNodeType b pageNo;
  b ← setNodeType b rightPageNo splitNodeType;
  parent ← getParent b pageNo;
  if parent =? 0 then
    '(newLeftPage, b) ← allocte b;
    b ← copy b pageNo newLeftPage;
    b ← setNodeType b newLeftPage splitNodeType;
    b ← insertAndSplitRoot b pageNo newLeftPage rightPageNo;
    b ← setChildParent b newLeftPage;
    setChildParent b rightPageNo
  else
    newLeftMaxKey ← getMaxKey b pageNo;
    rightMaxKey ← getMaxKey b rightPageNo;
    b ← setParent b rightPageNo parent;
    b ← setChildParent b rightPageNo;
    b ← updateKey b parent oldLeftMaxKey newLeftMaxKey;
    insertKey_parent b parent rightMaxKey rightPageNo None.

(** [func (b *BPlusTree) insertKey]: the recursion climbs the parent
    chain, one unit of [fuel] per level. *)
Fixpoint insertKey (fuel : nat) (b : BPlusTree) (pageNo key child : Z)
  (payload : option (list byte)) : outcome BPlusTree :=
  match fuel with
  | O => Timeout
  | S fuel' =>
      numberOfKey ← getNumberOfKey b pageNo;
      if negb (numberOfKey =? u32 (order b)) then
        insertAndNotSplit b pageNo key child payload
      else
        insertAndsplit (insertKey fuel') b pageNo key child payload
  end.

(** [func (b *BPlusTree) Insert] *)
Definition Insert (fuel : nat) (b : BPlusTree) (key : Z)
  (payload : option (list byte)) : outcome BPlusTree :=
  pageNo ← search fuel b key;
  insertKey fuel b pageNo key 0 payload.

(** [func (b *BPlusTree) Get] *)
Definition Get (fuel : nat) (b : BPlusTree) (key : Z)
  : outcome (option (list byte)) :=
  page ← search fuel b key;
  getKeyPayload b page key.

(** [func CreateTree(order int) *BPlusTree] *)
Fixpoint init_pages (n : nat) (b : BPlusTree) (i : Z) : outcome BPlusTree :=
  match n with
  | O => Ok b
  | S n' =>
      b ← setPageNo b (u32 i) (u32 i);
      b ← setUsed b (u32 i) nodeUnused;
      b ← setUsablePtr b (u32 i) offsetPayload;
      init_pages n' b (i + 1)
  end.

Definition CreateTree (order : Z) : outcome BPlusTree :=
  let tree := mkTree (zeros (pageSize * 32)) 0 order in
  tree ← init_pages 32 tree 0;
  let tree := mkTree (data tree) rootPageNo (Btree.order tree) in
  tree ← setNodeType tree rootPageNo nodeTypeLeaf;
  setUsed tree rootPageNo nodeUsed.

(** A run of [Insert] calls. *)
Fixpoint inserts (fuel : nat) (b : BPlusTree)
  (kvs : list (Z * list byte)) : outcome BPlusTree :=
  match kvs with
  | [] => Ok b
  | (key, payload) :: rest =>
      b ← Insert fuel b key (Some payload);
      inserts fuel b rest
  end.

(** The keys of the live slots of a page, in slot order. *)
Fixpoint keys_from (n : nat) (b : BPlusTree) (page i : Z)
  : outcome (list Z) :=
  match n with
  | O => Ok []
  | S n' =>
      k ← getKey b page i;
      rest ← keys_from n' b page (i + 1);
      Ok (k :: rest)
  end.

Definition page_keys (b : BPlusTree) (page : Z) : outcome (list Z) :=
  numberOfKey ← getNumberOfKey b page;
  keys_from (Z.to_nat numberOfKey) b page 0.

Definition bytes (s : string) : list byte := list_byte_of_string s.

(** The inserts of [TestBtree]. *)
Definition test_inserts : list (Z * list byte) :=
  [(5, bytes "val-5"); (2, bytes "val-222"); (15, bytes "val-1555");
   (4, bytes "val-44444"); (7, bytes "val-7"); (9, bytes "val-9");
   (19, bytes "val-19"); (11, bytes "val-11"); (1, bytes "val-1");
   (32, bytes "val-32"); (21, bytes "val-21")].

(** The empty tree of order 5. *)
Definition tree5 : BPlusTree :=
  Eval vm_compute in
    match CreateTree 5 with
    | Ok t => t
    | _ => mkTree [] 0 0
    end.

(** Five keys fill the root leaf of a tree of order 5. *)
Definition five_keys : list (Z * list byte) :=
  [(10, bytes "a"); (20, bytes "b"); (30, bytes "c"); (40, bytes "d");
   (50, bytes "e")].

Definition low_keys : list (Z * list byte) :=
  [(1, bytes "a"); (2, bytes "b"); (3, bytes "c"); (4, bytes "d");
   (5, bytes "e")].

(** ** Observations used to state facts about the tree *)

(** The image has the size [CreateTree] gives it. *)
Definition image_ok (b : BPlusTree) : Prop :=
  len (data b) = pageSize * 32.









(** The first root split of a tree of order 5: the keys of [five_keys] and
    then 60.  [before_root_split] runs [insertAndsplit] up to its call of
    [insertAndSplitRoot] and yields the new left page, the right page and
    the tree at that point. *)
Definition before_root_split : outcome (Z * Z * BPlusTree) :=
  t ← CreateTree 5;
  t ← inserts 4 t five_keys;
  '(rightPageNo, t) ← insertAndSplitKey t rootPageNo 60 0 (Some (bytes "f"));
  splitNodeType ← getNodeType t rootPageNo;
  t ← setNodeType t rightPageNo splitNodeType;
  '(newLeftPage, t) ← allocte t;
  t ← copy t rootPageNo newLeftPage;
  t ← setNodeType t newLeftPage splitNodeType;
  Ok (newLeftPage, rightPageNo, t).

Definition tree_of (o : outcome BPlusTree) : BPlusTree :=
  match o with
  | Ok t => t
  | _ => mkTree [] 0 0
  end.

Definition split_entry : BPlusTree :=
  Eval vm_compute in
    match before_root_split with
    | Ok (_, _, t) => t
    | _ => mkTree [] 0 0
    end.
Definition split_rooted : BPlusTree :=
  Eval vm_compute in tree_of (insertAndSplitRoot split_entry rootPageNo 3 2).
Definition split_left_done : BPlusTree :=
  Eval vm_compute in tree_of (setChildParent split_rooted 3).
Definition split_done : BPlusTree :=
  Eval vm_compute in tree_of (setChildParent split_left_done 2).

(** ** The copying loops, byte by byte *)

(** [d[i]] and [d[i] = v] on a whole buffer: an index outside it panics. *)
Definition byte_at (d : list byte) (i : Z) : outcome byte :=
  if 0 <=? i then
    match d !! Z.to_nat i with
    | Some x => Ok x
    | None => Fault
    end
  else Fault.

Definition byte_put (d : list byte) (i : Z) (v : byte)
  : outcome (list byte) :=
  if (0 <=? i) && (i <? len d) then Ok (<[Z.to_nat i := v]> d) else Fault.

(** The loop of [blockCopy],
    [for i := srcOffset; i < srcOffset+count; i++ {
       dst[dstOffset+index] = src[srcOffset+index]; index++ }],
    over the [n] iterations that remain. *)
Fixpoint blockCopy_loop (n : nat) (src : list byte) (srcOffset : Z)
  (dst : list byte) (dstOffset index : Z) : outcome (list byte) :=
  match n with
  | O => Ok dst
  | S n' =>
      x ← byte_at src (srcOffset + index);
      dst ← byte_put dst (dstOffset + index) x;
      blockCopy_loop n' src srcOffset dst dstOffset (index + 1)
  end.

(** [func blockCopy] with its loop run as written. *)
Definition blockCopy_bytewise (src : list byte) (srcOffset : Z)
  (dst : list byte) (dstOffset count : Z) : outcome (list byte) :=
  let srcLen := len src in
  if (srcOffset >? srcLen) || (count >? srcLen)
     || (srcOffset + count >? srcLen) then Ok dst
  else
    let dstLen := len dst in
    if (dstOffset >? dstLen) || (count >? dstLen)
       || (dstOffset + count >? dstLen) then Ok dst
    else blockCopy_loop (Z.to_nat count) src srcOffset dst dstOffset 0.

(** The loop of [lshift],
    [for i := 0; i < len; i++ { data[src-shiftSize+i] = data[src+i] }],
    over the [n] iterations that remain from [i]. *)
Fixpoint lshift_loop (n : nat) (data : list byte) (src shiftSize i : Z)
  : outcome (list byte) :=
  match n with
  | O => Ok data
  | S n' =>
      x ← byte_at data (src + i);
      data ← byte_put data (src - shiftSize + i) x;
      lshift_loop n' data src shiftSize (i + 1)
  end.

(** The loop of [rshift],
    [for i := len - 1; i >= 0; i-- { data[src+shiftSize+i] = data[src+i] }],
    run for [i] from [n - 1] down to 0. *)
Fixpoint rshift_loop (n : nat) (data : list byte) (src shiftSize : Z)
  : outcome (list byte) :=
  match n with
  | O => Ok data
  | S n' =>
      let i := Z.of_nat n' in
      x ← byte_at data (src + i);
      data ← byte_put data (src + shiftSize + i) x;
      rshift_loop n' data src shiftSize
  end.

(** [func shift] with the two loops run as written. *)
Definition shift_bytewise (data : list byte) (src n shiftSize : Z)
  : outcome (list byte) :=
  if shiftSize >? 0 then rshift_loop (Z.to_nat n) data src shiftSize
  else if shiftSize <? 0 then lshift_loop (Z.to_nat n) data src (- shiftSize) 0
  else Ok data.

(** ** Range search *)

(** [func (b *BPlusTree) RangeSearch]: the keys it prints.  First the
    inner loop over the slots of one page, from slot [i] over the [n]
    slots that remain; then the outer loop, which follows the [next]
    fields from page to page and has no bound of its own. *)
Fixpoint range_keys (n : nat) (b : BPlusTree) (page key1 key2 i : Z)
  : outcome (list Z) :=
  match n with
  | O => Ok []
  | S n' =>
      ikey ← getKey b page i;
      rest ← range_keys n' b page key1 key2 (i + 1);
      Ok (if (ikey >=? key1) && (ikey <=? key2) then ikey :: rest else rest)
  end.

Fixpoint range_pages (fuel : nat) (b : BPlusTree)
  (page endPage key1 key2 : Z) : outcome (list Z) :=
  match fuel with
  | O => Timeout
  | S fuel' =>
      numberOfKey ← getNumberOfKey b page;
      ks ← range_keys (Z.to_nat numberOfKey) b page key1 key2 0;
      if page =? endPage then Ok ks
      else
        next ← getNext b page;
        rest ← range_pages fuel' b next endPage key1 key2;
        Ok (ks ++ rest)
  end.

Definition RangeSearch (fuel : nat) (b : BPlusTree) (key1 key2 : Z)
  : outcome (list Z) :=
  startPage ← search fuel b key1;
  endPage ← search fuel b key2;
  range_pages fuel b startPage endPage key1 key2.

(** ** A fresh tree *)

(** What [CreateTree] leaves in page [p]. *)
Definition fresh_page (t : BPlusTree) (p : Z) : bool :=
  match getPageNo t p, getUsablePtr t p, getNumberOfKey t p,
        getParent t p, getNext t p, isUsed t p with
  | Ok no, Ok u, Ok n, Ok parent, Ok next, Ok used =>
      (no =? p) && (u =? offsetPayload) && (n =? 0) && (parent =? 0)
      && (next =? 0) && Bool.eqb used (p =? rootPageNo)
  | _, _, _, _, _, _ => false
  end.

(** The page numbers of the file. *)
Definition pages : list Z := map Z.of_nat (seq 0 32).

(** Slot [i] of the root page carries no cell pointer. *)
Definition no_cell (t : BPlusTree) (i : Z) : bool :=
  match getCellPtr t rootPageNo i with
  | Ok c => c =? 0
  | _ => false
  end.

(** ** A root that is a leaf *)

(** The cell [marshal] builds for a leaf entry: child 0, the length of the
    payload, the payload. *)
Definition leaf_cell (v : list byte) : list byte :=
  PutUint32 0 ++ PutUint32 (len v) ++ v.

(** The keys of a list of entries do not descend. *)
Definition keys_ascend (es : list (Z * list byte)) : Prop :=
  forall i j ei ej, (i <= j)%nat ->
    es !! i = Some ei -> es !! j = Some ej -> fst ei <= fst ej.

(** The root page is a leaf that holds the entries [es] in its first
    slots, in ascending key order: slot [i] carries the key of entry [i]
    and points at its cell, the cells lie between the usable pointer [u]
    and the end of the payload area, and the slots from the first free
    one up to [u] carry no cell pointer. *)
Definition leaf_root (b : BPlusTree) (es : list (Z * list byte)) (u : Z)
  : Prop :=
  image_ok b /\
  getNodeType b rootPageNo = Ok nodeTypeLeaf /\
  getParent b rootPageNo = Ok 0 /\
  getNumberOfKey b rootPageNo = Ok (Z.of_nat (length es)) /\
  getUsablePtr b rootPageNo = Ok u /\
  48 + 12 * Z.of_nat (length es) <= u <= 504 /\
  keys_ascend es /\
  (forall i k v, es !! i = Some (k, v) ->
     getKey b rootPageNo (Z.of_nat i) = Ok k /\
     exists c, getCellPtr b rootPageNo (Z.of_nat i) = Ok c /\
               u <= c /\ c + 8 + len v <= 504 /\
               rd (data b) (512 + c) (8 + len v) = leaf_cell v) /\
  (forall i, Z.of_nat (length es) <= i -> 48 + 12 * i <= u ->
     getCellPtr b rootPageNo i = Ok 0).

(** Where [insertAndNotSplit] puts a new entry: before the first entry
    whose key is not below the new key. *)
Fixpoint put (key : Z) (v : list byte) (es : list (Z * list byte))
  : list (Z * list byte) :=
  match es with
  | [] => [(key, v)]
  | (k, w) :: rest =>
      if k <? key then (k, w) :: put key v rest else (key, v) :: es
  end.

(** The payload of the first entry with a key. *)
Fixpoint entry (key : Z) (es : list (Z * list byte)) : option (list byte) :=
  match es with
  | [] => None
  | (k, w) :: rest => if k =? key then Some w else entry key rest
  end.

(** The payload of the last pair with a key in a run of inserts. *)
Definition latest (key : Z) (kvs : list (Z * list byte))
  : option (list byte) :=
  fold_left (fun acc kv => if fst kv =? key then Some (snd kv) else acc)
            kvs None.

(** The entries a run of inserts leaves in a leaf. *)
Definition put_all (kvs es : list (Z * list byte)) : list (Z * list byte) :=
  fold_left (fun es kv => put (fst kv) (snd kv) es) kvs es.

(** The bytes the cells of a run of inserts take. *)
Definition cells_size (kvs : list (Z * list byte)) : Z :=
  fold_right (fun kv n => 8 + len (snd kv) + n) 0 kvs.

(** The tree of order 5 after the five inserts that fill its root, and
    after the single insert of key 7. *)
Definition five_tree : BPlusTree :=
  Eval vm_compute in tree_of (inserts 4 tree5 five_keys).
Definition one_key_tree : BPlusTree :=
  Eval vm_compute in tree_of (Insert 1 tree5 7 (Some (bytes "val-7"))).

End Btree.

(** * General facts *)

Lemma bind_Ok {A B} (m : outcome A) (f : A -> outcome B) (b : B) :
  m ≫= f = Ok b -> exists a, m = Ok a /\ f a = Ok b.
Proof. destruct m; simpl; intros H; try discriminate. eauto. Qed.

Ltac inv_bind H :=
  let a := fresh "a" in
  let Ha := fresh "Ha" in
  apply bind_Ok in H; destruct H as (a & Ha & H).

Lemma wrap64_small z : - 2^63 <= z < 2^63 -> wrap64 z = z.
Proof. intros H. unfold wrap64. rewrite Z.mod_small; lia. Qed.

(** * Facts about the transaction engine *)

Module MvccSpec.
Import Mvcc.

Lemma status_eqb_eq a b : status_eqb a b = true <-> a = b.
Proof. destruct a, b; simpl; split; congruence. Qed.

(** ** Scanning a pool *)

Section Scan.
Context {A : Type} (p : A -> bool).

Lemma scan_from_in_range rest i n :
  (n <= length rest)%nat -> scan_from p rest i n <> Fault.
Proof.
  revert rest i. induction n as [|n IH]; intros rest i Hlen; simpl;
    [discriminate|].
  destruct rest as [|r rest]; simpl in Hlen; [lia|].
  destruct (p r); [discriminate|]. apply IH. lia.
Qed.

Lemma scan_from_Some rest i n k :
  scan_from p rest i n = Ok (Some k) ->
  (i <= k < i + n)%nat /\
  (exists r, rest !! (k - i)%nat = Some r /\ p r = true) /\
  (forall j r, (j < k - i)%nat -> rest !! j = Some r -> p r = false).
Proof.
  revert rest i. induction n as [|n IH]; intros rest i; simpl; [discriminate|].
  destruct rest as [|x rest]; [discriminate|].
  destruct (p x) eqn:Hp.
  - intros [= <-]. split; [lia|]. rewrite Nat.sub_diag.
    split; [exists x; auto|]. intros; lia.
  - intros H. apply IH in H as (Hk & (r & Hr & Hpr) & Hbefore).
    split; [lia|]. replace (k - i)%nat with (S (k - S i)) by lia.
    split; [exists r; auto|].
    intros [|j] r' Hj Hjr; simpl in Hjr.
    + congruence.
    + apply (Hbefore j); [lia|exact Hjr].
Qed.

Lemma scan_from_None rest i n :
  scan_from p rest i n = Ok None ->
  forall j r, (j < n)%nat -> rest !! j = Some r -> p r = false.
Proof.
  revert rest i. induction n as [|n IH]; intros rest i; simpl; [intros; lia|].
  destruct rest as [|x rest]; [discriminate|].
  destruct (p x) eqn:Hp; [discriminate|].
  intros H [|j] r' Hj Hjr; simpl in Hjr.
  - congruence.
  - apply (IH _ _ H j); [lia|exact Hjr].
Qed.

Lemma scan_from_all_false rest i n :
  (forall j r, (j < n)%nat -> rest !! j = Some r -> p r = false) ->
  scan_from p rest i n = Ok None \/ scan_from p rest i n = Fault.
Proof.
  revert rest i. induction n as [|n IH]; intros rest i Hall; simpl;
    [now left|].
  destruct rest as [|x rest]; [now right|].
  rewrite (Hall 0%nat x) by (lia || reflexivity).
  apply IH. intros j r' Hj. apply (Hall (S j)). lia.
Qed.

Lemma scan_all_false pool n :
  (n <= length pool)%nat ->
  (forall j r, (j < n)%nat -> pool !! j = Some r -> p r = false) ->
  scan p pool n = Ok None.
Proof.
  intros Hlen Hall. unfold scan.
  destruct (scan_from_all_false pool 0 n Hall) as [H|H]; [exact H|].
  exfalso. revert H. apply scan_from_in_range. exact Hlen.
Qed.

Lemma scan_Some pool n k :
  scan p pool n = Ok (Some k) ->
  (k < n)%nat /\ exists r, pool !! k = Some r /\ p r = true.
Proof.
  unfold scan. intros H. apply scan_from_Some in H as (Hk & Hr & _).
  rewrite Nat.sub_0_r in Hr. split; [lia|exact Hr].
Qed.

End Scan.

(** ** Read views *)

Lemma inView_In v w : inView v w = true <-> In w (active_ids v).
Proof.
  unfold inView, active_ids. rewrite existsb_exists, in_map_iff.
  split; intros (x & H1 & H2); exists x.
  - apply Z.eqb_eq in H2. tauto.
  - split; [tauto|]. apply Z.eqb_eq. tauto.
Qed.

Lemma last_map_trxID (l : list Trx) (d : Trx) :
  l <> [] -> List.last (map trxID l) 0 = trxID (List.last l d).
Proof.
  induction l as [|x l IH]; [congruence|]. intros _.
  destruct l as [|y l]; [reflexivity|].
  change (List.last (map trxID (y :: l)) 0 = trxID (List.last (y :: l) d)).
  apply IH. discriminate.
Qed.

Lemma createReadView_ids ctx :
  view_trxIDs (createReadView ctx) = List.filter is_uncommit (trxIDs ctx).
Proof.
  unfold createReadView. destruct (List.filter is_uncommit (trxIDs ctx));
    reflexivity.
Qed.

Lemma createReadView_anchored ctx : anchored (createReadView ctx).
Proof.
  unfold anchored, active_ids, createReadView.
  destruct (List.filter is_uncommit (trxIDs ctx)) as [|x l] eqn:E.
  - simpl. auto.
  - cbn [lowLimitID upLimitID view_trxIDs]. split; [reflexivity|].
    symmetry. apply last_map_trxID. discriminate.
Qed.

(** What [Begin] leaves behind, spelled out: [mid] is the pool at the
    moment [createReadView] runs, with the caller's slot already carrying
    its new id and the status [uncommit]. *)
Lemma Begin_inv ctx t ctx' :
  Begin ctx t = Ok ctx' ->
  exists old,
    trxIDs ctx !! t = Some old /\
    let counter := wrap64 (trxCounter ctx + 1) in
    let mid := <[t := mkTrx counter uncommit (view old)]> (trxIDs ctx) in
    let v := createReadView
               (mkTrxContext mid (dataPool ctx) (undo ctx) counter
                             (rowCounter ctx)) in
    ctx' = mkTrxContext (<[t := mkTrx counter uncommit (Some v)]> mid)
             (dataPool ctx) (undo ctx) counter (rowCounter ctx).
Proof.
  unfold Begin, deref. destruct (trxIDs ctx !! t) as [old|] eqn:E;
    simpl; [|discriminate].
  intros [= <-]. exists old. split; reflexivity.
Qed.

Lemma set_status_inv ctx t s ctx' :
  set_status ctx t s = Ok ctx' ->
  exists old,
    trxIDs ctx !! t = Some old /\
    ctx' = set_trxIDs ctx (<[t := mkTrx (trxID old) s (view old)]> (trxIDs ctx)).
Proof.
  unfold set_status, deref. destruct (trxIDs ctx !! t) as [old|] eqn:E;
    simpl; [|discriminate].
  intros [= <-]. eauto.
Qed.

Lemma Insert_trxIDs ctx t d ctx' :
  Insert ctx t d = Ok ctx' -> trxIDs ctx' = trxIDs ctx.
Proof.
  unfold Insert. intros H. inv_bind H. destruct a; [|discriminate].
  inv_bind H. inv_bind H. injection H as <-. reflexivity.
Qed.

Lemma Update_trxIDs ctx t rowid d ctx' :
  Update ctx t rowid d = Ok ctx' -> trxIDs ctx' = trxIDs ctx.
Proof.
  unfold Update. intros H. inv_bind H. inv_bind H.
  destruct a as [ri|]; [|discriminate]. destruct a0 as [ui|]; [|discriminate].
  inv_bind H. inv_bind H. inv_bind H. injection H as <-. reflexivity.
Qed.

(** No call other than [Begin] on the same slot changes a slot's view or
    its transaction id. *)
Lemma step_keeps_view ctx o ctx' t tr :
  step ctx o = Ok ctx' -> o <> OpBegin t ->
  trxIDs ctx !! t = Some tr ->
  exists tr', trxIDs ctx' !! t = Some tr' /\
              view tr' = view tr /\ trxID tr' = trxID tr.
Proof.
  intros Hstep Hne Ht. destruct o as [t0|t0|t0|t0 d|t0 rowid d]; simpl in Hstep.
  - apply Begin_inv in Hstep as (old & Hold & ->). cbn [trxIDs].
    assert (t0 <> t) by congruence.
    exists tr. rewrite !list_lookup_insert_ne by assumption. auto.
  - apply set_status_inv in Hstep as (old & Hold & ->). cbn [trxIDs set_trxIDs].
    destruct (decide (t0 = t)) as [->|Hd].
    + rewrite list_lookup_insert_eq by (eapply lookup_lt_Some; eauto).
      eexists; split; [reflexivity|]. rewrite Ht in Hold.
      injection Hold as <-. auto.
    + exists tr. rewrite list_lookup_insert_ne by assumption. auto.
  - apply set_status_inv in Hstep as (old & Hold & ->). cbn [trxIDs set_trxIDs].
    destruct (decide (t0 = t)) as [->|Hd].
    + rewrite list_lookup_insert_eq by (eapply lookup_lt_Some; eauto).
      eexists; split; [reflexivity|]. rewrite Ht in Hold.
      injection Hold as <-. auto.
    + exists tr. rewrite list_lookup_insert_ne by assumption. auto.
  - apply Insert_trxIDs in Hstep. rewrite Hstep. eauto.
  - apply Update_trxIDs in Hstep. rewrite Hstep. eauto.
Qed.

Lemma run_keeps_view ops : forall ctx ctx' t tr,
  run ctx ops = Ok ctx' -> Forall (fun o => o <> OpBegin t) ops ->
  trxIDs ctx !! t = Some tr ->
  exists tr', trxIDs ctx' !! t = Some tr' /\
              view tr' = view tr /\ trxID tr' = trxID tr.
Proof.
  induction ops as [|o ops IH]; intros ctx ctx' t tr Hrun Hall Ht; simpl in Hrun.
  - injection Hrun as <-. eauto.
  - inv_bind Hrun. inversion Hall as [|? ? Ho Hrest]; subst.
    destruct (step_keeps_view _ _ _ _ _ Ha Ho Ht) as (tr1 & Ht1 & Hv1 & Hi1).
    destruct (IH _ _ _ _ Hrun Hrest Ht1) as (tr2 & Ht2 & Hv2 & Hi2).
    exists tr2. split; [assumption|]. split; congruence.
Qed.

Lemma Begin_own_in_view ctx t ctx' :
  Begin ctx t = Ok ctx' ->
  exists tr v, trxIDs ctx' !! t = Some tr /\ view tr = Some v /\
               st tr = uncommit /\ anchored v /\
               In (trxID tr) (active_ids v).
Proof.
  intros H. apply Begin_inv in H as (old & Hold & ->). cbn zeta.
  set (counter := wrap64 (trxCounter ctx + 1)).
  set (mid := <[t := mkTrx counter uncommit (view old)]> (trxIDs ctx)).
  set (c1 := mkTrxContext mid _ _ _ _).
  assert (Hlt : (t < length (trxIDs ctx))%nat) by (eapply lookup_lt_Some; eauto).
  exists (mkTrx counter uncommit (Some (createReadView c1))), (createReadView c1).
  cbn [trxIDs view st trxID]. split.
  - apply list_lookup_insert_eq. subst mid. rewrite length_insert. exact Hlt.
  - split; [reflexivity|]. split; [reflexivity|].
    split; [apply createReadView_anchored|].
    unfold active_ids. rewrite createReadView_ids. apply in_map_iff.
    exists (mkTrx counter uncommit (view old)). split; [reflexivity|].
    apply filter_In. split; [|reflexivity].
    apply list_elem_of_In. apply list_elem_of_lookup. exists t.
    subst c1 mid. cbn [trxIDs]. apply list_lookup_insert_eq. exact Hlt.
Qed.

Lemma is_Begin_dec (o : op) (t : nat) : {o = OpBegin t} + {o <> OpBegin t}.
Proof.
  destruct o as [t0| | | |]; try (right; discriminate).
  destruct (decide (t0 = t)) as [->|Hne]; [left; reflexivity|].
  right. congruence.
Qed.

Lemma step_views_ok ctx o ctx' :
  views_ok ctx -> step ctx o = Ok ctx' -> views_ok ctx'.
Proof.
  intros Hok Hstep t tr Ht.
  destruct (is_Begin_dec o t) as [->|Hne].
  - simpl in Hstep. apply Begin_own_in_view in Hstep
      as (tr1 & v & Ht1 & Hv & _ & Hanch & Hin).
    rewrite Ht in Ht1. injection Ht1 as <-.
    intros v' Hv'. rewrite Hv in Hv'. injection Hv' as <-. auto.
  - assert (Hlt : (t < length (trxIDs ctx))%nat).
    { apply lookup_lt_Some in Ht.
      destruct o as [t0|t0|t0|t0 d|t0 rowid d]; simpl in Hstep.
      - apply Begin_inv in Hstep as (old & _ & ->). cbn [trxIDs] in Ht.
        rewrite !length_insert in Ht. exact Ht.
      - apply set_status_inv in Hstep as (old & _ & ->).
        cbn [trxIDs set_trxIDs] in Ht. rewrite length_insert in Ht. exact Ht.
      - apply set_status_inv in Hstep as (old & _ & ->).
        cbn [trxIDs set_trxIDs] in Ht. rewrite length_insert in Ht. exact Ht.
      - apply Insert_trxIDs in Hstep. congruence.
      - apply Update_trxIDs in Hstep. congruence. }
    destruct (lookup_lt_is_Some_2 _ _ Hlt) as (tr0 & Ht0).
    destruct (step_keeps_view _ _ _ _ _ Hstep Hne Ht0) as (tr1 & Ht1 & Hv & Hi).
    rewrite Ht in Ht1. injection Ht1 as <-.
    intros v Hv'. rewrite Hv in Hv'. rewrite Hi.
    exact (Hok _ _ Ht0 _ Hv').
Qed.

Lemma reachable_views_ok ctx : reachable ctx -> views_ok ctx.
Proof.
  induction 1 as [|ctx o ctx' _ IH Hstep].
  - intros t tr Ht v Hv. unfold CreateTrxContext in Ht. cbn [trxIDs] in Ht.
    apply list_elem_of_lookup_2, list_elem_of_In, repeat_spec in Ht.
    subst tr. discriminate.
  - eapply step_views_ok; eauto.
Qed.

Lemma run_reachable ops : forall ctx ctx',
  reachable ctx -> run ctx ops = Ok ctx' -> reachable ctx'.
Proof.
  induction ops as [|o ops IH]; intros ctx ctx' Hr Hrun; simpl in Hrun.
  - injection Hrun as <-. exact Hr.
  - inv_bind Hrun. eapply IH; [|exact Hrun]. eapply reach_step; eauto.
Qed.

(** [check], case by case, for any transaction that has a view. *)
Lemma check_cases tr v w :
  view tr = Some v ->
  check tr w =
    Ok (if trxID tr =? w then true
        else if w <? lowLimitID v then true
        else if w >? upLimitID v then false
        else negb (inView v w)).
Proof.
  intros Hv. unfold check. rewrite Hv.
  destruct (trxID tr =? w); [reflexivity|].
  destruct (w <? lowLimitID v); [reflexivity|].
  destruct (w >? upLimitID v); [reflexivity|].
  destruct (inView v w); reflexivity.
Qed.

(** ** The repository's test *)

(** [TestTrx2]: T2 reads row 1 from the undo chain and its own row 2; T3
    reads its own rows 1 and 3 and nothing for row 2. *)
Example TestTrx2_selects :
  Select 8 (ctx_after interleaved) 1
    = Ok [(None, bytes "trx1-data1"); (Some 2, bytes "trx2-data1")] /\
  Select 8 (ctx_after interleaved) 2
    = Ok [(Some 1, bytes "trx3-data0"); (Some 3, bytes "trx3-data1")].
Proof. split; vm_compute; reflexivity. Qed.

(** ** The visibility check *)

Lemma anchored_low_in v x :
  anchored v -> In x (active_ids v) -> In (lowLimitID v) (active_ids v).
Proof.
  intros [Hlow _] Hin. rewrite Hlow.
  destruct (active_ids v) as [|y l]; [contradiction|]. left. reflexivity.
Qed.

(** C1 (as amended).  For every transaction of a reachable context that has
    a read view, and every writer id [w], [check] returns a result, and it
    is "visible" iff [w] is the transaction's own id, or [w] is below
    [low_limit_id], or [w] lies in (low_limit_id, up_limit_id] and is not
    in [active_ids].  It is "not visible" whenever [w] is not the own id,
    is not below [low_limit_id], and either exceeds [up_limit_id] or is in
    [active_ids]. *)
Theorem check_visibility ctx t tr v w :
  reachable ctx -> trxIDs ctx !! t = Some tr -> view tr = Some v ->
  exists b, check tr w = Ok b /\
    (b = true <->
       w = trxID tr \/ w < lowLimitID v \/
       (lowLimitID v < w <= upLimitID v /\ ~ In w (active_ids v))) /\
    (w <> trxID tr -> lowLimitID v <= w ->
     upLimitID v < w \/ In w (active_ids v) -> b = false).
Proof.
  intros Hreach Ht Hv.
  destruct (reachable_views_ok _ Hreach _ _ Ht _ Hv) as [Hanch Hown].
  pose proof (anchored_low_in _ _ Hanch Hown) as Hlow.
  rewrite (check_cases _ _ _ Hv). eexists. split; [reflexivity|].
  destruct (Z.eqb_spec (trxID tr) w) as [Heq|Hne].
  { split; [intuition|]. intros; congruence. }
  destruct (Z.ltb_spec w (lowLimitID v)) as [Hlt|Hge].
  { split; [intuition|]. intros; lia. }
  destruct (w >? upLimitID v) eqn:Hgt.
  { apply Z.gtb_lt in Hgt. split; [|reflexivity].
    split; [discriminate|]. intros [?|[?|[? _]]]; [congruence|lia|lia]. }
  assert (Hle : w <= upLimitID v).
  { destruct (Z.gtb_spec w (upLimitID v)); [discriminate|lia]. }
  destruct (inView v w) eqn:Hin; simpl.
  - apply inView_In in Hin. split; [|reflexivity].
    split; [discriminate|]. intros [?|[?|[_ ?]]]; [congruence|lia|contradiction].
  - assert (Hnin : ~ In w (active_ids v)).
    { intros H. apply inView_In in H. congruence. }
    split.
    + split; [|reflexivity]. intros _. right. right. split; [|exact Hnin].
      split; [|exact Hle]. destruct (Z.eq_dec w (lowLimitID v)) as [->|]; [|lia].
      contradiction.
    + intros _ _ [?|?]; [lia|contradiction].
Qed.

Lemma interleaved_reachable : reachable (ctx_after interleaved).
Proof.
  apply (run_reachable interleaved CreateTrxContext); [apply reach_init|].
  vm_compute. reflexivity.
Qed.

Lemma check_visibility_witness :
  reachable (ctx_after interleaved) /\
  trxIDs (ctx_after interleaved) !! 2%nat = Some (slot (ctx_after interleaved) 2) /\
  view (slot (ctx_after interleaved) 2)
    = Some (view_of (slot (ctx_after interleaved) 2)) /\
  exists b, check (slot (ctx_after interleaved) 2) 2 = Ok b /\
    (b = true <->
       2 = trxID (slot (ctx_after interleaved) 2) \/
       2 < lowLimitID (view_of (slot (ctx_after interleaved) 2)) \/
       (lowLimitID (view_of (slot (ctx_after interleaved) 2)) < 2
          <= upLimitID (view_of (slot (ctx_after interleaved) 2)) /\
        ~ In 2 (active_ids (view_of (slot (ctx_after interleaved) 2))))) /\
    (2 <> trxID (slot (ctx_after interleaved) 2) ->
     lowLimitID (view_of (slot (ctx_after interleaved) 2)) <= 2 ->
     upLimitID (view_of (slot (ctx_after interleaved) 2)) < 2 \/
     In 2 (active_ids (view_of (slot (ctx_after interleaved) 2))) ->
     b = false).
Proof.
  split; [exact interleaved_reachable|].
  split; [vm_compute; reflexivity|].
  split; [vm_compute; reflexivity|].
  apply (check_visibility (ctx_after interleaved) 2%nat).
  - exact interleaved_reachable.
  - vm_compute; reflexivity.
  - vm_compute; reflexivity.
Defined.

Lemma begun_twice_reachable : reachable (ctx_after begun_twice).
Proof.
  apply (run_reachable begun_twice CreateTrxContext); [apply reach_init|].
  vm_compute. reflexivity.
Qed.

(** C1 as stated fails: after slot 0 is begun a second time its view lists
    the ids 3 and 2 with low limit 3 and up limit 2; the id 2 is in
    [active_ids] and is not the own id, and [check] returns "visible". *)
Lemma check_admits_active_id :
  AllocteTrx CreateTrxContext = Ok (Some 0%nat) /\
  AllocteTrx (ctx_after [OpBegin 0%nat]) = Ok (Some 1%nat) /\
  reachable (ctx_after begun_twice) /\
  trxIDs (ctx_after begun_twice) !! 0%nat
    = Some (slot (ctx_after begun_twice) 0) /\
  view (slot (ctx_after begun_twice) 0)
    = Some (view_of (slot (ctx_after begun_twice) 0)) /\
  active_ids (view_of (slot (ctx_after begun_twice) 0)) = [3; 2] /\
  trxID (slot (ctx_after begun_twice) 0) = 3 /\
  check (slot (ctx_after begun_twice) 0) 2 = Ok true.
Proof.
  split; [vm_compute; reflexivity|].
  split; [vm_compute; reflexivity|].
  split; [exact begun_twice_reachable|].
  split; [vm_compute; reflexivity|].
  split; [vm_compute; reflexivity|].
  split; [vm_compute; reflexivity|].
  split; vm_compute; reflexivity.
Qed.

(** ** Begin and the read view *)

(** The slot [Begin] writes, with its view. *)
Lemma Begin_slot_view ctx t ctx' :
  Begin ctx t = Ok ctx' ->
  exists old tr v,
    trxIDs ctx !! t = Some old /\
    trxIDs ctx' !! t = Some tr /\ view tr = Some v /\
    st tr = uncommit /\
    view_trxIDs v
      = List.filter is_uncommit
          (<[t := mkTrx (trxID tr) uncommit (view old)]> (trxIDs ctx)) /\
    upLimitID v = List.last (active_ids v) 0.
Proof.
  intros HB. apply Begin_inv in HB as (old & Hold & Hctx'). cbn zeta in Hctx'.
  set (counter := wrap64 (trxCounter ctx + 1)) in *.
  set (mid := <[t := mkTrx counter uncommit (view old)]> (trxIDs ctx)) in *.
  set (c1 := mkTrxContext mid _ _ _ _) in *.
  assert (Hlt : (t < length (trxIDs ctx))%nat) by (eapply lookup_lt_Some; eauto).
  exists old, (mkTrx counter uncommit (Some (createReadView c1))),
    (createReadView c1).
  split; [exact Hold|]. split.
  { rewrite Hctx'. cbn [trxIDs]. apply list_lookup_insert_eq.
    subst mid. rewrite length_insert. exact Hlt. }
  split; [reflexivity|]. split; [reflexivity|].
  split; [apply createReadView_ids|]. apply createReadView_anchored.
Qed.




Lemma forallb_lookup {A} (p : A -> bool) (l : list A) i x :
  forallb p l = true -> l !! i = Some x -> p x = true.
Proof.
  intros H Hi. rewrite forallb_forall in H. apply H.
  apply list_elem_of_In, list_elem_of_lookup. eauto.
Qed.

Lemma filter_none_uncommit (l : list Trx) :
  (forall j tr, l !! j = Some tr -> st tr <> uncommit) ->
  List.filter is_uncommit l = [].
Proof.
  induction l as [|x l IH]; intros H; [reflexivity|]. simpl.
  destruct (is_uncommit x) eqn:E.
  - apply status_eqb_eq in E. exfalso. exact (H 0%nat x eq_refl E).
  - apply IH. intros j tr Hj. exact (H (S j) tr Hj).
Qed.

Lemma last_snoc_ids (l : list Trx) (x : Trx) :
  List.last (map trxID (l ++ [x])) 0 = trxID x.
Proof. rewrite map_app. simpl. apply List.last_last. Qed.

(** C10 (as amended).  [Begin] marks the calling transaction uncommitted
    before it captures the view, so the view lists the caller itself with
    that status; the own id is a member of [active_ids], and stays one
    through every later call other than a [Begin] on the same slot;
    [up_limit_id] is the own id when no slot after the caller's is
    uncommitted at that moment; and [check] admits the own id by its first
    test, the window rule never applying to it. *)
Theorem begin_lists_own_id ctx t ctx' :
  Begin ctx t = Ok ctx' ->
  exists old tr v,
    trxIDs ctx !! t = Some old /\
    trxIDs ctx' !! t = Some tr /\ view tr = Some v /\
    st tr = uncommit /\
    In (mkTrx (trxID tr) uncommit (view old)) (view_trxIDs v) /\
    In (trxID tr) (active_ids v) /\
    (forallb (fun tr' => negb (is_uncommit tr')) (drop (S t) (trxIDs ctx))
       = true ->
     upLimitID v = trxID tr) /\
    check tr (trxID tr) = Ok true /\
    ~ (lowLimitID v < trxID tr <= upLimitID v /\
       ~ In (trxID tr) (active_ids v)) /\
    forall ops ctx'',
      Forall (fun o => o <> OpBegin t) ops -> run ctx' ops = Ok ctx'' ->
      exists tr'', trxIDs ctx'' !! t = Some tr'' /\ view tr'' = Some v /\
                   In (trxID tr'') (active_ids v).
Proof.
  intros HB.
  destruct (Begin_slot_view ctx t ctx' HB)
    as (old & tr & v & Hold & Ht' & Hv & Hst & Hids & Hup).
  assert (Hlt : (t < length (trxIDs ctx))%nat) by (eapply lookup_lt_Some; eauto).
  assert (Hentry : In (mkTrx (trxID tr) uncommit (view old)) (view_trxIDs v)).
  { rewrite Hids. apply filter_In. split; [|reflexivity].
    apply list_elem_of_In, list_elem_of_lookup. exists t.
    apply list_lookup_insert_eq. exact Hlt. }
  assert (Hown : In (trxID tr) (active_ids v)).
  { unfold active_ids. apply in_map_iff. eexists. split; [|exact Hentry].
    reflexivity. }
  exists old, tr, v.
  split; [exact Hold|]. split; [exact Ht'|]. split; [exact Hv|].
  split; [exact Hst|]. split; [exact Hentry|]. split; [exact Hown|].
  split.
  { intros Hlast. rewrite Hup. unfold active_ids. rewrite Hids.
    rewrite insert_take_drop by exact Hlt. rewrite List.filter_app. simpl.
    rewrite (filter_none_uncommit (drop (S t) (trxIDs ctx))).
    - rewrite last_snoc_ids. reflexivity.
    - intros j tr' Hj Hun.
      pose proof (forallb_lookup _ _ _ _ Hlast Hj) as Hn. cbv beta in Hn.
      unfold is_uncommit in Hn. rewrite Hun in Hn. discriminate. }
  split.
  { unfold check. rewrite Z.eqb_refl. reflexivity. }
  split; [tauto|].
  intros ops ctx'' Hall Hrun.
  destruct (run_keeps_view ops _ _ _ _ Hrun Hall Ht') as (tr'' & H1 & H2 & H3).
  exists tr''. split; [exact H1|]. split; [congruence|]. rewrite H3. exact Hown.
Qed.

Lemma begin_lists_own_id_witness :
  Begin (ctx_after [OpBegin 0%nat]) 1
    = Ok (ctx_after [OpBegin 0%nat; OpBegin 1%nat]) /\
  forallb (fun tr' => negb (is_uncommit tr'))
          (drop 2 (trxIDs (ctx_after [OpBegin 0%nat]))) = true /\
  exists old tr v,
    trxIDs (ctx_after [OpBegin 0%nat]) !! 1%nat = Some old /\
    trxIDs (ctx_after [OpBegin 0%nat; OpBegin 1%nat]) !! 1%nat = Some tr /\
    view tr = Some v /\
    st tr = uncommit /\
    In (mkTrx (trxID tr) uncommit (view old)) (view_trxIDs v) /\
    In (trxID tr) (active_ids v) /\
    upLimitID v = trxID tr /\
    check tr (trxID tr) = Ok true /\
    ~ (lowLimitID v < trxID tr <= upLimitID v /\
       ~ In (trxID tr) (active_ids v)) /\
    forall ops ctx'',
      Forall (fun o => o <> OpBegin 1%nat) ops ->
      run (ctx_after [OpBegin 0%nat; OpBegin 1%nat]) ops = Ok ctx'' ->
      exists tr'', trxIDs ctx'' !! 1%nat = Some tr'' /\ view tr'' = Some v /\
                   In (trxID tr'') (active_ids v).
Proof.
  assert (HB : Begin (ctx_after [OpBegin 0%nat]) 1
               = Ok (ctx_after [OpBegin 0%nat; OpBegin 1%nat]))
    by (vm_compute; reflexivity).
  assert (Hlast : forallb (fun tr' => negb (is_uncommit tr'))
                    (drop 2 (trxIDs (ctx_after [OpBegin 0%nat]))) = true)
    by (vm_compute; reflexivity).
  split; [exact HB|]. split; [exact Hlast|].
  destruct (begin_lists_own_id _ _ _ HB)
    as (old & tr & v & H1 & H2 & H3 & H4 & H5 & H6 & H7 & H8 & H9 & H10).
  exists old, tr, v.
  repeat (split; [assumption|]).
  split; [exact (H7 Hlast)|].
  repeat (split; [assumption|]). assumption.
Defined.

(** C10 as stated fails: when slot 0 is begun again after slot 1, the view
    of slot 0 has up limit 2, below its own id 3. *)
Lemma up_limit_below_own_id :
  reachable (ctx_after begun_twice) /\
  trxIDs (ctx_after begun_twice) !! 0%nat
    = Some (slot (ctx_after begun_twice) 0) /\
  view (slot (ctx_after begun_twice) 0)
    = Some (view_of (slot (ctx_after begun_twice) 0)) /\
  trxID (slot (ctx_after begun_twice) 0) = 3 /\
  upLimitID (view_of (slot (ctx_after begun_twice) 0)) = 2 /\
  ~ (upLimitID (view_of (slot (ctx_after begun_twice) 0))
       >= trxID (slot (ctx_after begun_twice) 0)).
Proof.
  split; [exact begun_twice_reachable|].
  split; [vm_compute; reflexivity|].
  split; [vm_compute; reflexivity|].
  split; [vm_compute; reflexivity|].
  split; [vm_compute; reflexivity|].
  assert (H3 : trxID (slot (ctx_after begun_twice) 0) = 3)
    by (vm_compute; reflexivity).
  assert (H2 : upLimitID (view_of (slot (ctx_after begun_twice) 0)) = 2)
    by (vm_compute; reflexivity).
  rewrite H3, H2. lia.
Qed.

(** ** Pools without a free slot *)

Lemma scan_exhausted {A} (p : A -> bool) (pool : list A) n :
  (n <= length pool)%nat ->
  forallb (fun x => negb (p x)) pool = true ->
  scan p pool n = Ok None.
Proof.
  intros Hlen Hall. apply scan_all_false; [exact Hlen|].
  intros j r _ Hj. pose proof (forallb_lookup _ _ _ _ Hall Hj) as H.
  cbv beta in H. destruct (p r); [discriminate|reflexivity].
Qed.

Lemma scan_not_Fault {A} (p : A -> bool) (pool : list A) n :
  (n <= length pool)%nat -> scan p pool n <> Fault.
Proof. intros H. apply scan_from_in_range. exact H. Qed.

Lemma scan_not_Timeout {A} (p : A -> bool) (rest : list A) i n :
  scan_from p rest i n <> Timeout.
Proof.
  revert rest i. induction n as [|n IH]; intros rest i; simpl; [discriminate|].
  destruct rest as [|r rest]; [discriminate|]. destruct (p r); [discriminate|].
  apply IH.
Qed.

(** C8 (as amended).  In a context whose pools have their common length:
    [AllocteTrx] returns absent when no transaction slot is unused; the
    data-pool and undo-pool allocators return absent when no slot of their
    pool has row id 0; [Insert] and [Update] do not test for that and
    fault on the absent record, whatever their other arguments. *)
Theorem exhausted_pool_outcomes ctx :
  aligned ctx ->
  (forallb (fun t => negb (status_eqb (st t) unused)) (trxIDs ctx) = true ->
   AllocteTrx ctx = Ok None) /\
  (forallb (fun r => negb (rowID r =? 0)) (dataPool ctx) = true ->
   allocteRecord ctx = Ok None /\ forall t d, Insert ctx t d = Fault) /\
  (forallb (fun r => negb (rowID r =? 0)) (undo ctx) = true ->
   allocteUndo ctx = Ok None /\
   forall t rowid d, Update ctx t rowid d = Fault).
Proof.
  intros [Hd Hu]. split; [|split].
  - intros H. apply scan_exhausted; [lia|exact H].
  - intros H. assert (Ha : allocteRecord ctx = Ok None).
    { apply scan_exhausted; [lia|exact H]. }
    split; [exact Ha|]. intros t d. unfold Insert. rewrite Ha. reflexivity.
  - intros H. assert (Ha : allocteUndo ctx = Ok None).
    { apply scan_exhausted; [lia|exact H]. }
    split; [exact Ha|]. intros t rowid d. unfold Update. rewrite Ha.
    destruct (findRecord ctx rowid) as [[ri|]| |] eqn:E; try reflexivity.
    exfalso. revert E. apply scan_not_Timeout.
Qed.

Lemma exhausted_pool_outcomes_witness :
  aligned no_free_slot /\
  forallb (fun t => negb (status_eqb (st t) unused)) (trxIDs no_free_slot)
    = true /\
  forallb (fun r => negb (rowID r =? 0)) (dataPool no_free_slot) = true /\
  forallb (fun r => negb (rowID r =? 0)) (undo no_free_slot) = true /\
  AllocteTrx no_free_slot = Ok None /\
  (allocteRecord no_free_slot = Ok None /\
   forall t d, Insert no_free_slot t d = Fault) /\
  (allocteUndo no_free_slot = Ok None /\
   forall t rowid d, Update no_free_slot t rowid d = Fault).
Proof.
  assert (Ha : aligned no_free_slot) by (split; vm_compute; reflexivity).
  assert (H1 : forallb (fun t => negb (status_eqb (st t) unused))
                 (trxIDs no_free_slot) = true) by (vm_compute; reflexivity).
  assert (H2 : forallb (fun r => negb (rowID r =? 0))
                 (dataPool no_free_slot) = true) by (vm_compute; reflexivity).
  assert (H3 : forallb (fun r => negb (rowID r =? 0))
                 (undo no_free_slot) = true) by (vm_compute; reflexivity).
  destruct (exhausted_pool_outcomes no_free_slot Ha) as (T1 & T2 & T3).
  split; [exact Ha|]. split; [exact H1|]. split; [exact H2|].
  split; [exact H3|]. split; [exact (T1 H1)|].
  split; [exact (T2 H2)|exact (T3 H3)].
Defined.

Lemma pool_filled_reachable : reachable filled.
Proof.
  apply (run_reachable pool_filled CreateTrxContext); [apply reach_init|].
  vm_compute. reflexivity.
Qed.

(** C8 as stated fails: after 1024 inserts the data pool has no free slot,
    [allocteRecord] returns absent, and the next [Insert] faults. *)
Lemma insert_faults_on_full_pool :
  reachable filled /\
  forallb (fun r => negb (rowID r =? 0)) (dataPool filled) = true /\
  allocteRecord filled = Ok None /\
  Insert filled 0 (bytes "y") = Fault.
Proof.
  split; [exact pool_filled_reachable|].
  split; [vm_compute; reflexivity|].
  split; vm_compute; reflexivity.
Qed.

(** ** Update of a row that is not there *)

Lemma scan_finds {A} (p : A -> bool) (pool : list A) n :
  (n <= length pool)%nat ->
  existsb p (take n pool) = true ->
  exists k, scan p pool n = Ok (Some k).
Proof.
  intros Hlen Hex.
  destruct (scan p pool n) as [[k|]| |] eqn:E.
  - eauto.
  - exfalso. unfold scan in E.
    apply existsb_exists in Hex as (x & Hx & Hpx).
    apply list_elem_of_In, list_elem_of_lookup in Hx as (j & Hj).
    pose proof (lookup_lt_Some _ _ _ Hj) as Hjn. rewrite length_take in Hjn.
    rewrite lookup_take_lt in Hj by lia.
    rewrite (scan_from_None p pool 0 n E j x) in Hpx; [discriminate|lia|exact Hj].
  - exfalso. revert E. apply scan_not_Fault. exact Hlen.
  - exfalso. revert E. apply scan_not_Timeout.
Qed.

(** C9 (as amended).  In a context whose pools have their common length:
    when no record of the data pool carries [rowid], [findRecord] returns
    absent and [Update] faults on it; when some record does, [findRecord]
    returns it and [Update] completes as soon as an undo slot is free and
    the transaction exists.  (Free slots carry row id 0, so 0 is an id
    without a record only once the data pool is full.) *)
Theorem update_needs_record ctx t rowid d :
  aligned ctx ->
  (forallb (fun r => negb (rowID r =? rowid)) (dataPool ctx) = true ->
   findRecord ctx rowid = Ok None /\ Update ctx t rowid d = Fault) /\
  (existsb (fun r => rowID r =? rowid) (dataPool ctx) = true ->
   exists ri, findRecord ctx rowid = Ok (Some ri) /\
     forall ui tr, allocteUndo ctx = Ok (Some ui) ->
                   trxIDs ctx !! t = Some tr ->
                   exists ctx', Update ctx t rowid d = Ok ctx').
Proof.
  intros [Hd Hu]. split.
  - intros H. assert (Hf : findRecord ctx rowid = Ok None).
    { apply scan_exhausted; [lia|exact H]. }
    split; [exact Hf|]. unfold Update. rewrite Hf. simpl.
    destruct (allocteUndo ctx) as [[ui|]| |] eqn:E; try reflexivity.
    exfalso. revert E. apply scan_not_Timeout.
  - intros H.
    destruct (scan_finds (fun r => rowID r =? rowid) (dataPool ctx)
                (length (trxIDs ctx))) as (ri & Hri); [lia| |].
    { rewrite <- Hd. rewrite firstn_all. exact H. }
    exists ri. split; [exact Hri|]. intros ui tr Hui Htr.
    unfold Update. unfold findRecord. rewrite Hri. rewrite Hui. simpl.
    apply scan_Some in Hri as (_ & r & Hr & _).
    apply scan_Some in Hui as (_ & u & Hu' & _).
    unfold deref. rewrite Hr, Hu', Htr. simpl. eauto.
Qed.

Lemma update_needs_record_witness :
  aligned (ctx_after updated_once) /\
  forallb (fun r => negb (rowID r =? 7)) (dataPool (ctx_after updated_once))
    = true /\
  (findRecord (ctx_after updated_once) 7 = Ok None /\
   Update (ctx_after updated_once) 0 7 (bytes "z") = Fault) /\
  existsb (fun r => rowID r =? 1) (dataPool (ctx_after updated_once))
    = true /\
  exists ri, findRecord (ctx_after updated_once) 1 = Ok (Some ri) /\
    forall ui tr, allocteUndo (ctx_after updated_once) = Ok (Some ui) ->
                  trxIDs (ctx_after updated_once) !! 0%nat = Some tr ->
                  exists ctx',
                    Update (ctx_after updated_once) 0 1 (bytes "z") = Ok ctx'.
Proof.
  assert (Ha : aligned (ctx_after updated_once))
    by (split; vm_compute; reflexivity).
  assert (H7 : forallb (fun r => negb (rowID r =? 7))
                 (dataPool (ctx_after updated_once)) = true)
    by (vm_compute; reflexivity).
  assert (H1 : existsb (fun r => rowID r =? 1)
                 (dataPool (ctx_after updated_once)) = true)
    by (vm_compute; reflexivity).
  split; [exact Ha|]. split; [exact H7|]. split.
  - exact (proj1 (update_needs_record (ctx_after updated_once) 0%nat 7
                    (bytes "z") Ha) H7).
  - split; [exact H1|].
    exact (proj2 (update_needs_record (ctx_after updated_once) 0%nat 1
                    (bytes "z") Ha) H1).
Defined.

(** C9 as stated fails on its example: on a context with free data slots
    [findRecord] finds a record for row id 0, the first free slot, and
    [Update] of row 0 does not fault. *)
Lemma update_row_zero_completes :
  reachable (ctx_after [OpBegin 0%nat]) /\
  findRecord (ctx_after [OpBegin 0%nat]) 0 = Ok (Some 0%nat) /\
  is_ok (Update (ctx_after [OpBegin 0%nat]) 0 0 (bytes "z")) = true.
Proof.
  split.
  - apply (run_reachable [OpBegin 0%nat] CreateTrxContext); [apply reach_init|].
    vm_compute. reflexivity.
  - split; vm_compute; reflexivity.
Qed.

(** ** Undo chains *)

(** C6 fails on the code.  After one insert and two updates of the row,
    the second update was handed undo slot 0 again ([allocteUndo] looks for
    row id 0, which [Update] never changes), so the slot now holds the
    second prior version only and points to itself: the record's chain is
    cyclic, and walking it exhausts any fuel. *)
Theorem second_update_reuses_undo_slot :
  allocteUndo (ctx_after updated_once) = Ok (Some 0%nat) /\
  dataPool (ctx_after updated_twice) !! 0%nat
    = Some (mkRecord 1 1 (Some 0%nat) (bytes "v2")) /\
  undo (ctx_after updated_twice) !! 0%nat
    = Some (mkRecord 0 1 (Some 0%nat) (bytes "v1")) /\
  forall fuel,
    chain fuel (undo (ctx_after updated_twice)) (Some 0%nat) = Timeout.
Proof.
  split; [vm_compute; reflexivity|].
  split; [vm_compute; reflexivity|].
  assert (H0 : undo (ctx_after updated_twice) !! 0%nat
               = Some (mkRecord 0 1 (Some 0%nat) (bytes "v1"))).
  { vm_compute; reflexivity. }
  split; [exact H0|].
  induction fuel as [|fuel IH]; [reflexivity|].
  cbn [chain]. unfold deref. rewrite H0. cbn [mbind outcome_bind rollPtr].
  rewrite IH. reflexivity.
Qed.

(** ** Rows, slots and ids *)

Lemma Insert_inv ctx t d ctx' :
  Insert ctx t d = Ok ctx' ->
  exists ri rec tr,
    allocteRecord ctx = Ok (Some ri) /\
    dataPool ctx !! ri = Some rec /\ trxIDs ctx !! t = Some tr /\
    ctx' = mkTrxContext (trxIDs ctx)
             (<[ri := mkRecord (wrap64 (rowCounter ctx + 1)) (trxID tr)
                               (rollPtr rec) d]> (dataPool ctx))
             (undo ctx) (trxCounter ctx) (wrap64 (rowCounter ctx + 1)).
Proof.
  unfold Insert. intros H. inv_bind H. destruct a as [ri|]; [|discriminate].
  unfold deref in H.
  destruct (dataPool ctx !! ri) as [rec|] eqn:E1; [|discriminate].
  destruct (trxIDs ctx !! t) as [tr|] eqn:E2; [|discriminate].
  simpl in H. injection H as <-. exists ri, rec, tr. auto.
Qed.

Lemma Update_inv ctx t rowid d ctx' :
  Update ctx t rowid d = Ok ctx' ->
  exists ri ui rec urec tr,
    findRecord ctx rowid = Ok (Some ri) /\
    allocteUndo ctx = Ok (Some ui) /\
    dataPool ctx !! ri = Some rec /\ undo ctx !! ui = Some urec /\
    trxIDs ctx !! t = Some tr /\
    ctx' = mkTrxContext (trxIDs ctx)
             (<[ri := mkRecord (rowID rec) (trxID tr) (Some ui) d]>
                (dataPool ctx))
             (<[ui := mkRecord (rowID urec) (rec_trxID rec)
                        (match rollPtr rec with
                         | None => rollPtr urec
                         | Some u1 => Some u1
                         end) (data rec)]> (undo ctx))
             (trxCounter ctx) (rowCounter ctx).
Proof.
  unfold Update. intros H. inv_bind H. inv_bind H.
  destruct a as [ri|]; [|discriminate]. destruct a0 as [ui|]; [|discriminate].
  unfold deref in H.
  destruct (dataPool ctx !! ri) as [rec|] eqn:E1; [|discriminate].
  destruct (undo ctx !! ui) as [urec|] eqn:E2; [|discriminate].
  destruct (trxIDs ctx !! t) as [tr|] eqn:E3; [|discriminate].
  simpl in H. injection H as <-. exists ri, ui, rec, urec, tr.
  repeat (split; [first [assumption|reflexivity]|]).
  destruct (rollPtr rec); reflexivity.
Qed.

(** ** Row ids *)

Lemma rows_ok_init : rows_ok CreateTrxContext.
Proof.
  unfold rows_ok, CreateTrxContext. cbn [trxIDs dataPool rowCounter].
  rewrite !repeat_length. split; [reflexivity|]. split; [reflexivity|].
  split; [unfold poolSize; lia|].
  intros i r Hr. apply list_elem_of_lookup_2, list_elem_of_In, repeat_spec in Hr.
  subst r. cbn [rowID]. destruct (Z.ltb_spec (Z.of_nat i) 0); [lia|reflexivity].
Qed.

(** In a context whose rows are in order the first free record is the one
    after the last row. *)
Lemma rows_ok_allocteRecord ctx :
  rows_ok ctx ->
  allocteRecord ctx =
    Ok (if rowCounter ctx <? Z.of_nat poolSize
        then Some (Z.to_nat (rowCounter ctx)) else None).
Proof.
  intros (Hlt & Hld & Hrc & Hrows). unfold allocteRecord. rewrite Hlt.
  destruct (Z.ltb_spec (rowCounter ctx) (Z.of_nat poolSize)) as [Hfree|Hfull].
  - destruct (scan (fun r => rowID r =? 0) (dataPool ctx) poolSize)
      as [[k|]| |] eqn:E.
    + pose proof E as E'. unfold scan in E'.
      apply scan_from_Some in E' as (Hk & (r & Hr & Hp) & Hbefore).
      rewrite Nat.sub_0_r in *.
      apply Z.eqb_eq in Hp. rewrite (Hrows _ _ Hr) in Hp.
      destruct (Z.ltb_spec (Z.of_nat k) (rowCounter ctx)); [lia|].
      destruct (decide (k = Z.to_nat (rowCounter ctx))) as [->|Hne];
        [reflexivity|].
      exfalso.
      assert (Hin : (Z.to_nat (rowCounter ctx) < length (dataPool ctx))%nat)
        by lia.
      destruct (lookup_lt_is_Some_2 _ _ Hin) as (r0 & Hr0).
      assert (Hf := Hbefore (Z.to_nat (rowCounter ctx)) r0 ltac:(lia) Hr0). cbv beta in Hf.
      rewrite (Hrows _ _ Hr0) in Hf.
      destruct (Z.ltb_spec (Z.of_nat (Z.to_nat (rowCounter ctx)))
                  (rowCounter ctx)); [lia|]. discriminate.
    + exfalso. unfold scan in E.
      assert (Hin : (Z.to_nat (rowCounter ctx) < length (dataPool ctx))%nat)
        by lia.
      destruct (lookup_lt_is_Some_2 _ _ Hin) as (r0 & Hr0).
      assert (Hf := scan_from_None _ _ _ _ E (Z.to_nat (rowCounter ctx)) r0
                      ltac:(unfold poolSize in *; lia) Hr0).
      cbv beta in Hf. rewrite (Hrows _ _ Hr0) in Hf.
      destruct (Z.ltb_spec (Z.of_nat (Z.to_nat (rowCounter ctx)))
                  (rowCounter ctx)); [lia|]. discriminate.
    + exfalso. revert E. apply scan_from_in_range. lia.
    + exfalso. revert E. apply scan_not_Timeout.
  - apply scan_all_false; [lia|].
    intros j r Hj Hr. rewrite (Hrows _ _ Hr).
    destruct (Z.ltb_spec (Z.of_nat j) (rowCounter ctx)); [|unfold poolSize in *; lia].
    apply Z.eqb_neq. lia.
Qed.

Lemma rows_ok_step ctx o ctx' :
  rows_ok ctx -> step ctx o = Ok ctx' -> rows_ok ctx'.
Proof.
  intros Hok Hstep. pose proof Hok as (Hlt & Hld & Hrc & Hrows).
  destruct o as [t|t|t|t d|t rowid d]; simpl in Hstep.
  - apply Begin_inv in Hstep as (old & _ & ->).
    unfold rows_ok. cbn [trxIDs dataPool rowCounter].
    rewrite !length_insert. auto.
  - apply set_status_inv in Hstep as (old & _ & ->).
    unfold rows_ok. cbn [trxIDs dataPool rowCounter set_trxIDs].
    rewrite !length_insert. auto.
  - apply set_status_inv in Hstep as (old & _ & ->).
    unfold rows_ok. cbn [trxIDs dataPool rowCounter set_trxIDs].
    rewrite !length_insert. auto.
  - apply Insert_inv in Hstep as (ri & rec & tr & Hal & Hrec & Htr & ->).
    rewrite (rows_ok_allocteRecord _ Hok) in Hal.
    destruct (Z.ltb_spec (rowCounter ctx) (Z.of_nat poolSize)) as [Hfree|];
      [|discriminate].
    injection Hal as <-.
    assert (Hw : wrap64 (rowCounter ctx + 1) = rowCounter ctx + 1).
    { apply wrap64_small. unfold poolSize in *. lia. }
    rewrite Hw.
    unfold rows_ok. cbn [trxIDs dataPool rowCounter].
    rewrite !length_insert. split; [assumption|]. split; [assumption|].
    split; [lia|].
    intros i r Hr.
    destruct (decide (Z.to_nat (rowCounter ctx) = i)) as [<-|Hne].
    + rewrite list_lookup_insert_eq in Hr by lia. injection Hr as <-.
      cbn [rowID].
      destruct (Z.ltb_spec (Z.of_nat (Z.to_nat (rowCounter ctx)))
                  (rowCounter ctx + 1)); lia.
    + rewrite list_lookup_insert_ne in Hr by assumption.
      rewrite (Hrows _ _ Hr).
      destruct (Z.ltb_spec (Z.of_nat i) (rowCounter ctx));
        destruct (Z.ltb_spec (Z.of_nat i) (rowCounter ctx + 1)); lia.
  - apply Update_inv in Hstep
      as (ri & ui & rec & urec & tr & _ & _ & Hrec & _ & _ & ->).
    unfold rows_ok. cbn [trxIDs dataPool rowCounter].
    rewrite !length_insert. split; [assumption|]. split; [assumption|].
    split; [assumption|].
    intros i r Hr.
    destruct (decide (ri = i)) as [<-|Hne].
    + rewrite list_lookup_insert_eq in Hr by (eapply lookup_lt_Some; eauto).
      injection Hr as <-. cbn [rowID]. apply Hrows. exact Hrec.
    + rewrite list_lookup_insert_ne in Hr by assumption. apply Hrows. exact Hr.
Qed.

Lemma reachable_rows ctx : reachable ctx -> rows_ok ctx.
Proof.
  induction 1 as [|ctx o ctx' _ IH Hstep]; [apply rows_ok_init|].
  eapply rows_ok_step; eauto.
Qed.

(** X1.  Row ids are dense.  In every context a client can reach, the
    data pool has 1024 slots, [rowCounter] lies between 0 and 1024, slot
    [i] carries the row id [i + 1] when [i < rowCounter] and the row id 0
    (free) otherwise: no call ever frees or renumbers a row. *)
Theorem row_ids_are_dense ctx :
  reachable ctx ->
  0 <= rowCounter ctx <= 1024 /\
  length (dataPool ctx) = 1024%nat /\
  forall i r, dataPool ctx !! i = Some r ->
    (Z.of_nat i < rowCounter ctx -> rowID r = Z.of_nat i + 1) /\
    (rowCounter ctx <= Z.of_nat i -> rowID r = 0).
Proof.
  intros Hr. destruct (reachable_rows _ Hr) as (_ & Hld & Hrc & Hrows).
  split; [exact Hrc|]. split; [exact Hld|].
  intros i r Hi. rewrite (Hrows _ _ Hi).
  destruct (Z.ltb_spec (Z.of_nat i) (rowCounter ctx)); split; intros; lia.
Qed.

Lemma row_ids_are_dense_witness :
  reachable (ctx_after interleaved) /\
  (0 <= rowCounter (ctx_after interleaved) <= 1024 /\
   length (dataPool (ctx_after interleaved)) = 1024%nat /\
   forall i r, dataPool (ctx_after interleaved) !! i = Some r ->
     (Z.of_nat i < rowCounter (ctx_after interleaved) ->
      rowID r = Z.of_nat i + 1) /\
     (rowCounter (ctx_after interleaved) <= Z.of_nat i -> rowID r = 0)).
Proof.
  split; [exact interleaved_reachable|].
  apply (row_ids_are_dense (ctx_after interleaved)).
  exact interleaved_reachable.
Defined.

(** X2.  While fewer than 1024 rows exist, [Insert] by any slot of the
    pool succeeds: it takes the record after the last row, gives it the
    row id [rowCounter + 1], the caller's transaction id and the new data,
    and changes nothing else in the data pool, the undo pool or the
    transaction pool. *)
Theorem insert_takes_next_row ctx t tr d :
  reachable ctx -> trxIDs ctx !! t = Some tr -> rowCounter ctx < 1024 ->
  exists ctx' r,
    Insert ctx t d = Ok ctx' /\
    rowCounter ctx' = rowCounter ctx + 1 /\
    dataPool ctx' !! Z.to_nat (rowCounter ctx) = Some r /\
    rowID r = rowCounter ctx + 1 /\ rec_trxID r = trxID tr /\ data r = d /\
    (forall i, i <> Z.to_nat (rowCounter ctx) ->
       dataPool ctx' !! i = dataPool ctx !! i) /\
    undo ctx' = undo ctx /\ trxIDs ctx' = trxIDs ctx.
Proof.
  intros Hr Ht Hfree. pose proof (reachable_rows _ Hr) as Hok.
  pose proof Hok as (Hlt & Hld & Hrc & Hrows).
  assert (Hin : (Z.to_nat (rowCounter ctx) < length (dataPool ctx))%nat)
    by (unfold poolSize in *; lia).
  destruct (lookup_lt_is_Some_2 _ _ Hin) as (r0 & Hr0).
  unfold Insert. rewrite (rows_ok_allocteRecord _ Hok).
  destruct (Z.ltb_spec (rowCounter ctx) (Z.of_nat poolSize));
    [|unfold poolSize in *; lia].
  cbn [mbind outcome_bind]. unfold deref. rewrite Hr0, Ht.
  cbn [mbind outcome_bind].
  rewrite wrap64_small by (unfold poolSize in *; lia).
  eexists; eexists. split; [reflexivity|]. cbn [rowCounter dataPool undo trxIDs].
  split; [reflexivity|].
  split; [apply list_lookup_insert_eq; exact Hin|].
  cbn [rowID rec_trxID data]. repeat (split; [reflexivity|]).
  split; [|split; reflexivity].
  intros i Hi. apply list_lookup_insert_ne. congruence.
Qed.

Lemma insert_takes_next_row_witness :
  reachable (ctx_after interleaved) /\
  trxIDs (ctx_after interleaved) !! 1%nat
    = Some (slot (ctx_after interleaved) 1) /\
  rowCounter (ctx_after interleaved) < 1024 /\
  exists ctx' r,
    Insert (ctx_after interleaved) 1 (bytes "x") = Ok ctx' /\
    rowCounter ctx' = rowCounter (ctx_after interleaved) + 1 /\
    dataPool ctx' !! Z.to_nat (rowCounter (ctx_after interleaved)) = Some r /\
    rowID r = rowCounter (ctx_after interleaved) + 1 /\
    rec_trxID r = trxID (slot (ctx_after interleaved) 1) /\
    data r = bytes "x" /\
    (forall i, i <> Z.to_nat (rowCounter (ctx_after interleaved)) ->
       dataPool ctx' !! i = dataPool (ctx_after interleaved) !! i) /\
    undo ctx' = undo (ctx_after interleaved) /\
    trxIDs ctx' = trxIDs (ctx_after interleaved).
Proof.
  assert (H1 : trxIDs (ctx_after interleaved) !! 1%nat
                 = Some (slot (ctx_after interleaved) 1))
    by (vm_compute; reflexivity).
  assert (H2 : rowCounter (ctx_after interleaved) < 1024)
    by (vm_compute; reflexivity).
  split; [exact interleaved_reachable|]. split; [exact H1|].
  split; [exact H2|].
  exact (insert_takes_next_row (ctx_after interleaved) 1%nat _ (bytes "x")
           interleaved_reachable H1 H2).
Defined.

(** X3.  [findRecord] on a reachable context: a row id between 1 and
    [rowCounter] is found in slot [rowid - 1]; the row id 0 finds the
    first free slot while one is left; every other row id finds nothing
    (a nil record). *)
Theorem findRecord_by_row_id ctx rowid :
  reachable ctx ->
  findRecord ctx rowid =
    Ok (if (1 <=? rowid) && (rowid <=? rowCounter ctx)
        then Some (Z.to_nat (rowid - 1))
        else if (rowid =? 0) && (rowCounter ctx <? 1024)
        then Some (Z.to_nat (rowCounter ctx))
        else None).
Proof.
  intros Hr. pose proof (reachable_rows _ Hr) as Hok.
  pose proof Hok as (Hlt & Hld & Hrc & Hrows).
  destruct (Z.eq_dec rowid 0) as [->|Hnz].
  { replace ((1 <=? 0) && (0 <=? rowCounter ctx)) with false by reflexivity.
    replace (0 =? 0) with true by reflexivity. cbn [andb].
    exact (rows_ok_allocteRecord _ Hok). }
  replace (rowid =? 0) with false by (symmetry; apply Z.eqb_neq; exact Hnz).
  cbn [andb]. unfold findRecord. rewrite Hlt.
  destruct (Z.leb_spec 1 rowid) as [H1|H1];
    [destruct (Z.leb_spec rowid (rowCounter ctx)) as [H2|H2]|]; cbn [andb].
  - assert (Hin : (Z.to_nat (rowid - 1) < length (dataPool ctx))%nat)
      by (unfold poolSize in *; lia).
    destruct (lookup_lt_is_Some_2 _ _ Hin) as (r0 & Hr0).
    destruct (scan (fun r => rowID r =? rowid) (dataPool ctx) poolSize)
      as [[k|]| |] eqn:E.
    + pose proof E as E'. unfold scan in E'.
      apply scan_from_Some in E' as (Hk & (r & Hrk & Hp) & _).
      rewrite Nat.sub_0_r in *. apply Z.eqb_eq in Hp.
      rewrite (Hrows _ _ Hrk) in Hp.
      destruct (Z.ltb_spec (Z.of_nat k) (rowCounter ctx)); [|lia].
      do 2 f_equal. lia.
    + exfalso. unfold scan in E.
      assert (Hf := scan_from_None _ _ _ _ E (Z.to_nat (rowid - 1)) r0
                      ltac:(unfold poolSize in *; lia) Hr0).
      cbv beta in Hf. rewrite (Hrows _ _ Hr0) in Hf.
      destruct (Z.ltb_spec (Z.of_nat (Z.to_nat (rowid - 1))) (rowCounter ctx));
        [|lia]. apply Z.eqb_neq in Hf. lia.
    + exfalso. revert E. apply scan_from_in_range. lia.
    + exfalso. revert E. apply scan_not_Timeout.
  - apply scan_all_false; [lia|]. intros j r Hj Hrj. rewrite (Hrows _ _ Hrj).
    apply Z.eqb_neq. destruct (Z.ltb_spec (Z.of_nat j) (rowCounter ctx)); lia.
  - apply scan_all_false; [lia|]. intros j r Hj Hrj. rewrite (Hrows _ _ Hrj).
    apply Z.eqb_neq. destruct (Z.ltb_spec (Z.of_nat j) (rowCounter ctx)); lia.
Qed.

Lemma findRecord_by_row_id_witness :
  reachable (ctx_after interleaved) /\
  findRecord (ctx_after interleaved) 2 =
    Ok (if (1 <=? 2) && (2 <=? rowCounter (ctx_after interleaved))
        then Some (Z.to_nat (2 - 1))
        else if (2 =? 0) && (rowCounter (ctx_after interleaved) <? 1024)
        then Some (Z.to_nat (rowCounter (ctx_after interleaved)))
        else None).
Proof.
  split; [exact interleaved_reachable|].
  exact (findRecord_by_row_id (ctx_after interleaved) 2 interleaved_reachable).
Defined.

(** ** Slots of the transaction pool *)

Lemma step_trxIDs_length ctx o ctx' :
  step ctx o = Ok ctx' -> length (trxIDs ctx') = length (trxIDs ctx).
Proof.
  destruct o as [t|t|t|t d|t rowid d]; simpl; intros Hstep.
  - apply Begin_inv in Hstep as (old & _ & ->). cbn [trxIDs].
    rewrite !length_insert. reflexivity.
  - apply set_status_inv in Hstep as (old & _ & ->). cbn [trxIDs set_trxIDs].
    rewrite length_insert. reflexivity.
  - apply set_status_inv in Hstep as (old & _ & ->). cbn [trxIDs set_trxIDs].
    rewrite length_insert. reflexivity.
  - apply Insert_trxIDs in Hstep. congruence.
  - apply Update_trxIDs in Hstep. congruence.
Qed.

Lemma step_keeps_begun ctx o ctx' t tr :
  step ctx o = Ok ctx' -> trxIDs ctx !! t = Some tr -> st tr <> unused ->
  exists tr', trxIDs ctx' !! t = Some tr' /\ st tr' <> unused.
Proof.
  intros Hstep Ht Hst.
  assert (Hlt : (t < length (trxIDs ctx))%nat) by (eapply lookup_lt_Some; eauto).
  destruct o as [t0|t0|t0|t0 d|t0 rowid d]; simpl in Hstep.
  - apply Begin_inv in Hstep as (old & _ & ->). cbn [trxIDs].
    destruct (decide (t0 = t)) as [->|Hne].
    + eexists. split;
        [apply list_lookup_insert_eq; rewrite length_insert; exact Hlt|].
      discriminate.
    + exists tr. rewrite !list_lookup_insert_ne by assumption. auto.
  - apply set_status_inv in Hstep as (old & _ & ->). cbn [trxIDs set_trxIDs].
    destruct (decide (t0 = t)) as [->|Hne].
    + eexists. split; [apply list_lookup_insert_eq; exact Hlt|]. discriminate.
    + exists tr. rewrite list_lookup_insert_ne by assumption. auto.
  - apply set_status_inv in Hstep as (old & _ & ->). cbn [trxIDs set_trxIDs].
    destruct (decide (t0 = t)) as [->|Hne].
    + eexists. split; [apply list_lookup_insert_eq; exact Hlt|]. discriminate.
    + exists tr. rewrite list_lookup_insert_ne by assumption. auto.
  - apply Insert_trxIDs in Hstep. rewrite Hstep. eauto.
  - apply Update_trxIDs in Hstep. rewrite Hstep. eauto.
Qed.

Lemma run_keeps_begun ops : forall ctx ctx' t tr,
  run ctx ops = Ok ctx' -> trxIDs ctx !! t = Some tr -> st tr <> unused ->
  exists tr', trxIDs ctx' !! t = Some tr' /\ st tr' <> unused.
Proof.
  induction ops as [|o ops IH]; intros ctx ctx' t tr Hrun Ht Hst;
    simpl in Hrun.
  - injection Hrun as <-. eauto.
  - inv_bind Hrun.
    destruct (step_keeps_begun _ _ _ _ _ Ha Ht Hst) as (tr1 & Ht1 & Hst1).
    eapply IH; eauto.
Qed.

(** X4.  Nothing releases a slot of the transaction pool: once a slot's
    status is not [unused], no run of [Begin], [Commit], [Rollback],
    [Insert] and [Update] calls makes [AllocteTrx] hand that slot out
    again. *)
Theorem begun_slot_is_not_allocated_again ops ctx ctx' t tr :
  trxIDs ctx !! t = Some tr -> st tr <> unused ->
  run ctx ops = Ok ctx' ->
  AllocteTrx ctx' <> Ok (Some t).
Proof.
  intros Ht Hst Hrun Hal.
  destruct (run_keeps_begun _ _ _ _ _ Hrun Ht Hst) as (tr' & Ht' & Hst').
  unfold AllocteTrx in Hal. apply scan_Some in Hal as (_ & r & Hr & Hp).
  apply status_eqb_eq in Hp. congruence.
Qed.

Lemma begun_slot_is_not_allocated_again_witness :
  trxIDs (ctx_after [OpBegin 0%nat]) !! 0%nat
    = Some (slot (ctx_after [OpBegin 0%nat]) 0) /\
  st (slot (ctx_after [OpBegin 0%nat]) 0) <> unused /\
  run (ctx_after [OpBegin 0%nat]) [OpCommit 0%nat]
    = Ok (ctx_after [OpBegin 0%nat; OpCommit 0%nat]) /\
  AllocteTrx (ctx_after [OpBegin 0%nat; OpCommit 0%nat]) <> Ok (Some 0%nat).
Proof.
  assert (H1 : trxIDs (ctx_after [OpBegin 0%nat]) !! 0%nat
                 = Some (slot (ctx_after [OpBegin 0%nat]) 0))
    by (vm_compute; reflexivity).
  assert (H2 : st (slot (ctx_after [OpBegin 0%nat]) 0) <> unused)
    by (vm_compute; discriminate).
  assert (H3 : run (ctx_after [OpBegin 0%nat]) [OpCommit 0%nat]
                 = Ok (ctx_after [OpBegin 0%nat; OpCommit 0%nat]))
    by (vm_compute; reflexivity).
  repeat (split; [assumption|]).
  exact (begun_slot_is_not_allocated_again [OpCommit 0%nat] _ _ 0%nat _
           H1 H2 H3).
Defined.

(** X5.  [AllocteTrx] never fails; it returns the lowest slot whose
    status is [unused], and nil exactly when no slot is unused. *)
Theorem AllocteTrx_lowest_unused ctx :
  match AllocteTrx ctx with
  | Ok (Some k) =>
      (exists tr, trxIDs ctx !! k = Some tr /\ st tr = unused) /\
      (forall j tr, (j < k)%nat -> trxIDs ctx !! j = Some tr ->
                    st tr <> unused)
  | Ok None => forall j tr, trxIDs ctx !! j = Some tr -> st tr <> unused
  | Fault | Timeout => False
  end.
Proof.
  unfold AllocteTrx, scan.
  destruct (scan_from (fun t => status_eqb (st t) unused) (trxIDs ctx) 0
              (length (trxIDs ctx))) as [[k|]| |] eqn:E.
  - apply scan_from_Some in E as (_ & (r & Hr & Hp) & Hbefore).
    rewrite Nat.sub_0_r in *. split.
    + exists r. split; [exact Hr|]. apply status_eqb_eq. exact Hp.
    + intros j tr Hj Hjr Hun.
      assert (Hf := Hbefore j tr ltac:(lia) Hjr). cbv beta in Hf.
      apply status_eqb_eq in Hun. congruence.
  - intros j tr Hj Hun.
    assert (Hf := scan_from_None _ _ _ _ E j tr
                    ltac:(eapply lookup_lt_Some; eauto) Hj).
    cbv beta in Hf. apply status_eqb_eq in Hun. congruence.
  - revert E. apply scan_from_in_range. lia.
  - revert E. apply scan_not_Timeout.
Qed.

(** ** Transaction ids *)

Lemma step_ids ctx o ctx' :
  ids_bounded ctx -> ids_unique ctx -> trxCounter ctx + 1 < 2^63 ->
  step ctx o = Ok ctx' ->
  ids_bounded ctx' /\ ids_unique ctx' /\
  trxCounter ctx' = trxCounter ctx + (if is_begin o then 1 else 0).
Proof.
  intros [Hc Hb] Hu Hsmall Hstep.
  destruct o as [t0|t0|t0|t0 d|t0 rowid d]; simpl in Hstep; cbn [is_begin].
  - apply Begin_inv in Hstep as (old & Hold & ->). cbn zeta.
    rewrite wrap64_small by lia.
    set (c := trxCounter ctx + 1).
    assert (Hlt : (t0 < length (trxIDs ctx))%nat)
      by (eapply lookup_lt_Some; eauto).
    assert (Hslot : forall t tr v,
      <[t0 := mkTrx c uncommit v]>
        (<[t0 := mkTrx c uncommit (view old)]> (trxIDs ctx)) !! t = Some tr ->
      (t = t0 /\ trxID tr = c) \/
      (t <> t0 /\ trxIDs ctx !! t = Some tr)).
    { intros t tr v Ht. destruct (decide (t0 = t)) as [<-|Hne].
      - rewrite list_lookup_insert_eq in Ht by (rewrite length_insert; exact Hlt).
        injection Ht as <-. left. auto.
      - rewrite !list_lookup_insert_ne in Ht by assumption. right. auto. }
    unfold ids_bounded, ids_unique. cbn [trxIDs trxCounter].
    split; [|split; [|reflexivity]].
    + split; [lia|]. intros t tr Ht.
      apply Hslot in Ht as [[_ ->]|[_ Ht]]; [lia|].
      specialize (Hb _ _ Ht). lia.
    + intros t1 t2 tr1 tr2 H1 H2 Hne Hnz.
      apply Hslot in H1 as [[-> E1]|[N1 H1]];
        apply Hslot in H2 as [[-> E2]|[N2 H2]].
      * congruence.
      * specialize (Hb _ _ H2). lia.
      * specialize (Hb _ _ H1). lia.
      * eapply Hu; eauto.
  - apply set_status_inv in Hstep as (old & Hold & ->).
    assert (Hlt : (t0 < length (trxIDs ctx))%nat)
      by (eapply lookup_lt_Some; eauto).
    assert (Hslot : forall t tr s,
      <[t0 := mkTrx (trxID old) s (view old)]> (trxIDs ctx) !! t = Some tr ->
      exists tr0, trxIDs ctx !! t = Some tr0 /\ trxID tr = trxID tr0).
    { intros t tr s Ht. destruct (decide (t0 = t)) as [<-|Hne].
      - rewrite list_lookup_insert_eq in Ht by exact Hlt.
        injection Ht as <-. eauto.
      - rewrite list_lookup_insert_ne in Ht by assumption. eauto. }
    unfold ids_bounded, ids_unique. cbn [trxIDs trxCounter set_trxIDs].
    split; [|split; [|lia]].
    + split; [lia|]. intros t tr Ht.
      apply Hslot in Ht as (tr0 & Ht & ->). eauto.
    + intros t1 t2 tr1 tr2 H1 H2 Hne.
      apply Hslot in H1 as (a1 & H1 & ->). apply Hslot in H2 as (a2 & H2 & ->).
      eapply Hu; eauto.
  - apply set_status_inv in Hstep as (old & Hold & ->).
    assert (Hlt : (t0 < length (trxIDs ctx))%nat)
      by (eapply lookup_lt_Some; eauto).
    assert (Hslot : forall t tr s,
      <[t0 := mkTrx (trxID old) s (view old)]> (trxIDs ctx) !! t = Some tr ->
      exists tr0, trxIDs ctx !! t = Some tr0 /\ trxID tr = trxID tr0).
    { intros t tr s Ht. destruct (decide (t0 = t)) as [<-|Hne].
      - rewrite list_lookup_insert_eq in Ht by exact Hlt.
        injection Ht as <-. eauto.
      - rewrite list_lookup_insert_ne in Ht by assumption. eauto. }
    unfold ids_bounded, ids_unique. cbn [trxIDs trxCounter set_trxIDs].
    split; [|split; [|lia]].
    + split; [lia|]. intros t tr Ht.
      apply Hslot in Ht as (tr0 & Ht & ->). eauto.
    + intros t1 t2 tr1 tr2 H1 H2 Hne.
      apply Hslot in H1 as (a1 & H1 & ->). apply Hslot in H2 as (a2 & H2 & ->).
      eapply Hu; eauto.
  - apply Insert_inv in Hstep as (ri & rec & tr & _ & _ & _ & ->).
    unfold ids_bounded, ids_unique. cbn [trxIDs trxCounter].
    split; [split; assumption|]. split; [assumption|lia].
  - apply Update_inv in Hstep as (ri & ui & rec & urec & tr & _ & _ & _ & _ & _ & ->).
    unfold ids_bounded, ids_unique. cbn [trxIDs trxCounter].
    split; [split; assumption|]. split; [assumption|lia].
Qed.

Lemma begins_cons o ops :
  Z.of_nat (begins (o :: ops))
  = (if is_begin o then 1 else 0) + Z.of_nat (begins ops).
Proof.
  unfold begins. simpl. destruct (is_begin o); simpl length; lia.
Qed.

Lemma begins_le ops : (begins ops <= length ops)%nat.
Proof. unfold begins. apply List.filter_length_le. Qed.

Lemma run_ids ops : forall ctx ctx',
  ids_bounded ctx -> ids_unique ctx ->
  trxCounter ctx + Z.of_nat (length ops) < 2^63 ->
  run ctx ops = Ok ctx' ->
  ids_bounded ctx' /\ ids_unique ctx' /\
  trxCounter ctx' = trxCounter ctx + Z.of_nat (begins ops).
Proof.
  induction ops as [|o ops IH]; intros ctx ctx' Hb Hu Hsmall Hrun;
    simpl in Hrun.
  - injection Hrun as <-. unfold begins. simpl. split; [assumption|].
    split; [assumption|lia].
  - inv_bind Hrun. simpl length in Hsmall.
    destruct (step_ids _ _ _ Hb Hu ltac:(lia) Ha) as (Hb1 & Hu1 & Hc1).
    destruct (IH a ctx' Hb1 Hu1) as (Hb2 & Hu2 & Hc2);
      [destruct (is_begin o); lia|exact Hrun|].
    split; [assumption|]. split; [assumption|].
    rewrite begins_cons. lia.
Qed.

Lemma ids_init : ids_bounded CreateTrxContext /\ ids_unique CreateTrxContext.
Proof.
  unfold ids_bounded, ids_unique, CreateTrxContext. cbn [trxIDs trxCounter].
  split; [split; [lia|]|].
  - intros t tr Ht.
    apply list_elem_of_lookup_2, list_elem_of_In, repeat_spec in Ht.
    subst tr. simpl. lia.
  - intros t1 t2 tr1 tr2 H1 _ _.
    apply list_elem_of_lookup_2, list_elem_of_In, repeat_spec in H1.
    subst tr1. simpl. congruence.
Qed.

(** X6.  From a fresh context, [trxCounter] equals the number of [Begin]
    calls made so far (for any run shorter than 2^63 calls), and every
    transaction id in the pool lies between 0 and [trxCounter]. *)
Theorem trxCounter_counts_begins ops ctx :
  run CreateTrxContext ops = Ok ctx -> Z.of_nat (length ops) < 2^63 ->
  trxCounter ctx = Z.of_nat (begins ops) /\
  forall t tr, trxIDs ctx !! t = Some tr -> 0 <= trxID tr <= trxCounter ctx.
Proof.
  intros Hrun Hlen. destruct ids_init as [Hb Hu].
  destruct (run_ids ops _ _ Hb Hu ltac:(simpl; lia) Hrun)
    as ((_ & Hb') & _ & Hc).
  split; [exact Hc|exact Hb'].
Qed.

Lemma trxCounter_counts_begins_witness :
  run CreateTrxContext interleaved = Ok (ctx_after interleaved) /\
  Z.of_nat (length interleaved) < 2^63 /\
  trxCounter (ctx_after interleaved) = Z.of_nat (begins interleaved) /\
  forall t tr, trxIDs (ctx_after interleaved) !! t = Some tr ->
               0 <= trxID tr <= trxCounter (ctx_after interleaved).
Proof.
  assert (H1 : run CreateTrxContext interleaved = Ok (ctx_after interleaved))
    by (vm_compute; reflexivity).
  assert (H2 : Z.of_nat (length interleaved) < 2^63)
    by (vm_compute; reflexivity).
  split; [exact H1|]. split; [exact H2|].
  exact (trxCounter_counts_begins interleaved _ H1 H2).
Defined.

(** X7.  From a fresh context and for any run shorter than 2^63 calls,
    no two slots of the transaction pool carry the same nonzero id: every
    [Begin] hands out an id that no other slot holds. *)
Theorem begun_ids_are_distinct ops ctx t1 t2 tr1 tr2 :
  run CreateTrxContext ops = Ok ctx -> Z.of_nat (length ops) < 2^63 ->
  trxIDs ctx !! t1 = Some tr1 -> trxIDs ctx !! t2 = Some tr2 ->
  t1 <> t2 -> trxID tr1 <> 0 -> trxID tr1 <> trxID tr2.
Proof.
  intros Hrun Hlen H1 H2 Hne Hnz. destruct ids_init as [Hb Hu].
  destruct (run_ids ops _ _ Hb Hu ltac:(simpl; lia) Hrun) as (_ & Hu' & _).
  eapply Hu'; eauto.
Qed.

Lemma begun_ids_are_distinct_witness :
  run CreateTrxContext interleaved = Ok (ctx_after interleaved) /\
  Z.of_nat (length interleaved) < 2^63 /\
  trxIDs (ctx_after interleaved) !! 1%nat
    = Some (slot (ctx_after interleaved) 1) /\
  trxIDs (ctx_after interleaved) !! 2%nat
    = Some (slot (ctx_after interleaved) 2) /\
  1%nat <> 2%nat /\
  trxID (slot (ctx_after interleaved) 1) <> 0 /\
  trxID (slot (ctx_after interleaved) 1)
    <> trxID (slot (ctx_after interleaved) 2).
Proof.
  assert (H1 : run CreateTrxContext interleaved = Ok (ctx_after interleaved))
    by (vm_compute; reflexivity).
  assert (H2 : Z.of_nat (length interleaved) < 2^63)
    by (vm_compute; reflexivity).
  assert (H3 : trxIDs (ctx_after interleaved) !! 1%nat
                 = Some (slot (ctx_after interleaved) 1))
    by (vm_compute; reflexivity).
  assert (H4 : trxIDs (ctx_after interleaved) !! 2%nat
                 = Some (slot (ctx_after interleaved) 2))
    by (vm_compute; reflexivity).
  assert (H5 : 1%nat <> 2%nat) by lia.
  assert (H6 : trxID (slot (ctx_after interleaved) 1) <> 0)
    by (vm_compute; discriminate).
  repeat (split; [assumption|]).
  exact (begun_ids_are_distinct interleaved _ 1%nat 2%nat _ _
           H1 H2 H3 H4 H5 H6).
Defined.

(** ** Update and the undo chain *)

(** X8.  [Update] keeps the version it replaces at the head of the
    record's undo chain: after [Update] the record carries the updater's
    id and the new data under the same row id, and [selectRollback] for
    any reader whose [check] accepts the replaced version's writer yields
    the replaced data. *)
Theorem update_keeps_prior_version ctx t rowid d ctx' ri rec reader fuel :
  Update ctx t rowid d = Ok ctx' ->
  findRecord ctx rowid = Ok (Some ri) ->
  dataPool ctx !! ri = Some rec ->
  check reader (rec_trxID rec) = Ok true ->
  exists rec',
    dataPool ctx' !! ri = Some rec' /\
    rowID rec' = rowID rec /\ rec_trxID rec' = trxID (slot ctx t) /\
    data rec' = d /\
    selectRollback (S fuel) ctx' reader rec' = Ok (Some (data rec)).
Proof.
  intros HU Hf Hrec Hvis.
  apply Update_inv in HU
    as (ri' & ui & rec0 & urec & tr & Hf' & _ & Hrec' & Hu & Ht & ->).
  rewrite Hf in Hf'. injection Hf' as <-.
  rewrite Hrec in Hrec'. injection Hrec' as <-.
  eexists. cbn [dataPool]. split.
  { apply list_lookup_insert_eq. eapply lookup_lt_Some; eauto. }
  cbn [rowID rec_trxID data]. split; [reflexivity|].
  split; [unfold slot; rewrite Ht; reflexivity|]. split; [reflexivity|].
  unfold selectRollback. cbn [rollPtr undo walk]. unfold deref.
  rewrite list_lookup_insert_eq by (eapply lookup_lt_Some; eauto).
  cbn [mbind outcome_bind rec_trxID]. rewrite Hvis. reflexivity.
Qed.

Lemma update_keeps_prior_version_witness :
  Update (ctx_after two_readers) 2 1 (bytes "trx3-data0")
    = Ok (ctx_after (two_readers ++ [OpUpdate 2%nat 1 (bytes "trx3-data0")])) /\
  findRecord (ctx_after two_readers) 1 = Ok (Some 0%nat) /\
  dataPool (ctx_after two_readers) !! 0%nat
    = Some (mkRecord 1 1 None (bytes "trx1-data1")) /\
  check (slot (ctx_after two_readers) 1)
        (rec_trxID (mkRecord 1 1 None (bytes "trx1-data1"))) = Ok true /\
  exists rec',
    dataPool (ctx_after (two_readers ++ [OpUpdate 2%nat 1 (bytes "trx3-data0")]))
      !! 0%nat = Some rec' /\
    rowID rec' = rowID (mkRecord 1 1 None (bytes "trx1-data1")) /\
    rec_trxID rec' = trxID (slot (ctx_after two_readers) 2) /\
    data rec' = bytes "trx3-data0" /\
    selectRollback 1
      (ctx_after (two_readers ++ [OpUpdate 2%nat 1 (bytes "trx3-data0")]))
      (slot (ctx_after two_readers) 1) rec'
      = Ok (Some (data (mkRecord 1 1 None (bytes "trx1-data1")))).
Proof.
  assert (H1 : Update (ctx_after two_readers) 2 1 (bytes "trx3-data0")
    = Ok (ctx_after (two_readers ++ [OpUpdate 2%nat 1 (bytes "trx3-data0")])))
    by (vm_compute; reflexivity).
  assert (H2 : findRecord (ctx_after two_readers) 1 = Ok (Some 0%nat))
    by (vm_compute; reflexivity).
  assert (H3 : dataPool (ctx_after two_readers) !! 0%nat
    = Some (mkRecord 1 1 None (bytes "trx1-data1")))
    by (vm_compute; reflexivity).
  assert (H4 : check (slot (ctx_after two_readers) 1)
        (rec_trxID (mkRecord 1 1 None (bytes "trx1-data1"))) = Ok true)
    by (vm_compute; reflexivity).
  repeat (split; [assumption|]).
  exact (update_keeps_prior_version (ctx_after two_readers) 2%nat 1
           (bytes "trx3-data0") _ 0%nat _ (slot (ctx_after two_readers) 1)
           0%nat H1 H2 H3 H4).
Defined.

(** ** Select *)

Lemma select_rows_own fuel ctx tr r : forall rows out,
  select_rows fuel ctx tr rows = Ok out ->
  In r rows -> rowID r > 0 -> rec_trxID r = trxID tr ->
  In (Some (rowID r), data r) out.
Proof.
  induction rows as [|x rows IH]; intros out Hsel Hin Hpos Hown;
    [contradiction|].
  simpl in Hsel. destruct Hin as [->|Hin].
  - destruct (Z.gtb_spec (rowID r) 0) as [_|]; [|lia].
    unfold check in Hsel. rewrite Hown, Z.eqb_refl in Hsel.
    cbn [mbind outcome_bind] in Hsel. inv_bind Hsel. injection Hsel as <-.
    left. reflexivity.
  - destruct (rowID x >? 0).
    + inv_bind Hsel. destruct a.
      * inv_bind Hsel. injection Hsel as <-. right. eapply IH; eauto.
      * inv_bind Hsel. inv_bind Hsel. injection Hsel as <-.
        destruct a; [right|]; eapply IH; eauto.
    + eapply IH; eauto.
Qed.

(** X9.  Own writes are always shown: when [Select] returns, every live
    record of the data pool whose writer id is the selecting transaction's
    own id is in the output, with its row id and its current data. *)
Theorem select_shows_own_rows fuel ctx t tr out i r :
  Select fuel ctx t = Ok out -> trxIDs ctx !! t = Some tr ->
  dataPool ctx !! i = Some r -> rowID r > 0 -> rec_trxID r = trxID tr ->
  In (Some (rowID r), data r) out.
Proof.
  unfold Select, deref. intros Hsel Ht Hi. rewrite Ht in Hsel.
  cbn [mbind outcome_bind] in Hsel. eapply select_rows_own; eauto.
  apply list_elem_of_In. eapply list_elem_of_lookup_2; eauto.
Qed.

Lemma select_shows_own_rows_witness :
  Select 8 (ctx_after interleaved) 2
    = Ok [(Some 1, bytes "trx3-data0"); (Some 3, bytes "trx3-data1")] /\
  trxIDs (ctx_after interleaved) !! 2%nat
    = Some (slot (ctx_after interleaved) 2) /\
  dataPool (ctx_after interleaved) !! 2%nat
    = Some (mkRecord 3 3 None (bytes "trx3-data1")) /\
  rowID (mkRecord 3 3 None (bytes "trx3-data1")) > 0 /\
  rec_trxID (mkRecord 3 3 None (bytes "trx3-data1"))
    = trxID (slot (ctx_after interleaved) 2) /\
  In (Some (rowID (mkRecord 3 3 None (bytes "trx3-data1"))),
      data (mkRecord 3 3 None (bytes "trx3-data1")))
     [(Some 1, bytes "trx3-data0"); (Some 3, bytes "trx3-data1")].
Proof.
  assert (H1 : Select 8 (ctx_after interleaved) 2
    = Ok [(Some 1, bytes "trx3-data0"); (Some 3, bytes "trx3-data1")])
    by (vm_compute; reflexivity).
  assert (H2 : trxIDs (ctx_after interleaved) !! 2%nat
    = Some (slot (ctx_after interleaved) 2)) by (vm_compute; reflexivity).
  assert (H3 : dataPool (ctx_after interleaved) !! 2%nat
    = Some (mkRecord 3 3 None (bytes "trx3-data1")))
    by (vm_compute; reflexivity).
  assert (H4 : rowID (mkRecord 3 3 None (bytes "trx3-data1")) > 0)
    by (vm_compute; reflexivity).
  assert (H5 : rec_trxID (mkRecord 3 3 None (bytes "trx3-data1"))
    = trxID (slot (ctx_after interleaved) 2)) by (vm_compute; reflexivity).
  repeat (split; [assumption|]).
  exact (select_shows_own_rows 8 (ctx_after interleaved) 2%nat _ _ 2%nat _
           H1 H2 H3 H4 H5).
Defined.

Lemma select_rows_sound fuel ctx tr : forall rows out id d,
  select_rows fuel ctx tr rows = Ok out ->
  In (Some id, d) out ->
  exists r, In r rows /\ rowID r = id /\ id > 0 /\ data r = d /\
            check tr (rec_trxID r) = Ok true.
Proof.
  induction rows as [|x rows IH]; intros out id d Hsel Hin; simpl in Hsel.
  - injection Hsel as <-. contradiction.
  - destruct (Z.gtb_spec (rowID x) 0) as [Hpos|Hnp].
    + inv_bind Hsel. destruct a.
      * inv_bind Hsel. injection Hsel as <-. destruct Hin as [Heq|Hin].
        -- injection Heq as <- <-. exists x. repeat split; auto. left; auto.
           lia.
        -- destruct (IH _ _ _ Ha0 Hin) as (r & Hr & H). exists r.
           split; [right; exact Hr|exact H].
      * inv_bind Hsel. inv_bind Hsel. injection Hsel as <-.
        assert (Hin' : In (Some id, d) a0).
        { destruct a; [|exact Hin]. destruct Hin as [Heq|Hin];
            [discriminate|exact Hin]. }
        destruct (IH _ _ _ Ha1 Hin') as (r & Hr & H). exists r.
        split; [right; exact Hr|exact H].
    + destruct (IH _ _ _ Hsel Hin) as (r & Hr & H). exists r.
      split; [right; exact Hr|exact H].
Qed.

(** X10.  [Select] prints a row with its id only for a live record whose
    current writer passes [check]: every output entry that carries a row
    id is the id and data of a record of the data pool with a positive row
    id for which [check] returns true. *)
Theorem select_rows_are_visible fuel ctx t tr out id d :
  Select fuel ctx t = Ok out -> trxIDs ctx !! t = Some tr ->
  In (Some id, d) out ->
  exists i r, dataPool ctx !! i = Some r /\ rowID r = id /\ id > 0 /\
              data r = d /\ check tr (rec_trxID r) = Ok true.
Proof.
  unfold Select, deref. intros Hsel Ht Hin. rewrite Ht in Hsel.
  cbn [mbind outcome_bind] in Hsel.
  destruct (select_rows_sound _ _ _ _ _ _ _ Hsel Hin) as (r & Hr & H).
  apply list_elem_of_In, list_elem_of_lookup in Hr as (i & Hi).
  exists i, r. split; [exact Hi|exact H].
Qed.

Lemma select_rows_are_visible_witness :
  Select 8 (ctx_after interleaved) 1
    = Ok [(None, bytes "trx1-data1"); (Some 2, bytes "trx2-data1")] /\
  trxIDs (ctx_after interleaved) !! 1%nat
    = Some (slot (ctx_after interleaved) 1) /\
  In (Some 2, bytes "trx2-data1")
     [(None, bytes "trx1-data1"); (Some 2, bytes "trx2-data1")] /\
  exists i r, dataPool (ctx_after interleaved) !! i = Some r /\
              rowID r = 2 /\ 2 > 0 /\ data r = bytes "trx2-data1" /\
              check (slot (ctx_after interleaved) 1) (rec_trxID r) = Ok true.
Proof.
  assert (H1 : Select 8 (ctx_after interleaved) 1
    = Ok [(None, bytes "trx1-data1"); (Some 2, bytes "trx2-data1")])
    by (vm_compute; reflexivity).
  assert (H2 : trxIDs (ctx_after interleaved) !! 1%nat
    = Some (slot (ctx_after interleaved) 1)) by (vm_compute; reflexivity).
  assert (H3 : In (Some 2, bytes "trx2-data1")
     [(None, bytes "trx1-data1"); (Some 2, bytes "trx2-data1")])
    by (right; left; reflexivity).
  repeat (split; [assumption|]).
  exact (select_rows_are_visible 8 (ctx_after interleaved) 1%nat _ _ _ _
           H1 H2 H3).
Defined.

Lemma select_rows_no_view fuel ctx tr r : forall rows,
  view tr = None ->
  In r rows -> rowID r > 0 -> rec_trxID r <> trxID tr ->
  select_rows fuel ctx tr rows = Fault.
Proof.
  intros rows Hv. induction rows as [|x rows IH]; intros Hin Hpos Hne;
    [contradiction|].
  simpl.
  assert (Hchk : forall w, check tr w = Ok true \/ check tr w = Fault).
  { intros w. unfold check. rewrite Hv. destruct (trxID tr =? w); auto. }
  destruct Hin as [->|Hin].
  - destruct (Z.gtb_spec (rowID r) 0) as [_|]; [|lia].
    unfold check. rewrite Hv.
    destruct (Z.eqb_spec (trxID tr) (rec_trxID r)); [congruence|].
    reflexivity.
  - specialize (IH Hin Hpos Hne).
    destruct (rowID x >? 0); [|exact IH].
    destruct (Hchk (rec_trxID x)) as [-> | ->]; [|reflexivity].
    cbn [mbind outcome_bind]. rewrite IH. reflexivity.
Qed.

(** X11.  A transaction that was never begun has no read view, and
    [check] dereferences the view for every writer id but its own: its
    [Select] faults as soon as the data pool holds one live record written
    under another id. *)
Theorem select_without_view_faults fuel ctx t tr i r :
  trxIDs ctx !! t = Some tr -> view tr = None ->
  dataPool ctx !! i = Some r -> rowID r > 0 -> rec_trxID r <> trxID tr ->
  Select fuel ctx t = Fault.
Proof.
  intros Ht Hv Hi Hpos Hne. unfold Select, deref. rewrite Ht.
  cbn [mbind outcome_bind]. eapply select_rows_no_view; eauto.
  apply list_elem_of_In. eapply list_elem_of_lookup_2; eauto.
Qed.

Lemma select_without_view_faults_witness :
  trxIDs (ctx_after updated_once) !! 1%nat = Some (mkTrx 0 unused None) /\
  view (mkTrx 0 unused None) = None /\
  dataPool (ctx_after updated_once) !! 0%nat
    = Some (mkRecord 1 1 (Some 0%nat) (bytes "v1")) /\
  rowID (mkRecord 1 1 (Some 0%nat) (bytes "v1")) > 0 /\
  rec_trxID (mkRecord 1 1 (Some 0%nat) (bytes "v1"))
    <> trxID (mkTrx 0 unused None) /\
  Select 8 (ctx_after updated_once) 1 = Fault.
Proof.
  assert (H1 : trxIDs (ctx_after updated_once) !! 1%nat
                 = Some (mkTrx 0 unused None)) by (vm_compute; reflexivity).
  assert (H2 : view (mkTrx 0 unused None) = None) by reflexivity.
  assert (H3 : dataPool (ctx_after updated_once) !! 0%nat
    = Some (mkRecord 1 1 (Some 0%nat) (bytes "v1")))
    by (vm_compute; reflexivity).
  assert (H4 : rowID (mkRecord 1 1 (Some 0%nat) (bytes "v1")) > 0)
    by (vm_compute; reflexivity).
  assert (H5 : rec_trxID (mkRecord 1 1 (Some 0%nat) (bytes "v1"))
                 <> trxID (mkTrx 0 unused None)) by (simpl; lia).
  repeat (split; [assumption|]).
  exact (select_without_view_faults 8 (ctx_after updated_once) 1%nat _
           0%nat _ H1 H2 H3 H4 H5).
Defined.

Lemma select_rows_undo fuel c1 c2 tr rows :
  undo c1 = undo c2 ->
  select_rows fuel c1 tr rows = select_rows fuel c2 tr rows.
Proof.
  intros Hu. induction rows as [|x rows IH]; [reflexivity|].
  simpl. unfold selectRollback. rewrite Hu, IH. reflexivity.
Qed.

(** X12.  [Commit] and [Rollback] change a status and nothing else: the
    data pool, the undo pool and both counters stay as they were (a
    rollback does not take back the transaction's writes), and [Select]
    returns the same rows as before for every transaction. *)
Theorem commit_and_rollback_keep_selects ctx t ctx' fuel t' :
  Commit ctx t = Ok ctx' \/ Rollback ctx t = Ok ctx' ->
  dataPool ctx' = dataPool ctx /\ undo ctx' = undo ctx /\
  rowCounter ctx' = rowCounter ctx /\ trxCounter ctx' = trxCounter ctx /\
  Select fuel ctx' t' = Select fuel ctx t'.
Proof.
  intros H.
  assert (Hs : exists s, set_status ctx t s = Ok ctx').
  { destruct H as [H|H]; eexists; exact H. }
  destruct Hs as (s & Hs). clear H.
  apply set_status_inv in Hs as (old & Hold & ->).
  cbn [set_trxIDs dataPool undo rowCounter trxCounter].
  repeat (split; [reflexivity|]).
  unfold Select, deref. cbn [trxIDs dataPool set_trxIDs].
  assert (Hlt : (t < length (trxIDs ctx))%nat)
    by (eapply lookup_lt_Some; eauto).
  destruct (decide (t = t')) as [<-|Hne].
  - rewrite list_lookup_insert_eq by exact Hlt. rewrite Hold.
    cbn [mbind outcome_bind].
    transitivity (select_rows fuel ctx (mkTrx (trxID old) s (view old))
                    (dataPool ctx)).
    { apply select_rows_undo. reflexivity. }
    generalize (dataPool ctx). intros rows.
    induction rows as [|x rows IH]; [reflexivity|].
    simpl. rewrite IH.
    replace (check (mkTrx (trxID old) s (view old)) (rec_trxID x))
      with (check old (rec_trxID x)) by reflexivity.
    destruct (rowID x >? 0); [|reflexivity].
    destruct (check old (rec_trxID x)) as [[|]| |]; cbn [mbind outcome_bind];
      try reflexivity.
    replace (selectRollback fuel ctx (mkTrx (trxID old) s (view old)) x)
      with (selectRollback fuel ctx old x); [reflexivity|].
    unfold selectRollback. generalize (rollPtr x). clear.
    induction fuel as [|fuel IHf]; intros p; destruct p; try reflexivity.
    simpl. destruct (deref (undo ctx) n); cbn [mbind outcome_bind];
      try reflexivity.
    replace (check (mkTrx (trxID old) s (view old)) (rec_trxID a))
      with (check old (rec_trxID a)) by reflexivity.
    destruct (check old (rec_trxID a)) as [[|]| |]; cbn [mbind outcome_bind];
      try reflexivity. apply IHf.
  - rewrite list_lookup_insert_ne by assumption.
    destruct (trxIDs ctx !! t'); cbn [mbind outcome_bind]; [|reflexivity].
    apply select_rows_undo. reflexivity.
Qed.

Lemma commit_and_rollback_keep_selects_witness :
  (Commit (ctx_after interleaved) 2 = Ok (ctx_after (interleaved ++ [OpCommit 2%nat])) \/
   Rollback (ctx_after interleaved) 2 = Ok (ctx_after (interleaved ++ [OpCommit 2%nat]))) /\
  dataPool (ctx_after (interleaved ++ [OpCommit 2%nat]))
    = dataPool (ctx_after interleaved) /\
  undo (ctx_after (interleaved ++ [OpCommit 2%nat]))
    = undo (ctx_after interleaved) /\
  rowCounter (ctx_after (interleaved ++ [OpCommit 2%nat]))
    = rowCounter (ctx_after interleaved) /\
  trxCounter (ctx_after (interleaved ++ [OpCommit 2%nat]))
    = trxCounter (ctx_after interleaved) /\
  Select 8 (ctx_after (interleaved ++ [OpCommit 2%nat])) 1
    = Select 8 (ctx_after interleaved) 1.
Proof.
  assert (H : Commit (ctx_after interleaved) 2
                = Ok (ctx_after (interleaved ++ [OpCommit 2%nat])) \/
              Rollback (ctx_after interleaved) 2
                = Ok (ctx_after (interleaved ++ [OpCommit 2%nat])))
    by (left; vm_compute; reflexivity).
  split; [exact H|].
  exact (commit_and_rollback_keep_selects (ctx_after interleaved) 2%nat _
           8%nat 1%nat H).
Defined.

End MvccSpec.

(** * Facts about the B+ tree *)

Module BtreeSpec.
Import Btree.

(** ** Bytes and words *)

Lemma Z_of_byte_of_Z z : Z_of_byte (byte_of_Z z) = z mod 256.
Proof.
  unfold Z_of_byte, byte_of_Z.
  assert (H : 0 <= z mod 256 < 256) by (apply Z.mod_pos_bound; lia).
  destruct (Byte.of_N (Z.to_N (z mod 256))) as [b|] eqn:E.
  - apply Byte.to_of_N in E. rewrite E. lia.
  - apply Byte.of_N_None_iff in E. lia.
Qed.

Lemma Z_of_byte_range b : 0 <= Z_of_byte b < 256.
Proof.
  unfold Z_of_byte. pose proof (Byte.to_N_bounded b). lia.
Qed.

Lemma testbit_Z_of_byte_high b n : 8 <= n -> Z.testbit (Z_of_byte b) n = false.
Proof.
  intros Hn. pose proof (Z_of_byte_range b) as [H0 H1].
  destruct (Z.eq_dec (Z_of_byte b) 0) as [->|Hne]; [apply Z.testbit_0_l|].
  apply Z.bits_above_log2; [lia|].
  assert (Z.log2 (Z_of_byte b) < 8); [|lia].
  apply Z.log2_lt_pow2; lia.
Qed.

Lemma testbit_byte_of_Z z n :
  Z.testbit (Z_of_byte (byte_of_Z z)) n
  = if (0 <=? n) && (n <? 8) then Z.testbit z n else false.
Proof.
  destruct (Z.leb_spec 0 n) as [Hn|Hn]; simpl.
  - rewrite Z_of_byte_of_Z. change 256 with (2^8).
    rewrite Z.testbit_mod_pow2 by lia.
    destruct (n <? 8); reflexivity.
  - apply Z.testbit_neg_r. lia.
Qed.

Ltac decide_tests :=
  repeat match goal with
    | |- context [?a <=? ?b] =>
        destruct (Z.leb_spec a b); try lia
    | |- context [?a <? ?b] =>
        destruct (Z.ltb_spec a b); try lia
    end.

Lemma Uint32_PutUint32 v rest : Uint32 (PutUint32 v ++ rest) = Ok (v mod 2^32).
Proof.
  unfold PutUint32, Uint32. cbn [app]. f_equal.
  apply Z.bits_inj'. intros n Hn.
  rewrite Z.testbit_mod_pow2 by lia.
  rewrite !Z.lor_spec, !Z.shiftl_spec by lia.
  rewrite !testbit_byte_of_Z.
  destruct (Z.ltb_spec n 8); [|
  destruct (Z.ltb_spec n 16); [|
  destruct (Z.ltb_spec n 24); [|
  destruct (Z.ltb_spec n 32)]]];
  decide_tests; cbn [andb orb];
  rewrite ?Z.shiftr_spec by lia; rewrite ?orb_false_r;
  try reflexivity; f_equal; lia.
Qed.

Lemma Uint64_PutUint64 v rest : Uint64 (PutUint64 v ++ rest) = Ok (v mod 2^64).
Proof.
  unfold PutUint64, Uint64. cbn [app]. f_equal.
  apply Z.bits_inj'. intros n Hn.
  rewrite Z.testbit_mod_pow2 by lia.
  rewrite !Z.lor_spec, !Z.shiftl_spec by lia.
  rewrite !testbit_byte_of_Z.
  destruct (Z.ltb_spec n 8); [|
  destruct (Z.ltb_spec n 16); [|
  destruct (Z.ltb_spec n 24); [|
  destruct (Z.ltb_spec n 32); [|
  destruct (Z.ltb_spec n 40); [|
  destruct (Z.ltb_spec n 48); [|
  destruct (Z.ltb_spec n 56); [|
  destruct (Z.ltb_spec n 64)]]]]]]];
  decide_tests; cbn [andb orb];
  rewrite ?Z.shiftr_spec by lia; rewrite ?orb_false_r;
  try reflexivity; f_equal; lia.
Qed.

(** A decoded word is in range. *)
Lemma bits_bounded z k :
  0 <= k -> 0 <= z -> (forall n, k <= n -> Z.testbit z n = false) -> z < 2^k.
Proof.
  intros Hk Hz Hbits.
  destruct (Z.eq_dec z 0) as [->|Hne]; [apply Z.pow_pos_nonneg; lia|].
  apply Z.log2_lt_pow2; [lia|].
  destruct (Z.lt_ge_cases (Z.log2 z) k) as [|Hge]; [assumption|].
  pose proof (Z.bit_log2 z ltac:(lia)) as Hb. rewrite Hbits in Hb by exact Hge.
  discriminate.
Qed.

Lemma Uint64_range bs v : Uint64 bs = Ok v -> 0 <= v < 2^64.
Proof.
  unfold Uint64.
  destruct bs as [|b0 [|b1 [|b2 [|b3 [|b4 [|b5 [|b6 [|b7 rest]]]]]]]];
    try discriminate.
  intros [= <-].
  pose proof (Z_of_byte_range b0). pose proof (Z_of_byte_range b1).
  pose proof (Z_of_byte_range b2). pose proof (Z_of_byte_range b3).
  pose proof (Z_of_byte_range b4). pose proof (Z_of_byte_range b5).
  pose proof (Z_of_byte_range b6). pose proof (Z_of_byte_range b7).
  split.
  - repeat (apply Z.lor_nonneg; split); try apply Z.shiftl_nonneg; lia.
  - apply bits_bounded; [lia| |].
    + repeat (apply Z.lor_nonneg; split); try apply Z.shiftl_nonneg; lia.
    + intros n Hn. rewrite !Z.lor_spec, !Z.shiftl_spec by lia.
      rewrite !testbit_Z_of_byte_high by lia. reflexivity.
Qed.

Lemma Uint32_range bs v : Uint32 bs = Ok v -> 0 <= v < 2^32.
Proof.
  unfold Uint32.
  destruct bs as [|b0 [|b1 [|b2 [|b3 rest]]]]; try discriminate.
  intros [= <-].
  pose proof (Z_of_byte_range b0). pose proof (Z_of_byte_range b1).
  pose proof (Z_of_byte_range b2). pose proof (Z_of_byte_range b3).
  split.
  - repeat (apply Z.lor_nonneg; split); try apply Z.shiftl_nonneg; lia.
  - apply bits_bounded; [lia| |].
    + repeat (apply Z.lor_nonneg; split); try apply Z.shiftl_nonneg; lia.
    + intros n Hn. rewrite !Z.lor_spec, !Z.shiftl_spec by lia.
      rewrite !testbit_Z_of_byte_high by lia. reflexivity.
Qed.

(** ** Buffers *)

Lemma lookup_rd d a n i :
  rd d a n !! i
  = if decide (i < Z.to_nat n)%nat then d !! (Z.to_nat a + i)%nat else None.
Proof.
  unfold rd. case_decide as H.
  - rewrite lookup_take_lt by exact H. apply lookup_drop.
  - apply lookup_take_ge. lia.
Qed.

Lemma lookup_wr d a bs i :
  0 <= a -> a + len bs <= len d ->
  wr d a bs !! i
  = if decide (Z.to_nat a <= i < Z.to_nat a + length bs)%nat
    then bs !! (i - Z.to_nat a)%nat else d !! i.
Proof.
  unfold wr, len. intros Ha Hlen.
  assert (Hta : length (take (Z.to_nat a) d) = Z.to_nat a).
  { rewrite length_take. lia. }
  case_decide as H.
  - rewrite lookup_app_r by lia. rewrite Hta.
    rewrite lookup_app_l by lia. reflexivity.
  - destruct (decide (i < Z.to_nat a)%nat) as [Hlt|Hge].
    + rewrite lookup_app_l by lia. apply lookup_take_lt. exact Hlt.
    + rewrite lookup_app_r by lia. rewrite Hta.
      rewrite lookup_app_r by lia. rewrite lookup_drop. f_equal. lia.
Qed.

Lemma len_wr d a bs :
  0 <= a -> a + len bs <= len d -> len (wr d a bs) = len d.
Proof.
  unfold wr, len. intros Ha Hlen.
  rewrite !length_app, length_take, length_drop. lia.
Qed.

Lemma len_rd d a n :
  0 <= a -> 0 <= n -> a + n <= len d -> len (rd d a n) = n.
Proof.
  unfold rd, len. intros Ha Hn Hlen. rewrite length_take, length_drop. lia.
Qed.

Lemma rd_wr_same d a bs n :
  0 <= a -> a + len bs <= len d -> n = len bs -> rd (wr d a bs) a n = bs.
Proof.
  intros Ha Hlen ->. apply list_eq. intros i.
  rewrite lookup_rd, lookup_wr by assumption. unfold len in *.
  case_decide as H1.
  - case_decide as H2; [|lia]. f_equal. lia.
  - symmetry. apply lookup_ge_None. lia.
Qed.

Lemma rd_wr_other d a bs a' n :
  0 <= a -> a + len bs <= len d -> 0 <= a' -> 0 <= n ->
  a' + n <= a \/ a + len bs <= a' ->
  rd (wr d a bs) a' n = rd d a' n.
Proof.
  intros Ha Hlen Ha' Hn Hdis. apply list_eq. intros i.
  rewrite !lookup_rd, lookup_wr by assumption. unfold len in *.
  case_decide as H1; [|reflexivity].
  case_decide as H2; [lia|reflexivity].
Qed.

Lemma rd_rd d a n a' n' :
  0 <= a -> 0 <= a' -> 0 <= n' -> a' + n' <= n ->
  rd (rd d a n) a' n' = rd d (a + a') n'.
Proof.
  intros Ha Ha' Hn' Hle. apply list_eq. intros i. rewrite !lookup_rd.
  case_decide as H1; [|reflexivity].
  case_decide as H2; [|lia]. f_equal. lia.
Qed.

Lemma wr_view d base n off bs :
  0 <= base -> 0 <= off -> off + len bs <= n -> base + n <= len d ->
  wr d base (wr (rd d base n) off bs) = wr d (base + off) bs.
Proof.
  intros Hb Ho Hle Hlen. pose proof (Zle_0_nat (length bs)) as Hbs.
  unfold len in *.
  assert (Hn : len (rd d base n) = n) by (apply len_rd; unfold len; lia).
  assert (Hw : len (wr (rd d base n) off bs) = n).
  { rewrite len_wr; unfold len in *; lia. }
  apply list_eq. intros i.
  rewrite !lookup_wr by (unfold len in *; lia).
  rewrite lookup_rd. unfold len in *.
  repeat case_decide; try lia; try reflexivity.
  - f_equal. lia.
  - f_equal. lia.
Qed.

Lemma fits_spec n d : fits n d = (n <=? len d).
Proof.
  unfold fits, len. destruct (Z.leb_spec n 0) as [H0|H0].
  - symmetry. apply Z.leb_le. lia.
  - destruct (drop (Z.to_nat (n - 1)) d) as [|x l] eqn:E.
    + apply (f_equal length) in E. rewrite length_drop in E. simpl in E.
      symmetry. apply Z.leb_gt. lia.
    + apply (f_equal length) in E. rewrite length_drop in E. simpl in E.
      symmetry. apply Z.leb_le. lia.
Qed.

Lemma lookup_as_rd d i x :
  d !! i = Some x <-> rd d (Z.of_nat i) 1 = [x].
Proof.
  unfold rd. rewrite Nat2Z.id. change (Z.to_nat 1) with 1%nat.
  split.
  - intros H. rewrite (drop_S _ _ _ H). reflexivity.
  - intros H. destruct (drop i d) as [|y l] eqn:E; [discriminate|].
    simpl in H. rewrite take_0 in H. injection H as ->.
    rewrite <- (Nat.add_0_r i). rewrite <- lookup_drop. rewrite E. reflexivity.
Qed.

(** ** Page accessors as reads and writes of the image *)

Lemma getPageData_in b p :
  image_ok b -> 0 <= p < 32 ->
  getPageData b p = Ok (mkSlice (p * 512) 512).
Proof.
  unfold image_ok, getPageData, u32, pageSize. intros Hlen Hp.
  rewrite (Z.mod_small (p * 512)) by lia.
  rewrite (Z.mod_small (p * 512 + 512)) by lia.
  rewrite fits_spec, Hlen.
  destruct (Z.leb_spec (p * 512) (p * 512 + 512)); [|lia].
  destruct (Z.leb_spec (p * 512 + 512) (512 * 32)); [|lia].
  simpl. do 2 f_equal. lia.
Qed.

Lemma subslice_in b s lo hi :
  0 <= lo -> lo <= hi -> base s + hi <= len (data b) ->
  subslice b s lo hi = Ok (mkSlice (base s + lo) (hi - lo)).
Proof.
  intros H1 H2 H3. unfold subslice. rewrite fits_spec.
  destruct (Z.leb_spec 0 lo); [|lia]. destruct (Z.leb_spec lo hi); [|lia].
  destruct (Z.leb_spec (base s + hi) (len (data b))); [|lia]. reflexivity.
Qed.

Lemma getPageInt32_rd b p off :
  image_ok b -> 0 <= p < 32 -> 0 <= off -> off + 4 <= 512 ->
  getPageInt32 b p off = Uint32 (rd (data b) (p * 512 + off) 4).
Proof.
  intros Hb Hp H0 H1. unfold getPageInt32. rewrite getPageData_in by assumption.
  cbn [mbind outcome_bind]. unfold getInt32.
  rewrite subslice_in; cbn [base]; try lia.
  2:{ unfold image_ok, pageSize in Hb. lia. }
  cbn [mbind outcome_bind]. unfold view. cbn [base slen].
  do 2 f_equal. lia.
Qed.

Lemma setPageInt32_wr b p off v :
  image_ok b -> 0 <= p < 32 -> 0 <= off -> off + 4 <= 512 ->
  setPageInt32 b p off v
  = Ok (set_data b (wr (data b) (p * 512 + off) (PutUint32 v))).
Proof.
  intros Hb Hp H0 H1. unfold setPageInt32. rewrite getPageData_in by assumption.
  cbn [mbind outcome_bind]. unfold setInt32.
  rewrite subslice_in; cbn [base]; try lia.
  2:{ unfold image_ok, pageSize in Hb. lia. }
  reflexivity.
Qed.

Lemma getKey_rd b p i :
  image_ok b -> 0 <= p < 32 -> 0 <= 36 + 12 * i -> 36 + 12 * i + 8 <= 512 ->
  getKey b p i = Uint64 (rd (data b) (p * 512 + (36 + 12 * i)) 8).
Proof.
  intros Hb Hp H0 H1. unfold getKey. rewrite getPageData_in by assumption.
  cbn [mbind outcome_bind]. unfold getInt64, offsetKey.
  rewrite subslice_in; cbn [base]; try lia.
  2:{ unfold image_ok, pageSize in Hb. lia. }
  cbn [mbind outcome_bind]. unfold view. cbn [base slen].
  do 2 f_equal; lia.
Qed.

Lemma setKey_wr b p i k :
  image_ok b -> 0 <= p < 32 -> 0 <= 36 + 12 * i -> 36 + 12 * i + 8 <= 512 ->
  setKey b p i k
  = Ok (set_data b (wr (data b) (p * 512 + (36 + 12 * i)) (PutUint64 k))).
Proof.
  intros Hb Hp H0 H1. unfold setKey. rewrite getPageData_in by assumption.
  cbn [mbind outcome_bind]. unfold setInt64, offsetKey.
  rewrite subslice_in; cbn [base]; try lia.
  2:{ unfold image_ok, pageSize in Hb. lia. }
  cbn [mbind outcome_bind]. unfold store. cbn [base].
  do 3 f_equal. lia.
Qed.

Lemma getCellPtr_rd b p i :
  image_ok b -> 0 <= p < 32 -> 0 <= 44 + 12 * i -> 44 + 12 * i + 4 <= 512 ->
  getCellPtr b p i = Uint32 (rd (data b) (p * 512 + (44 + 12 * i)) 4).
Proof.
  intros Hb Hp H0 H1. unfold getCellPtr. rewrite getPageData_in by assumption.
  cbn [mbind outcome_bind]. unfold getInt32, offsetKey.
  rewrite subslice_in; cbn [base]; try lia.
  2:{ unfold image_ok, pageSize in Hb. lia. }
  cbn [mbind outcome_bind]. unfold view. cbn [base slen].
  do 2 f_equal; lia.
Qed.

Lemma setCellPtr_wr b p i k :
  image_ok b -> 0 <= p < 32 -> 0 <= 44 + 12 * i -> 44 + 12 * i + 4 <= 512 ->
  setCellPtr b p i k
  = Ok (set_data b (wr (data b) (p * 512 + (44 + 12 * i)) (PutUint32 k))).
Proof.
  intros Hb Hp H0 H1. unfold setCellPtr. rewrite getPageData_in by assumption.
  cbn [mbind outcome_bind]. unfold setInt32, offsetKey.
  rewrite subslice_in; cbn [base]; try lia.
  2:{ unfold image_ok, pageSize in Hb. lia. }
  cbn [mbind outcome_bind]. unfold store. cbn [base].
  do 3 f_equal. lia.
Qed.

Lemma getNodeType_rd b p x :
  image_ok b -> 0 <= p < 32 ->
  (getNodeType b p = Ok x <-> rd (data b) (p * 512 + 4) 1 = [x]).
Proof.
  intros Hb Hp. unfold getNodeType. rewrite getPageData_in by assumption.
  cbn [mbind outcome_bind]. unfold index_get, offsetNodeType. cbn [base slen].
  change ((0 <=? 4) && (4 <? 512)) with true. cbv iota.
  rewrite <- (Z2Nat.id (p * 512 + 4)) at 2 by lia.
  rewrite <- lookup_as_rd.
  destruct (data b !! Z.to_nat (p * 512 + 4)); split; congruence.
Qed.


(** ** Symbolic execution of the root split *)

Lemma data_set_data b d : data (set_data b d) = d.
Proof. reflexivity. Qed.

Lemma set_data_twice b d d' : set_data (set_data b d) d' = set_data b d'.
Proof. reflexivity. Qed.

Lemma len_wr_eq d a bs L :
  len d = L -> 0 <= a -> a + len bs <= L -> len (wr d a bs) = L.
Proof. intros <- H1 H2. apply len_wr; assumption. Qed.

Lemma rd_wr_same_L L d a bs a' n :
  len d = L -> 0 <= a -> a + len bs <= L -> a' = a -> n = len bs ->
  rd (wr d a bs) a' n = bs.
Proof. intros <- H1 H2 ->. apply rd_wr_same; assumption. Qed.

Lemma rd_wr_other_L L d a bs a' n :
  len d = L -> 0 <= a -> a + len bs <= L -> 0 <= a' -> 0 <= n ->
  a' + n <= a \/ a + len bs <= a' ->
  rd (wr d a bs) a' n = rd d a' n.
Proof. intros <-. apply rd_wr_other. Qed.

Lemma len_PutUint32 v : len (PutUint32 v) = 4.
Proof. reflexivity. Qed.
Lemma len_PutUint64 v : len (PutUint64 v) = 8.
Proof. reflexivity. Qed.
Lemma len_single (x : byte) : len [x] = 1.
Proof. reflexivity. Qed.

Ltac len_norm := rewrite ?len_PutUint32, ?len_PutUint64, ?len_single.

Ltac len_tac :=
  lazymatch goal with
  | |- len (wr _ _ _) = _ =>
      apply len_wr_eq; [len_tac | lia | len_norm; lia]
  | |- _ => eassumption
  end.

Ltac side :=
  solve [ len_tac | len_norm; lia | len_norm; reflexivity ].

Ltac rd_tac L :=
  repeat first
    [ rewrite (rd_wr_same_L L) by side
    | rewrite (rd_wr_other_L L) by side ].

Lemma image_ok_nest b d : len d = 16384 -> image_ok (set_data b d).
Proof. intros H. unfold image_ok. rewrite data_set_data. exact H. Qed.

Lemma Uint32_Put v : Uint32 (PutUint32 v) = Ok (v mod 2^32).
Proof. exact (Uint32_PutUint32 v []). Qed.

Lemma Uint64_Put v : Uint64 (PutUint64 v) = Ok (v mod 2^64).
Proof. exact (Uint64_PutUint64 v []). Qed.

Lemma setUsablePtr_wr b p v :
  image_ok b -> 0 <= p < 32 ->
  setUsablePtr b p v = Ok (set_data b (wr (data b) (p * 512 + 12) (PutUint32 v))).
Proof. intros. apply (setPageInt32_wr b p 12 v); (assumption || lia). Qed.

Lemma getUsablePtr_rd b p :
  image_ok b -> 0 <= p < 32 ->
  getUsablePtr b p = Uint32 (rd (data b) (p * 512 + 12) 4).
Proof. intros. apply (getPageInt32_rd b p 12); (assumption || lia). Qed.


Ltac ok_tac :=
  first [ assumption | lia | apply image_ok_nest; len_tac ].

Ltac step H lem :=
  rewrite lem in H by ok_tac;
  cbn [mbind outcome_bind] in H;
  rewrite ?data_set_data, ?set_data_twice in H.








(** [insertAndsplit] on a page without a parent ends with the three calls
    the theorem is about. *)
Lemma insertAndsplit_root_branch ik b pageNo key child payload b' :
  insertAndsplit ik b pageNo key child payload = Ok b' ->
  exists rightPageNo b1 t b2 parent,
    insertAndSplitKey b pageNo key child payload = Ok (rightPageNo, b1) /\
    getNodeType b1 pageNo = Ok t /\
    setNodeType b1 rightPageNo t = Ok b2 /\
    getParent b2 pageNo = Ok parent /\
    (parent = 0 ->
     exists newLeftPage b3 b4 b5 b6 b7,
       allocte b2 = Ok (newLeftPage, b3) /\
       copy b3 pageNo newLeftPage = Ok b4 /\
       setNodeType b4 newLeftPage t = Ok b5 /\
       insertAndSplitRoot b5 pageNo newLeftPage rightPageNo = Ok b6 /\
       setChildParent b6 newLeftPage = Ok b7 /\
       setChildParent b7 rightPageNo = Ok b').
Proof.
  unfold insertAndsplit. intros H.
  apply bind_Ok in H as (oldmax & _ & H).
  apply bind_Ok in H as ([rightPageNo b1] & Hsplit & H).
  apply bind_Ok in H as (t & Ht & H).
  apply bind_Ok in H as (b2 & Hb2 & H).
  apply bind_Ok in H as (parent & Hparent & H).
  exists rightPageNo, b1, t, b2, parent.
  repeat (split; [assumption|]).
  intros ->. change (0 =? 0) with true in H. cbv iota in H.
  apply bind_Ok in H as ([newLeftPage b3] & Halloc & H).
  apply bind_Ok in H as (b4 & Hb4 & H).
  apply bind_Ok in H as (b5 & Hb5 & H).
  apply bind_Ok in H as (b6 & Hb6 & H).
  apply bind_Ok in H as (b7 & Hb7 & H).
  exists newLeftPage, b3, b4, b5, b6, b7.
  repeat (split; [assumption|]). assumption.
Qed.

(** [CreateTree] numbers the root page 1 and makes it a leaf, whatever the
    order; the split of this section's witness is what [Insert] does. *)
Lemma CreateTree_root order :
  (t ← CreateTree order; getPageNo t rootPageNo) = Ok rootPageNo /\
  (t ← CreateTree order; getNodeType t rootPageNo) = Ok nodeTypeLeaf.
Proof. split; vm_compute; reflexivity. Qed.

Lemma first_root_split_is_an_Insert :
  before_root_split = Ok (3, 2, split_entry) /\
  (t ← CreateTree 5;
   inserts 4 t (five_keys ++ [(60, bytes "f")])) = Ok split_done.
Proof. split; vm_compute; reflexivity. Qed.

(** ** The repository's test *)

(** [TestBtree]: after its eleven inserts [Get 15] returns "val-1555", and
    the root, page 1, is an internal node. *)
Lemma CreateTree_5 : CreateTree 5 = Ok tree5.
Proof. vm_compute. reflexivity. Qed.

Example TestBtree_get_15 :
  (t ← inserts 4 tree5 test_inserts;
   payload ← Get 4 t 15;
   t1 ← getNodeType t rootPageNo;
   Ok (payload, t1))
  = Ok (Some (bytes "val-1555"), nodeTypeInternal).
Proof. lazy. reflexivity. Qed.

(** ** Get *)

(** When the key is in no live slot of a leaf, [getKeyCell] returns the nil
    cell and [getKeyPayload] slices it. *)
Lemma getKeyPayload_absent b page key t :
  getKeyCell b page key = Ok None ->
  getNodeType b page = Ok t -> is_leaf t = true ->
  getKeyPayload b page key = Fault.
Proof.
  intros Hc Ht Hl. unfold getKeyPayload. rewrite Hc. simpl.
  rewrite Ht. simpl. rewrite Hl. reflexivity.
Qed.

(** C3 fails on the code.  On the empty tree of order 5 the key 7 is not in
    the leaf that [search] locates; [getKeyCell] reports that with the nil
    cell, and [Get] faults on [cell[8:]] instead of returning absent. *)
Theorem get_of_missing_key_faults :
  (t ← CreateTree 5; search 4 t 7) = Ok 1 /\
  (t ← CreateTree 5; getKeyCell t 1 7) = Ok None /\
  (t ← CreateTree 5; Get 4 t 7) = Fault.
Proof.
  split; [vm_compute; reflexivity|].
  split; vm_compute; reflexivity.
Qed.

(** ** Insert then Get *)

(** C2 fails on the code.  In a tree of order 5 the keys 10, 20, 30, 40, 50
    fill the root leaf; inserting 15 splits it, and afterwards [Get 20]
    returns the payload that was inserted with 15. *)
Theorem get_after_split_returns_other_payload :
  (t ← CreateTree 5;
   t ← inserts 4 t (five_keys ++ [(15, bytes "f")]);
   Get 4 t 20) = Ok (Some (bytes "f")) /\
  (t ← CreateTree 5;
   t ← inserts 4 t (five_keys ++ [(15, bytes "f")]);
   Get 4 t 15) = Ok (Some (bytes "f")).
Proof.
  split; vm_compute; reflexivity.
Qed.

(** ** Split *)

(** C7 fails on the code.  In a tree of order 5 whose root leaf holds the
    keys 1 to 5, the split that inserts the key 0 leaves the keys 1, 1, 2
    on the left page and 3, 4, 5 on the right page: the inserted key is on
    neither. *)
Theorem split_loses_key_zero :
  (t ← CreateTree 5;
   t ← inserts 4 t low_keys;
   page_keys t 1) = Ok [1; 2; 3; 4; 5] /\
  (t ← CreateTree 5;
   t ← inserts 4 t low_keys;
   '(rightPageNo, t) ← insertAndSplitKey t 1 0 0 (Some (bytes "f"));
   left_keys ← page_keys t 1;
   right_keys ← page_keys t rightPageNo;
   next ← getNext t 1;
   Ok (left_keys, right_keys, rightPageNo, next))
  = Ok ([1; 1; 2], [3; 4; 5], 2, 2).
Proof.
  split; vm_compute; reflexivity.
Qed.

(** ** More facts about buffers and page reads *)

Lemma image_len b : image_ok b -> len (data b) = 16384.
Proof. intros H. exact H. Qed.

Lemma Uint64_total bs : len bs = 8 -> exists v, Uint64 bs = Ok v.
Proof.
  intros H. do 8 (destruct bs as [|? bs]; [discriminate|]).
  unfold Uint64. eauto.
Qed.

Lemma Uint32_total bs : 4 <= len bs -> exists v, Uint32 bs = Ok v.
Proof.
  intros H. do 4 (destruct bs as [|? bs]; [unfold len in H; simpl in H; lia|]).
  unfold Uint32. eauto.
Qed.

Lemma set_data_id b : set_data b (data b) = b.
Proof. destruct b. reflexivity. Qed.

Lemma rd_all (p : list byte) : rd p 0 (len p) = p.
Proof.
  unfold rd, len. rewrite Nat2Z.id. change (Z.to_nat 0) with 0%nat.
  rewrite drop_0. apply firstn_all.
Qed.

Lemma rd_split d a m k :
  0 <= a -> 0 <= k <= m -> rd d a m = rd d a k ++ rd d (a + k) (m - k).
Proof.
  intros Ha Hk. unfold rd.
  replace (Z.to_nat m) with (Z.to_nat k + Z.to_nat (m - k))%nat by lia.
  rewrite <- take_take_drop. f_equal. rewrite drop_drop. do 2 f_equal. lia.
Qed.

Lemma rd_shift d a k m :
  0 <= a -> 0 <= k -> 0 <= m -> rd d (a + k) m = drop (Z.to_nat k) (rd d a (m + k)).
Proof.
  intros Ha Hk Hm. unfold rd.
  replace (Z.to_nat (m + k)) with (Z.to_nat k + Z.to_nat m)%nat by lia.
  rewrite <- take_drop_commute, drop_drop. do 2 f_equal. lia.
Qed.

Lemma rd_wr_inside d a bs o l :
  0 <= a -> a + len bs <= len d -> 0 <= o -> 0 <= l -> o + l <= len bs ->
  rd (wr d a bs) (a + o) l = rd bs o l.
Proof.
  intros Ha Hlen Ho Hl Hin. apply list_eq. intros i.
  rewrite !lookup_rd. case_decide as H1; [|reflexivity].
  rewrite lookup_wr by assumption. unfold len in *.
  case_decide as H2; [|lia]. f_equal. lia.
Qed.

Lemma wr_zeros_all n bs : len bs = n -> wr (zeros n) 0 bs = bs.
Proof.
  intros H. unfold wr, zeros. change (Z.to_nat 0) with 0%nat.
  rewrite take_0. cbn [app Nat.add].
  rewrite drop_ge; [apply app_nil_r|]. rewrite repeat_length.
  unfold len in H. lia.
Qed.

Lemma getKey_some b p i :
  image_ok b -> 0 <= p < 32 -> -3 <= i <= 39 ->
  exists k, getKey b p i = Ok k /\ 0 <= k < 2^64.
Proof.
  intros Hb Hp Hi. rewrite getKey_rd by (assumption || lia).
  destruct (Uint64_total (rd (data b) (p * 512 + (36 + 12 * i)) 8)) as (k & Hk).
  { apply len_rd; try lia. rewrite (image_len _ Hb). lia. }
  exists k. split; [exact Hk|]. eapply Uint64_range; eauto.
Qed.

Lemma getCellPtr_some b p i :
  image_ok b -> 0 <= p < 32 -> 0 <= i <= 38 ->
  exists c, getCellPtr b p i = Ok c /\ 0 <= c < 2^32.
Proof.
  intros Hb Hp Hi. rewrite getCellPtr_rd by (assumption || lia).
  destruct (Uint32_total (rd (data b) (p * 512 + (44 + 12 * i)) 4)) as (k & Hk).
  { rewrite len_rd; try lia. rewrite (image_len _ Hb). lia. }
  exists k. split; [exact Hk|]. eapply Uint32_range; eauto.
Qed.

Lemma getNodeType_some b p :
  image_ok b -> 0 <= p < 32 -> exists t, getNodeType b p = Ok t.
Proof.
  intros Hb Hp. unfold getNodeType. rewrite getPageData_in by assumption.
  cbn [mbind outcome_bind]. unfold index_get, offsetNodeType. cbn [base slen].
  change ((0 <=? 4) && (4 <? 512)) with true. cbv iota.
  destruct (lookup_lt_is_Some_2 (data b) (Z.to_nat (p * 512 + 4))) as (x & Hx).
  { pose proof (image_len _ Hb) as Hl. unfold len in Hl. lia. }
  rewrite Hx. eauto.
Qed.

Lemma blockCopy_some src so dst dO count :
  0 <= so -> 0 <= dO -> exists r, blockCopy src so dst dO count = Ok r.
Proof.
  intros H1 H2. unfold blockCopy.
  destruct (_ || _ || _); [eauto|]. destruct (_ || _ || _); [eauto|].
  destruct (count <=? 0); [eauto|].
  destruct (Z.ltb_spec so 0); [lia|]. destruct (Z.ltb_spec dO 0); [lia|].
  cbn [orb]. eauto.
Qed.

Lemma getNumberOfKey_range b p n :
  image_ok b -> 0 <= p < 32 -> getNumberOfKey b p = Ok n -> 0 <= n < 2^32.
Proof.
  intros Hb Hp Hn. unfold getNumberOfKey, offsetNumberOfKey in Hn.
  rewrite getPageInt32_rd in Hn by (assumption || lia).
  apply Uint32_range in Hn. exact Hn.
Qed.

(** ** The copying loops *)

Lemma byte_at_Some d i x :
  0 <= i -> d !! Z.to_nat i = Some x -> byte_at d i = Ok x.
Proof.
  intros Hi Hx. unfold byte_at. destruct (Z.leb_spec 0 i); [|lia].
  rewrite Hx. reflexivity.
Qed.

Lemma byte_at_out d i : ~ (0 <= i < len d) -> byte_at d i = Fault.
Proof.
  intros H. unfold byte_at. destruct (Z.leb_spec 0 i); [|reflexivity].
  rewrite lookup_ge_None_2; [reflexivity|]. unfold len in H. lia.
Qed.

Lemma byte_put_in d i v :
  0 <= i < len d -> byte_put d i v = Ok (<[Z.to_nat i := v]> d).
Proof.
  intros H. unfold byte_put. destruct (Z.leb_spec 0 i); [|lia].
  destruct (Z.ltb_spec i (len d)); [|lia]. reflexivity.
Qed.

Lemma byte_put_out d i v : ~ (0 <= i < len d) -> byte_put d i v = Fault.
Proof.
  intros H. unfold byte_put. destruct (Z.leb_spec 0 i);
    destruct (Z.ltb_spec i (len d)); try reflexivity. lia.
Qed.

Lemma len_insert (d : list byte) i v : len (<[i := v]> d) = len d.
Proof. unfold len. rewrite length_insert. reflexivity. Qed.

(** One iteration of a copying loop inside the buffers. *)
Lemma copy_step src dst a c :
  0 <= a < len src -> 0 <= c < len dst ->
  exists x, src !! Z.to_nat a = Some x /\
            byte_at src a = Ok x /\
            byte_put dst c x = Ok (<[Z.to_nat c := x]> dst).
Proof.
  intros Ha Hc.
  destruct (lookup_lt_is_Some_2 src (Z.to_nat a)) as (x & Hx);
    [unfold len in Ha; lia|].
  exists x. split; [exact Hx|]. split; [apply byte_at_Some; [lia|exact Hx]|].
  apply byte_put_in. exact Hc.
Qed.

(** One iteration with an index outside a buffer. *)
Lemma copy_step_out {A} src dst a c (k : list byte -> outcome A) :
  ~ (0 <= a < len src) \/ ~ (0 <= c < len dst) ->
  (x ← byte_at src a; d ← byte_put dst c x; k d) = Fault.
Proof.
  intros H. destruct (byte_at src a) as [x| |] eqn:E;
    cbn [mbind outcome_bind]; try reflexivity.
  - destruct H as [H|H].
    + rewrite byte_at_out in E by exact H. discriminate.
    + rewrite byte_put_out by exact H. reflexivity.
  - unfold byte_at in E. destruct (0 <=? a); [|discriminate].
    destruct (src !! Z.to_nat a); discriminate.
Qed.

Lemma blockCopy_loop_in src so dO : forall n dst index,
  0 <= so -> 0 <= dO -> 0 <= index ->
  so + index + Z.of_nat n <= len src ->
  dO + index + Z.of_nat n <= len dst ->
  exists dst',
    blockCopy_loop n src so dst dO index = Ok dst' /\
    len dst' = len dst /\
    forall m, dst' !! m =
      if decide (Z.to_nat (dO + index) <= m < Z.to_nat (dO + index) + n)%nat
      then src !! (Z.to_nat (so + index) + (m - Z.to_nat (dO + index)))%nat
      else dst !! m.
Proof.
  induction n as [|n IH]; intros dst index Hso Hdo Hi Hs Hd.
  - exists dst. split; [reflexivity|]. split; [reflexivity|].
    intros m. case_decide; [lia|reflexivity].
  - cbn [blockCopy_loop].
    destruct (copy_step src dst (so + index) (dO + index)) as (x & Hx & Hat & Hput);
      [lia|lia|].
    rewrite Hat. cbn [mbind outcome_bind]. rewrite Hput.
    cbn [mbind outcome_bind].
    destruct (IH (<[Z.to_nat (dO + index) := x]> dst) (index + 1))
      as (dst' & Hrun & Hlen & Hlook); try lia.
    { rewrite len_insert. lia. }
    exists dst'. split; [exact Hrun|]. split; [rewrite Hlen; apply len_insert|].
    intros m. rewrite Hlook.
    replace (Z.to_nat (dO + (index + 1))) with (S (Z.to_nat (dO + index))) by lia.
    replace (Z.to_nat (so + (index + 1))) with (S (Z.to_nat (so + index))) by lia.
    destruct (decide (m = Z.to_nat (dO + index))) as [->|Hne].
    + case_decide; [lia|]. case_decide; [|lia].
      rewrite list_lookup_insert_eq by (unfold len in *; lia).
      rewrite Nat.sub_diag, Nat.add_0_r. symmetry. exact Hx.
    + rewrite list_lookup_insert_ne by congruence.
      repeat case_decide; try lia; try reflexivity. f_equal. lia.
Qed.

(** X13.  [blockCopy], run byte by byte as its loop is written, does what
    the block form says for every input: it returns the destination
    unchanged when a range test fails or [count] is not positive, panics
    on a negative offset with a positive [count], and otherwise stores the
    [count] source bytes at [dstOffset] and touches nothing else. *)
Theorem blockCopy_runs_its_loop src srcOffset dst dstOffset count :
  blockCopy_bytewise src srcOffset dst dstOffset count
  = blockCopy src srcOffset dst dstOffset count.
Proof.
  unfold blockCopy_bytewise, blockCopy. cbv zeta.
  destruct ((srcOffset >? len src) || (count >? len src)
            || (srcOffset + count >? len src)) eqn:E1; [reflexivity|].
  destruct ((dstOffset >? len dst) || (count >? len dst)
            || (dstOffset + count >? len dst)) eqn:E2; [reflexivity|].
  apply orb_false_elim in E1 as [E1 E1c]. apply orb_false_elim in E1 as [E1a E1b].
  apply orb_false_elim in E2 as [E2 E2c]. apply orb_false_elim in E2 as [E2a E2b].
  assert (H1 : srcOffset + count <= len src)
    by (destruct (Z.gtb_spec (srcOffset + count) (len src)); [discriminate|lia]).
  assert (H2 : dstOffset + count <= len dst)
    by (destruct (Z.gtb_spec (dstOffset + count) (len dst)); [discriminate|lia]).
  clear E1a E1b E1c E2a E2b E2c.
  destruct (Z.leb_spec count 0) as [Hc|Hc].
  { replace (Z.to_nat count) with 0%nat by lia. reflexivity. }
  destruct (Z.to_nat count) as [|n] eqn:En; [lia|].
  destruct ((srcOffset <? 0) || (dstOffset <? 0)) eqn:E3.
  - cbn [blockCopy_loop]. apply copy_step_out.
    apply orb_true_iff in E3 as [E|E]; apply Z.ltb_lt in E; [left|right]; lia.
  - apply orb_false_elim in E3 as [E3a E3b].
    apply Z.ltb_ge in E3a, E3b. rewrite <- En.
    destruct (blockCopy_loop_in src srcOffset dstOffset (Z.to_nat count) dst 0)
      as (dst' & Hrun & Hlen & Hlook); try lia.
    rewrite Hrun. f_equal. apply list_eq. intros m. rewrite Hlook.
    assert (Hr : len (rd src srcOffset count) = count) by (apply len_rd; lia).
    rewrite lookup_wr by lia. rewrite lookup_rd.
    assert (Hr' : length (rd src srcOffset count) = Z.to_nat count)
      by (unfold len in Hr; lia).
    rewrite Hr'. rewrite !Z.add_0_r.
    repeat case_decide; try lia; reflexivity.
Qed.

Lemma lshift_loop_in src s : forall n d i,
  0 <= s -> 0 <= i -> 0 <= src - s + i ->
  src + i + Z.of_nat n <= len d ->
  exists d',
    lshift_loop n d src s i = Ok d' /\
    len d' = len d /\
    forall m, d' !! m =
      if decide (Z.to_nat (src - s + i) <= m
                 < Z.to_nat (src - s + i) + n)%nat
      then d !! (m + Z.to_nat s)%nat
      else d !! m.
Proof.
  induction n as [|n IH]; intros d i Hs Hi Hdst Hsrc.
  - exists d. split; [reflexivity|]. split; [reflexivity|].
    intros m. case_decide; [lia|reflexivity].
  - cbn [lshift_loop].
    destruct (copy_step d d (src + i) (src - s + i)) as (x & Hx & Hat & Hput);
      [lia|lia|].
    rewrite Hat. cbn [mbind outcome_bind]. rewrite Hput.
    cbn [mbind outcome_bind].
    destruct (IH (<[Z.to_nat (src - s + i) := x]> d) (i + 1))
      as (d' & Hrun & Hlen & Hlook); try lia.
    { rewrite len_insert. lia. }
    exists d'. split; [exact Hrun|]. split; [rewrite Hlen; apply len_insert|].
    intros m. rewrite Hlook.
    replace (Z.to_nat (src - s + (i + 1)))
      with (S (Z.to_nat (src - s + i))) by lia.
    destruct (decide (m = Z.to_nat (src - s + i))) as [->|Hne].
    + case_decide; [lia|]. case_decide; [|lia].
      rewrite list_lookup_insert_eq by (unfold len in *; lia).
      rewrite <- Hx. f_equal. lia.
    + case_decide; case_decide; try lia;
        rewrite list_lookup_insert_ne by lia; reflexivity.
Qed.

Lemma lshift_loop_out src s : forall n d i j,
  (j < n)%nat ->
  ~ (0 <= src + i + Z.of_nat j < len d) \/
  ~ (0 <= src - s + i + Z.of_nat j < len d) ->
  lshift_loop n d src s i = Fault.
Proof.
  induction n as [|n IH]; intros d i j Hj Hbad; [lia|].
  cbn [lshift_loop].
  destruct (decide (0 <= src + i < len d /\ 0 <= src - s + i < len d))
    as [[H1 H2]|Hnow].
  - destruct (copy_step d d (src + i) (src - s + i)) as (x & Hx & Hat & Hput);
      [lia|lia|].
    rewrite Hat. cbn [mbind outcome_bind]. rewrite Hput.
    cbn [mbind outcome_bind].
    destruct j as [|j]; [exfalso; lia|].
    apply (IH _ _ j); [lia|]. rewrite len_insert.
    replace (src + (i + 1) + Z.of_nat j) with (src + i + Z.of_nat (S j)) by lia.
    replace (src - s + (i + 1) + Z.of_nat j)
      with (src - s + i + Z.of_nat (S j)) by lia.
    exact Hbad.
  - apply copy_step_out. lia.
Qed.

Lemma rshift_loop_in src s : forall n d,
  0 <= s -> 0 <= src -> src + s + Z.of_nat n <= len d ->
  exists d',
    rshift_loop n d src s = Ok d' /\
    len d' = len d /\
    forall m, d' !! m =
      if decide (Z.to_nat (src + s) <= m < Z.to_nat (src + s) + n)%nat
      then d !! (m - Z.to_nat s)%nat
      else d !! m.
Proof.
  induction n as [|n IH]; intros d Hs Hsrc Hdst.
  - exists d. split; [reflexivity|]. split; [reflexivity|].
    intros m. case_decide; [lia|reflexivity].
  - cbn [rshift_loop].
    destruct (copy_step d d (src + Z.of_nat n) (src + s + Z.of_nat n))
      as (x & Hx & Hat & Hput); [lia|lia|].
    rewrite Hat. cbn [mbind outcome_bind]. rewrite Hput.
    cbn [mbind outcome_bind].
    destruct (IH (<[Z.to_nat (src + s + Z.of_nat n) := x]> d))
      as (d' & Hrun & Hlen & Hlook); try lia.
    { rewrite len_insert. lia. }
    exists d'. split; [exact Hrun|]. split; [rewrite Hlen; apply len_insert|].
    intros m. rewrite Hlook.
    destruct (decide (m = Z.to_nat (src + s + Z.of_nat n))) as [->|Hne].
    + case_decide; [lia|]. case_decide; [|lia].
      rewrite list_lookup_insert_eq by (unfold len in *; lia).
      rewrite <- Hx. f_equal. lia.
    + case_decide; case_decide; try lia;
        rewrite list_lookup_insert_ne by lia; reflexivity.
Qed.

Lemma rshift_loop_out src s : forall n d j,
  (j < n)%nat ->
  ~ (0 <= src + Z.of_nat j < len d) \/
  ~ (0 <= src + s + Z.of_nat j < len d) ->
  rshift_loop n d src s = Fault.
Proof.
  induction n as [|n IH]; intros d j Hj Hbad; [lia|].
  cbn [rshift_loop].
  destruct (decide (0 <= src + Z.of_nat n < len d /\
                    0 <= src + s + Z.of_nat n < len d)) as [[H1 H2]|Hnow].
  - destruct (copy_step d d (src + Z.of_nat n) (src + s + Z.of_nat n))
      as (x & Hx & Hat & Hput); [lia|lia|].
    rewrite Hat. cbn [mbind outcome_bind]. rewrite Hput.
    cbn [mbind outcome_bind].
    apply (IH _ j); [|rewrite len_insert; exact Hbad].
    destruct (decide (j = n)) as [->|]; [exfalso; lia|lia].
  - apply copy_step_out. lia.
Qed.

(** The block move that [lshift] and [rshift] stand for. *)
Lemma move_lookup d src n dst m :
  0 <= src -> 0 <= dst -> 0 <= n -> src + n <= len d -> dst + n <= len d ->
  wr d dst (rd d src n) !! m =
    if decide (Z.to_nat dst <= m < Z.to_nat dst + Z.to_nat n)%nat
    then d !! (Z.to_nat src + (m - Z.to_nat dst))%nat
    else d !! m.
Proof.
  intros H1 H2 H3 H4 H5.
  assert (Hr : len (rd d src n) = n) by (apply len_rd; lia).
  assert (Hr' : length (rd d src n) = Z.to_nat n) by (unfold len in Hr; lia).
  rewrite lookup_wr by lia. rewrite lookup_rd, Hr'.
  repeat case_decide; try lia; reflexivity.
Qed.

(** X14.  [shift], with the ascending loop of [lshift] and the descending
    loop of [rshift] run byte by byte, moves the block [data[src : src+len]]
    by [shiftSize] as a whole for every input, also when source and
    destination overlap, and panics exactly when the block or its
    destination leaves the slice. *)
Theorem shift_runs_its_loops data src n shiftSize :
  shift_bytewise data src n shiftSize = shift data src n shiftSize.
Proof.
  unfold shift_bytewise, shift, rshift, lshift, move.
  destruct (Z.gtb_spec shiftSize 0) as [Hpos|Hnp].
  - destruct (Z.leb_spec n 0) as [Hn|Hn].
    { replace (Z.to_nat n) with 0%nat by lia. reflexivity. }
    destruct ((0 <=? src) && (src + n <=? len data) && (0 <=? src + shiftSize)
              && (src + shiftSize + n <=? len data)) eqn:E.
    + apply andb_prop in E as [E E4]. apply andb_prop in E as [E E3].
      apply andb_prop in E as [E1 E2].
      apply Z.leb_le in E1, E2, E3, E4.
      destruct (rshift_loop_in src shiftSize (Z.to_nat n) data)
        as (d' & Hrun & Hlen & Hlook); try lia.
      rewrite Hrun. f_equal. apply list_eq. intros m.
      rewrite Hlook, move_lookup by lia.
      repeat case_decide; try lia; try reflexivity. f_equal. lia.
    + assert (Hbad : ~ (0 <= src /\ src + n <= len data /\
                        0 <= src + shiftSize /\
                        src + shiftSize + n <= len data)).
      { intros (H1 & H2 & H3 & H4).
        apply Z.leb_le in H1, H2, H3, H4. rewrite H1, H2, H3, H4 in E.
        discriminate. }
      destruct (Z_lt_dec src 0) as [Hs|Hs].
      * apply (rshift_loop_out src shiftSize (Z.to_nat n) data 0%nat); lia.
      * apply (rshift_loop_out src shiftSize (Z.to_nat n) data
                 (Z.to_nat n - 1)%nat); lia.
  - destruct (Z.ltb_spec shiftSize 0) as [Hneg|Hz]; [|reflexivity].
    destruct (Z.leb_spec n 0) as [Hn|Hn].
    { replace (Z.to_nat n) with 0%nat by lia. reflexivity. }
    destruct ((0 <=? src) && (src + n <=? len data)
              && (0 <=? src - - shiftSize)
              && (src - - shiftSize + n <=? len data)) eqn:E.
    + apply andb_prop in E as [E E4]. apply andb_prop in E as [E E3].
      apply andb_prop in E as [E1 E2].
      apply Z.leb_le in E1, E2, E3, E4.
      destruct (lshift_loop_in src (- shiftSize) (Z.to_nat n) data 0)
        as (d' & Hrun & Hlen & Hlook); try lia.
      rewrite Hrun. f_equal. apply list_eq. intros m.
      rewrite Hlook, move_lookup by lia. rewrite Z.add_0_r.
      repeat case_decide; try lia; try reflexivity. f_equal. lia.
    + assert (Hbad : ~ (0 <= src /\ src + n <= len data /\
                        0 <= src - - shiftSize /\
                        src - - shiftSize + n <= len data)).
      { intros (H1 & H2 & H3 & H4).
        apply Z.leb_le in H1, H2, H3, H4. rewrite H1, H2, H3, H4 in E.
        discriminate. }
      destruct (Z_lt_dec (src - - shiftSize) 0) as [Hs|Hs].
      * apply (lshift_loop_out src (- shiftSize) (Z.to_nat n) data 0 0%nat);
          lia.
      * apply (lshift_loop_out src (- shiftSize) (Z.to_nat n) data 0
                 (Z.to_nat n - 1)%nat); lia.
Qed.

(** ** Cells *)

Lemma marshal_cell child p :
  len p < 2^32 ->
  marshal child (Some p) = Ok (PutUint32 child ++ PutUint32 (len p) ++ p).
Proof.
  intros Hp. assert (H0 : 0 <= len p) by (unfold len; lia).
  unfold marshal. unfold u32. rewrite (Z.mod_small (len p)) by lia.
  set (c2 := wr (wr (zeros (8 + len p)) 0 (PutUint32 child)) 4
                (PutUint32 (len p))).
  assert (Hc2 : c2 = PutUint32 child ++ PutUint32 (len p)
                      ++ repeat x00 (length p)).
  { subst c2. unfold zeros.
    replace (Z.to_nat (8 + len p)) with (8 + length p)%nat
      by (unfold len; lia).
    reflexivity. }
  assert (Hl2 : len c2 = 8 + len p).
  { rewrite Hc2. unfold len. rewrite !length_app, repeat_length.
    simpl length. lia. }
  unfold blockCopy. rewrite Hl2.
  destruct (Z.gtb_spec 0 (len p)); [lia|].
  destruct (Z.gtb_spec (len p) (len p)); [lia|].
  destruct (Z.gtb_spec (0 + len p) (len p)); [lia|].
  destruct (Z.gtb_spec 8 (8 + len p)); [lia|].
  destruct (Z.gtb_spec (len p) (8 + len p)); [lia|].
  destruct (Z.gtb_spec (8 + len p) (8 + len p)); [lia|].
  cbn [orb].
  destruct (Z.leb_spec (len p) 0) as [Hz|Hz].
  - assert (p = [])
      by (destruct p; [reflexivity|unfold len in Hz; simpl in Hz; lia]).
    subst p. rewrite Hc2. reflexivity.
  - change (0 <? 0) with false. change (8 <? 0) with false. cbn [orb].
    rewrite rd_all, Hc2. unfold wr.
    change (Z.to_nat 8) with 8%nat.
    f_equal. cbn [PutUint32 app take].
    rewrite take_0. cbn [app]. do 8 f_equal.
    cbn [Nat.add drop].
    rewrite <- (repeat_length x00 (length p)) at 1.
    rewrite drop_all. apply app_nil_r.
Qed.

(** X15.  The cell [marshal] builds for a payload shorter than 2^32 bytes
    is the child page number, the payload length and the payload, each
    number as four big-endian bytes; decoding it gives them back: the
    first word is the child (as a uint32), the second the length, and the
    bytes from offset 8, which [getKeyPayload] returns, are the payload. *)
Theorem marshal_layout child p :
  len p < 2^32 ->
  exists cell,
    marshal child (Some p) = Ok cell /\
    cell = PutUint32 child ++ PutUint32 (len p) ++ p /\
    Uint32 cell = Ok (child mod 2^32) /\
    Uint32 (drop 4 cell) = Ok (len p) /\
    drop 8 cell = p.
Proof.
  intros Hp. assert (H0 : 0 <= len p) by (unfold len; lia).
  eexists. split; [apply marshal_cell; exact Hp|]. split; [reflexivity|].
  split; [apply Uint32_PutUint32|].
  split.
  - change (drop 4 (PutUint32 child ++ PutUint32 (len p) ++ p))
      with (PutUint32 (len p) ++ p).
    rewrite Uint32_PutUint32. f_equal. apply Z.mod_small. lia.
  - reflexivity.
Qed.

Lemma marshal_layout_witness :
  len (bytes "val-5") < 2^32 /\
  exists cell,
    marshal 0 (Some (bytes "val-5")) = Ok cell /\
    cell = PutUint32 0 ++ PutUint32 (len (bytes "val-5")) ++ bytes "val-5" /\
    Uint32 cell = Ok (0 mod 2^32) /\
    Uint32 (drop 4 cell) = Ok (len (bytes "val-5")) /\
    drop 8 cell = bytes "val-5".
Proof.
  assert (H : len (bytes "val-5") < 2^32) by (vm_compute; reflexivity).
  split; [exact H|]. exact (marshal_layout 0 (bytes "val-5") H).
Defined.

(** ** Looking a key up in a page *)

Lemma getKeyIndex_from_spec n : forall b page key i r,
  0 <= i ->
  getKeyIndex_from n b page key i = Ok r ->
  (r = -1 /\
   forall j, i <= j < i + Z.of_nat n ->
             exists k, getKey b page j = Ok k /\ k <> key) \/
  (i <= r < i + Z.of_nat n /\ getKey b page r = Ok key /\
   forall j, i <= j < r -> exists k, getKey b page j = Ok k /\ k <> key).
Proof.
  induction n as [|n IH]; intros b page key i r Hi H; simpl in H.
  - injection H as <-. left. split; [reflexivity|]. intros; lia.
  - apply bind_Ok in H as (ikey & Hk & H).
    destruct (Z.eqb_spec ikey key) as [->|Hne].
    + injection H as <-. right. split; [lia|]. split; [exact Hk|].
      intros; lia.
    + apply IH in H; [|lia].
      destruct H as [[-> Hall]|(Hr & Hkey & Hbefore)].
      * left. split; [reflexivity|]. intros j Hj.
        destruct (Z.eq_dec j i) as [->|]; [eauto|]. apply Hall. lia.
      * right. split; [lia|]. split; [exact Hkey|]. intros j Hj.
        destruct (Z.eq_dec j i) as [->|]; [eauto|]. apply Hbefore. lia.
Qed.

(** X16.  [getKeyIndex] returns the first slot that holds the key: when
    it returns an index [r >= 0], slot [r] holds the key and no live slot
    before it does; when it returns -1, no live slot holds the key. *)
Theorem getKeyIndex_first_match b page key n r :
  getNumberOfKey b page = Ok n ->
  getKeyIndex b page key = Ok r ->
  (r = -1 /\
   forall j, 0 <= j < n -> exists k, getKey b page j = Ok k /\ k <> key) \/
  (0 <= r < n /\ getKey b page r = Ok key /\
   forall j, 0 <= j < r -> exists k, getKey b page j = Ok k /\ k <> key).
Proof.
  intros Hn H. unfold getKeyIndex in H. rewrite Hn in H.
  cbn [mbind outcome_bind] in H.
  apply getKeyIndex_from_spec in H; [|lia].
  destruct H as [[-> Hall]|(Hr & Hkey & Hbefore)].
  - left. split; [reflexivity|]. intros j Hj. apply Hall. lia.
  - right. split; [lia|]. split; [exact Hkey|]. exact Hbefore.
Qed.

Lemma getKeyIndex_first_match_witness :
  getNumberOfKey five_tree 1 = Ok 5 /\
  getKeyIndex five_tree 1 30 = Ok 2 /\
  ((2 = -1 /\
    forall j, 0 <= j < 5 ->
              exists k, getKey five_tree 1 j = Ok k /\ k <> 30) \/
   (0 <= 2 < 5 /\ getKey five_tree 1 2 = Ok 30 /\
    forall j, 0 <= j < 2 ->
              exists k, getKey five_tree 1 j = Ok k /\ k <> 30)).
Proof.
  assert (H1 : getNumberOfKey five_tree 1 = Ok 5) by (vm_compute; reflexivity).
  assert (H2 : getKeyIndex five_tree 1 30 = Ok 2) by (vm_compute; reflexivity).
  split; [exact H1|]. split; [exact H2|].
  exact (getKeyIndex_first_match five_tree 1 30 5 2 H1 H2).
Defined.

(** ** Search *)

Lemma searchInternalNode_leaf fuel : forall b pageNo key page,
  searchInternalNode fuel b pageNo key = Ok page ->
  exists t, getNodeType b page = Ok t /\ is_leaf t = true.
Proof.
  induction fuel as [|fuel IH]; intros b pageNo key page H; simpl in H;
    [discriminate|].
  apply bind_Ok in H as (n & _ & H). apply bind_Ok in H as (k & _ & H).
  apply bind_Ok in H as (child & _ & H). apply bind_Ok in H as (t & Ht & H).
  destruct (is_leaf t) eqn:E.
  - injection H as <-. eauto.
  - eapply IH; eauto.
Qed.

Lemma search_leaf fuel b key page :
  search fuel b key = Ok page ->
  exists t, getNodeType b page = Ok t /\ is_leaf t = true.
Proof.
  unfold search. intros H. apply bind_Ok in H as (t & Ht & H).
  destruct (is_leaf t) eqn:E.
  - injection H as <-. eauto.
  - eapply searchInternalNode_leaf; eauto.
Qed.

(** X17.  [Get] never returns nil: whenever it returns, [search] has
    located a leaf page, [getKeyCell] has found a cell of at least 8 bytes
    for the key in that page, and the result is that cell without its
    first 8 bytes. *)
Theorem Get_returns_a_stored_cell fuel b key r :
  Get fuel b key = Ok r ->
  exists page t cell,
    search fuel b key = Ok page /\
    getNodeType b page = Ok t /\ is_leaf t = true /\
    getKeyCell b page key = Ok (Some cell) /\ 8 <= len cell /\
    r = Some (drop 8 cell).
Proof.
  unfold Get. intros H. apply bind_Ok in H as (page & Hs & H).
  destruct (search_leaf _ _ _ _ Hs) as (t & Ht & Hleaf).
  unfold getKeyPayload in H. apply bind_Ok in H as (cell & Hc & H).
  rewrite Ht in H. cbn [mbind outcome_bind] in H. rewrite Hleaf in H.
  destruct cell as [c|]; [|discriminate].
  destruct (Z.leb_spec 8 (len c)); [|discriminate].
  injection H as <-. exists page, t, c. auto 10.
Qed.

Lemma Get_returns_a_stored_cell_witness :
  Get 1 five_tree 30 = Ok (Some (bytes "c")) /\
  exists page t cell,
    search 1 five_tree 30 = Ok page /\
    getNodeType five_tree page = Ok t /\ is_leaf t = true /\
    getKeyCell five_tree page 30 = Ok (Some cell) /\ 8 <= len cell /\
    Some (bytes "c") = Some (drop 8 cell).
Proof.
  assert (H : Get 1 five_tree 30 = Ok (Some (bytes "c")))
    by (vm_compute; reflexivity).
  split; [exact H|]. exact (Get_returns_a_stored_cell 1 five_tree 30 _ H).
Defined.

Lemma pick_slot_spec n : forall b pageNo key i k r,
  pick_slot n b pageNo key i k = Ok r ->
  (r = k /\
   forall j, i <= j < i + Z.of_nat n ->
             exists x, getKey b pageNo j = Ok x /\ x < key) \/
  (i <= r < i + Z.of_nat n /\
   (exists x, getKey b pageNo r = Ok x /\ key <= x) /\
   forall j, i <= j < r -> exists x, getKey b pageNo j = Ok x /\ x < key).
Proof.
  induction n as [|n IH]; intros b pageNo key i k r H; simpl in H.
  - injection H as <-. left. split; [reflexivity|]. intros; lia.
  - apply bind_Ok in H as (x & Hx & H).
    destruct (Z.geb_spec x key) as [Hge|Hlt].
    + injection H as <-. right. split; [lia|].
      split; [exists x; split; [exact Hx|lia]|]. intros; lia.
    + apply IH in H. destruct H as [[-> Hall]|(Hr & Hkey & Hbefore)].
      * left. split; [reflexivity|]. intros j Hj.
        destruct (Z.eq_dec j i) as [->|]; [eauto|]. apply Hall. lia.
      * right. split; [lia|]. split; [exact Hkey|]. intros j Hj.
        destruct (Z.eq_dec j i) as [->|]; [eauto|]. apply Hbefore. lia.
Qed.

(** X18.  One step of [searchInternalNode]: it descends into the child of
    the first slot whose key is not below the search key, and into the
    child of the last slot when every key of the page is below it; it
    returns that child when the child is a leaf and searches on from the
    child otherwise. *)
Theorem searchInternalNode_routing fuel b pageNo key n page :
  getNumberOfKey b pageNo = Ok n ->
  searchInternalNode (S fuel) b pageNo key = Ok page ->
  exists r child,
    getChild b pageNo r = Ok child /\
    ((r = n - 1 /\
      forall j, 0 <= j < n -> exists x, getKey b pageNo j = Ok x /\ x < key) \/
     (0 <= r < n /\
      (exists x, getKey b pageNo r = Ok x /\ key <= x) /\
      forall j, 0 <= j < r ->
                exists x, getKey b pageNo j = Ok x /\ x < key)) /\
    exists t, getNodeType b child = Ok t /\
      if is_leaf t then page = child
      else searchInternalNode fuel b child key = Ok page.
Proof.
  intros Hn H. cbn [searchInternalNode] in H. rewrite Hn in H.
  cbn [mbind outcome_bind] in H.
  apply bind_Ok in H as (r & Hr & H). apply bind_Ok in H as (child & Hc & H).
  apply bind_Ok in H as (t & Ht & H).
  exists r, child. split; [exact Hc|]. split.
  - apply pick_slot_spec in Hr.
    destruct Hr as [[-> Hall]|(Hrange & Hkey & Hbefore)].
    + left. split; [reflexivity|]. intros j Hj. apply Hall. lia.
    + right. split; [lia|]. split; [exact Hkey|]. exact Hbefore.
  - exists t. split; [exact Ht|]. destruct (is_leaf t); [congruence|exact H].
Qed.

Lemma searchInternalNode_routing_witness :
  getNumberOfKey split_done 1 = Ok 2 /\
  searchInternalNode 1 split_done 1 50 = Ok 2 /\
  exists r child,
    getChild split_done 1 r = Ok child /\
    ((r = 2 - 1 /\
      forall j, 0 <= j < 2 ->
                exists x, getKey split_done 1 j = Ok x /\ x < 50) \/
     (0 <= r < 2 /\
      (exists x, getKey split_done 1 r = Ok x /\ 50 <= x) /\
      forall j, 0 <= j < r ->
                exists x, getKey split_done 1 j = Ok x /\ x < 50)) /\
    exists t, getNodeType split_done child = Ok t /\
      if is_leaf t then 2 = child
      else searchInternalNode 0 split_done child 50 = Ok 2.
Proof.
  assert (H1 : getNumberOfKey split_done 1 = Ok 2) by (vm_compute; reflexivity).
  assert (H2 : searchInternalNode 1 split_done 1 50 = Ok 2)
    by (vm_compute; reflexivity).
  split; [exact H1|]. split; [exact H2|].
  exact (searchInternalNode_routing 0 split_done 1 50 2 2 H1 H2).
Defined.

(** ** Page allocation *)

Lemma isUsed_rd b p :
  image_ok b -> 0 <= p < 32 ->
  exists x, rd (data b) (p * 512 + 5) 1 = [x] /\
            isUsed b p = Ok (Byte.eqb x nodeUsed).
Proof.
  intros Hb Hp. unfold isUsed. rewrite getPageData_in by assumption.
  cbn [mbind outcome_bind]. unfold index_get, offsetUsed. cbn [base slen].
  change ((0 <=? 5) && (5 <? 512)) with true. cbv iota.
  destruct (lookup_lt_is_Some_2 (data b) (Z.to_nat (p * 512 + 5)))
    as (x & Hx).
  { unfold image_ok, pageSize, len in Hb. lia. }
  rewrite Hx. exists x. split; [|reflexivity].
  rewrite <- (Z2Nat.id (p * 512 + 5)) by lia. apply lookup_as_rd. exact Hx.
Qed.

Lemma setUsed_wr b p v :
  image_ok b -> 0 <= p < 32 ->
  setUsed b p v = Ok (set_data b (wr (data b) (p * 512 + 5) [v])).
Proof.
  intros Hb Hp. unfold setUsed. rewrite getPageData_in by assumption.
  reflexivity.
Qed.

Lemma allocte_from_spec n : forall b i,
  image_ok b -> 0 <= i -> i + Z.of_nat n <= 32 ->
  exists p b',
    allocte_from n b i = Ok (p, b') /\
    ((p = 0 /\ b' = b /\
      forall j, i <= j < i + Z.of_nat n -> isUsed b j = Ok true) \/
     (i <= p < i + Z.of_nat n /\ isUsed b p = Ok false /\
      (forall j, i <= j < p -> isUsed b j = Ok true) /\
      b' = set_data b (wr (data b) (p * 512 + 5) [nodeUsed]))).
Proof.
  induction n as [|n IH]; intros b i Hb Hi Hn.
  - exists 0, b. split; [reflexivity|]. left.
    split; [reflexivity|]. split; [reflexivity|]. intros; lia.
  - cbn [allocte_from]. unfold u32. rewrite (Z.mod_small i) by lia.
    destruct (isUsed_rd b i Hb ltac:(lia)) as (x & Hx & Hu).
    rewrite Hu. cbn [mbind outcome_bind].
    destruct (Byte.eqb x nodeUsed) eqn:E.
    + destruct (IH b (i + 1) Hb ltac:(lia) ltac:(lia))
        as (p & b' & Hrun & Hcase).
      exists p, b'. split; [exact Hrun|].
      destruct Hcase as [(-> & -> & Hall)|(Hp & Hpu & Hbefore & ->)].
      * left. split; [reflexivity|]. split; [reflexivity|]. intros j Hj.
        destruct (Z.eq_dec j i) as [->|]; [exact Hu|]. apply Hall. lia.
      * right. split; [lia|]. split; [exact Hpu|]. split; [|reflexivity].
        intros j Hj. destruct (Z.eq_dec j i) as [->|]; [exact Hu|].
        apply Hbefore. lia.
    + rewrite setUsed_wr by (assumption || lia). cbn [mbind outcome_bind].
      eexists; eexists. split; [reflexivity|]. right.
      split; [lia|]. split; [exact Hu|]. split; [intros; lia|reflexivity].
Qed.

(** X19.  [allocte] on an image of 32 pages never fails.  It returns the
    lowest page of 2..31 whose used flag is not set and sets that flag,
    changing no other byte; when all of them are in use it returns 0 and
    leaves the tree as it is.  It never returns page 1. *)
Theorem allocte_first_unused b :
  image_ok b ->
  exists p b',
    allocte b = Ok (p, b') /\
    ((p = 0 /\ b' = b /\ forall j, 2 <= j < 32 -> isUsed b j = Ok true) \/
     (2 <= p < 32 /\ isUsed b p = Ok false /\
      (forall j, 2 <= j < p -> isUsed b j = Ok true) /\
      b' = set_data b (wr (data b) (p * 512 + 5) [nodeUsed]) /\
      isUsed b' p = Ok true)).
Proof.
  intros Hb. unfold allocte.
  destruct (allocte_from_spec 30 b 2 Hb ltac:(lia) ltac:(lia))
    as (p & b' & Hrun & Hcase).
  exists p, b'. split; [exact Hrun|].
  destruct Hcase as [(-> & -> & Hall)|(Hp & Hpu & Hbefore & ->)].
  - left. split; [reflexivity|]. split; [reflexivity|].
    intros j Hj. apply Hall. lia.
  - right. split; [lia|]. split; [exact Hpu|].
    split; [intros j Hj; apply Hbefore; lia|]. split; [reflexivity|].
    assert (Hb' : image_ok (set_data b (wr (data b) (p * 512 + 5) [nodeUsed]))).
    { apply image_ok_nest. unfold image_ok, pageSize in Hb.
      change (512 * 32) with 16384 in Hb. len_tac. }
    destruct (isUsed_rd _ p Hb' ltac:(lia)) as (x & Hx & Hu).
    rewrite Hu. rewrite data_set_data in Hx.
    unfold image_ok, pageSize in Hb. change (512 * 32) with 16384 in Hb.
    rewrite (rd_wr_same_L 16384) in Hx by side.
    injection Hx as <-. reflexivity.
Qed.

Lemma allocte_first_unused_witness :
  image_ok tree5 /\
  exists p b',
    allocte tree5 = Ok (p, b') /\
    ((p = 0 /\ b' = tree5 /\
      forall j, 2 <= j < 32 -> isUsed tree5 j = Ok true) \/
     (2 <= p < 32 /\ isUsed tree5 p = Ok false /\
      (forall j, 2 <= j < p -> isUsed tree5 j = Ok true) /\
      b' = set_data tree5 (wr (data tree5) (p * 512 + 5) [nodeUsed]) /\
      isUsed b' p = Ok true)).
Proof.
  assert (H : image_ok tree5) by (vm_compute; reflexivity).
  split; [exact H|]. exact (allocte_first_unused tree5 H).
Defined.

(** ** Copying a page *)

(** X20.  [copy] on an image of 32 pages makes page [dst] a copy of page
    [src] from byte 4 on, stores [dst] as the page number of the copy, and
    changes no byte outside page [dst]. *)
Theorem copy_duplicates_a_page b src dst :
  image_ok b -> 0 <= src < 32 -> 0 <= dst < 32 ->
  exists b',
    copy b src dst = Ok b' /\ image_ok b' /\
    getPageNo b' dst = Ok dst /\
    (forall off l, 4 <= off -> 0 <= l -> off + l <= 512 ->
       rd (data b') (dst * 512 + off) l = rd (data b) (src * 512 + off) l) /\
    (forall a l, 0 <= a -> 0 <= l ->
       a + l <= dst * 512 \/ dst * 512 + 512 <= a ->
       rd (data b') a l = rd (data b) a l).
Proof.
  intros Hb Hs Hd. pose proof (image_len _ Hb) as Hlen.
  unfold copy. rewrite !getPageData_in by assumption.
  cbn [mbind outcome_bind slen base]. change (Z.min 512 512) with 512.
  unfold store. cbn [base]. unfold setPageNo, offsetPageNo.
  set (blk := rd (data b) (src * 512) 512).
  assert (Hblk : len blk = 512) by (subst blk; apply len_rd; lia).
  assert (Hd1 : len (wr (data b) (dst * 512) blk) = 16384)
    by (apply len_wr_eq with (L := 16384); [exact Hlen|lia|lia]).
  rewrite setPageInt32_wr by (try apply image_ok_nest; assumption || lia).
  rewrite ?data_set_data, ?set_data_twice.
  eexists. split; [reflexivity|].
  assert (Hd2 : len (wr (wr (data b) (dst * 512) blk) (dst * 512 + 0)
                        (PutUint32 dst)) = 16384)
    by (apply len_wr_eq with (L := 16384); [exact Hd1|lia|len_norm; lia]).
  split; [apply image_ok_nest; exact Hd2|].
  split; [|split].
  - unfold getPageNo, offsetPageNo.
    rewrite getPageInt32_rd by (try apply image_ok_nest; assumption || lia).
    rewrite data_set_data.
    rewrite (rd_wr_same_L 16384) by (assumption || len_norm; lia).
    rewrite Uint32_Put. f_equal. apply Z.mod_small. lia.
  - intros off l Ho Hl Hin. rewrite data_set_data.
    rewrite (rd_wr_other_L 16384) by (assumption || len_norm; lia).
    rewrite rd_wr_inside by lia. subst blk. apply rd_rd; lia.
  - intros a l Ha Hl Hcase. rewrite data_set_data.
    rewrite (rd_wr_other_L 16384) by (assumption || len_norm; lia).
    apply (rd_wr_other_L 16384); (assumption || lia).
Qed.

Lemma copy_duplicates_a_page_witness :
  image_ok five_tree /\ 0 <= 1 < 32 /\ 0 <= 3 < 32 /\
  exists b',
    copy five_tree 1 3 = Ok b' /\ image_ok b' /\
    getPageNo b' 3 = Ok 3 /\
    (forall off l, 4 <= off -> 0 <= l -> off + l <= 512 ->
       rd (data b') (3 * 512 + off) l = rd (data five_tree) (1 * 512 + off) l) /\
    (forall a l, 0 <= a -> 0 <= l ->
       a + l <= 3 * 512 \/ 3 * 512 + 512 <= a ->
       rd (data b') a l = rd (data five_tree) a l).
Proof.
  assert (H : image_ok five_tree) by (vm_compute; reflexivity).
  assert (H1 : 0 <= 1 < 32) by lia. assert (H3 : 0 <= 3 < 32) by lia.
  split; [exact H|]. split; [exact H1|]. split; [exact H3|].
  exact (copy_duplicates_a_page five_tree 1 3 H H1 H3).
Defined.

(** ** Keys of a page *)

(** What [setKey] changes and what it leaves alone. *)
Lemma setKey_effect b p i k :
  image_ok b -> 0 <= p < 32 -> 0 <= i <= 39 ->
  exists b',
    setKey b p i k = Ok b' /\ image_ok b' /\ order b' = order b /\
    getKey b' p i = Ok (k mod 2^64) /\
    (forall p' j, 0 <= p' < 32 -> 0 <= j <= 39 -> p' <> p \/ j <> i ->
       getKey b' p' j = getKey b p' j) /\
    (forall p' j, 0 <= p' < 32 -> 0 <= j <= 38 ->
       getCellPtr b' p' j = getCellPtr b p' j) /\
    (forall p', 0 <= p' < 32 -> getNumberOfKey b' p' = getNumberOfKey b p').
Proof.
  intros Hb Hp Hi. pose proof (image_len _ Hb) as Hlen.
  rewrite setKey_wr by (assumption || lia).
  eexists. split; [reflexivity|].
  assert (Hb' : image_ok (set_data b (wr (data b) (p * 512 + (36 + 12 * i))
                                        (PutUint64 k))))
    by (apply image_ok_nest; len_tac).
  split; [exact Hb'|]. split; [reflexivity|]. split; [|split; [|split]].
  - rewrite getKey_rd by (assumption || lia). rewrite data_set_data.
    rewrite (rd_wr_same_L 16384) by side. apply Uint64_Put.
  - intros p' j Hp' Hj Hne. rewrite !getKey_rd by (assumption || lia).
    rewrite data_set_data. rewrite (rd_wr_other_L 16384) by side.
    reflexivity.
  - intros p' j Hp' Hj. rewrite !getCellPtr_rd by (assumption || lia).
    rewrite data_set_data. rewrite (rd_wr_other_L 16384) by side.
    reflexivity.
  - intros p' Hp'. unfold getNumberOfKey, offsetNumberOfKey.
    rewrite !getPageInt32_rd by (assumption || lia).
    rewrite data_set_data. rewrite (rd_wr_other_L 16384) by side.
    reflexivity.
Qed.

(** X21.  [setKey] and [getKey] round-trip: on an image of 32 pages and
    for a slot 0..39, [getKey] after [setKey] returns the key stored (as a
    uint64), every other key slot of every page reads as before, and so do
    all cell pointers and key counts. *)
Theorem setKey_then_getKey b p i k :
  image_ok b -> 0 <= p < 32 -> 0 <= i <= 39 ->
  exists b',
    setKey b p i k = Ok b' /\ image_ok b' /\
    getKey b' p i = Ok (k mod 2^64) /\
    (forall p' j, 0 <= p' < 32 -> 0 <= j <= 39 -> p' <> p \/ j <> i ->
       getKey b' p' j = getKey b p' j) /\
    (forall p' j, 0 <= p' < 32 -> 0 <= j <= 38 ->
       getCellPtr b' p' j = getCellPtr b p' j) /\
    (forall p', 0 <= p' < 32 -> getNumberOfKey b' p' = getNumberOfKey b p').
Proof.
  intros Hb Hp Hi.
  destruct (setKey_effect b p i k Hb Hp Hi)
    as (b' & H1 & H2 & _ & H3 & H4 & H5 & H6).
  exists b'. auto 10.
Qed.

Lemma setKey_then_getKey_witness :
  image_ok five_tree /\ 0 <= 1 < 32 /\ 0 <= 2 <= 39 /\
  exists b',
    setKey five_tree 1 2 35 = Ok b' /\ image_ok b' /\
    getKey b' 1 2 = Ok (35 mod 2^64) /\
    (forall p' j, 0 <= p' < 32 -> 0 <= j <= 39 -> p' <> 1 \/ j <> 2 ->
       getKey b' p' j = getKey five_tree p' j) /\
    (forall p' j, 0 <= p' < 32 -> 0 <= j <= 38 ->
       getCellPtr b' p' j = getCellPtr five_tree p' j) /\
    (forall p', 0 <= p' < 32 ->
       getNumberOfKey b' p' = getNumberOfKey five_tree p').
Proof.
  assert (H : image_ok five_tree) by (vm_compute; reflexivity).
  assert (H1 : 0 <= 1 < 32) by lia. assert (H2 : 0 <= 2 <= 39) by lia.
  split; [exact H|]. split; [exact H1|]. split; [exact H2|].
  exact (setKey_then_getKey five_tree 1 2 35 H H1 H2).
Defined.

Lemma updateKey_from_spec p old new : forall n b i,
  image_ok b -> 0 <= p < 32 -> 0 <= i -> i + Z.of_nat n <= 40 ->
  0 <= new < 2^64 ->
  exists b',
    updateKey_from n b p old new i = Ok b' /\ image_ok b' /\
    (forall j, i <= j < i + Z.of_nat n ->
       exists k, getKey b p j = Ok k /\
                 getKey b' p j = Ok (if k =? old then new else k)) /\
    (forall p' j, 0 <= p' < 32 -> 0 <= j <= 39 ->
       p' <> p \/ j < i \/ i + Z.of_nat n <= j ->
       getKey b' p' j = getKey b p' j) /\
    (forall p' j, 0 <= p' < 32 -> 0 <= j <= 38 ->
       getCellPtr b' p' j = getCellPtr b p' j) /\
    (forall p', 0 <= p' < 32 -> getNumberOfKey b' p' = getNumberOfKey b p').
Proof.
  induction n as [|n IH]; intros b i Hb Hp Hi Hn Hnew.
  - exists b. split; [reflexivity|]. split; [exact Hb|].
    split; [intros; lia|]. auto.
  - cbn [updateKey_from].
    destruct (getKey_some b p i Hb Hp ltac:(lia)) as (k & Hk & _).
    rewrite Hk. cbn [mbind outcome_bind].
    assert (Hstep : exists b1,
      (if k =? old then setKey b p i new else Ok b) = Ok b1 /\ image_ok b1 /\
      getKey b1 p i = Ok (if k =? old then new else k) /\
      (forall p' j, 0 <= p' < 32 -> 0 <= j <= 39 -> p' <> p \/ j <> i ->
         getKey b1 p' j = getKey b p' j) /\
      (forall p' j, 0 <= p' < 32 -> 0 <= j <= 38 ->
         getCellPtr b1 p' j = getCellPtr b p' j) /\
      (forall p', 0 <= p' < 32 ->
         getNumberOfKey b1 p' = getNumberOfKey b p')).
    { destruct (k =? old).
      - destruct (setKey_effect b p i new Hb Hp ltac:(lia))
          as (b1 & H1 & H2 & _ & H3 & H4 & H5 & H6).
        exists b1. rewrite Z.mod_small in H3 by lia. auto 10.
      - exists b. auto 10. }
    destruct Hstep as (b1 & Hrun1 & Hb1 & Hki & Hko & Hcp & Hnk).
    rewrite Hrun1. cbn [mbind outcome_bind].
    destruct (IH b1 (i + 1) Hb1 Hp ltac:(lia) ltac:(lia) Hnew)
      as (b' & Hrun & Hb' & Hin & Hout & Hcp' & Hnk').
    exists b'. split; [exact Hrun|]. split; [exact Hb'|].
    split; [|split; [|split]].
    + intros j Hj. destruct (Z.eq_dec j i) as [->|Hne].
      * exists k. split; [exact Hk|].
        rewrite Hout by lia. exact Hki.
      * destruct (Hin j ltac:(lia)) as (k' & Hk' & Hres).
        exists k'. rewrite Hko in Hk' by lia. auto.
    + intros p' j Hp' Hj Hcase. rewrite Hout by lia. apply Hko; lia.
    + intros p' j Hp' Hj. rewrite Hcp' by lia. apply Hcp; lia.
    + intros p' Hp'. rewrite Hnk' by lia. apply Hnk; lia.
Qed.

(** X22.  [updateKey] replaces every occurrence of the old key among the
    live slots of the page, not only the first: afterwards each live slot
    that held the old key holds the new one, every other key slot, every
    cell pointer and every key count reads as before. *)
Theorem updateKey_replaces_every_match b p old new n :
  image_ok b -> 0 <= p < 32 -> getNumberOfKey b p = Ok n -> n <= 40 ->
  0 <= new < 2^64 ->
  exists b',
    updateKey b p old new = Ok b' /\ image_ok b' /\
    (forall j, 0 <= j < n ->
       exists k, getKey b p j = Ok k /\
                 getKey b' p j = Ok (if k =? old then new else k)) /\
    (forall p' j, 0 <= p' < 32 -> 0 <= j <= 39 -> p' <> p \/ n <= j ->
       getKey b' p' j = getKey b p' j) /\
    (forall p' j, 0 <= p' < 32 -> 0 <= j <= 38 ->
       getCellPtr b' p' j = getCellPtr b p' j) /\
    (forall p', 0 <= p' < 32 -> getNumberOfKey b' p' = getNumberOfKey b p').
Proof.
  intros Hb Hp Hn Hn40 Hnew.
  pose proof (getNumberOfKey_range _ _ _ Hb Hp Hn) as Hrange.
  unfold updateKey. rewrite Hn. cbn [mbind outcome_bind].
  destruct (updateKey_from_spec p old new (Z.to_nat n) b 0 Hb Hp
              ltac:(lia) ltac:(lia) Hnew)
    as (b' & Hrun & Hb' & Hin & Hout & Hcp & Hnk).
  exists b'. split; [exact Hrun|]. split; [exact Hb'|].
  split; [|split; [|split]].
  - intros j Hj. apply Hin. lia.
  - intros p' j Hp' Hj Hcase. apply Hout; lia.
  - exact Hcp.
  - exact Hnk.
Qed.

Lemma updateKey_replaces_every_match_witness :
  image_ok five_tree /\ 0 <= 1 < 32 /\
  getNumberOfKey five_tree 1 = Ok 5 /\ 5 <= 40 /\ 0 <= 35 < 2^64 /\
  exists b',
    updateKey five_tree 1 30 35 = Ok b' /\ image_ok b' /\
    (forall j, 0 <= j < 5 ->
       exists k, getKey five_tree 1 j = Ok k /\
                 getKey b' 1 j = Ok (if k =? 30 then 35 else k)) /\
    (forall p' j, 0 <= p' < 32 -> 0 <= j <= 39 -> p' <> 1 \/ 5 <= j ->
       getKey b' p' j = getKey five_tree p' j) /\
    (forall p' j, 0 <= p' < 32 -> 0 <= j <= 38 ->
       getCellPtr b' p' j = getCellPtr five_tree p' j) /\
    (forall p', 0 <= p' < 32 ->
       getNumberOfKey b' p' = getNumberOfKey five_tree p').
Proof.
  assert (H : image_ok five_tree) by (vm_compute; reflexivity).
  assert (H1 : 0 <= 1 < 32) by lia.
  assert (H2 : getNumberOfKey five_tree 1 = Ok 5) by (vm_compute; reflexivity).
  assert (H3 : 5 <= 40) by lia. assert (H4 : 0 <= 35 < 2^64) by lia.
  split; [exact H|]. split; [exact H1|]. split; [exact H2|].
  split; [exact H3|]. split; [exact H4|].
  exact (updateKey_replaces_every_match five_tree 1 30 35 5 H H1 H2 H3 H4).
Defined.

(** ** A fresh tree *)

Lemma CreateTree_data order :
  CreateTree order = Ok (mkTree (data tree5) rootPageNo order).
Proof. vm_compute. reflexivity. Qed.

Lemma fresh_pages order :
  forallb (fresh_page (mkTree (data tree5) rootPageNo order)) pages = true.
Proof. vm_compute. reflexivity. Qed.

(** X23.  [CreateTree] succeeds for every order.  The tree it returns
    has an image of 32 pages, carries the order it was given and names
    page 1 as its first leaf; the root is a leaf; every page holds its own
    page number, the usable pointer 504, no keys, no parent and no next
    page; and page 1 is the only page marked used. *)
Theorem CreateTree_fresh_image order :
  exists t,
    CreateTree order = Ok t /\ image_ok t /\
    Btree.order t = order /\ leaf t = rootPageNo /\
    getNodeType t rootPageNo = Ok nodeTypeLeaf /\
    forall p, 0 <= p < 32 ->
      getPageNo t p = Ok p /\ getUsablePtr t p = Ok offsetPayload /\
      getNumberOfKey t p = Ok 0 /\ getParent t p = Ok 0 /\
      getNext t p = Ok 0 /\ isUsed t p = Ok (p =? rootPageNo).
Proof.
  exists (mkTree (data tree5) rootPageNo order).
  split; [apply CreateTree_data|].
  split; [vm_compute; reflexivity|].
  split; [reflexivity|]. split; [reflexivity|].
  split; [vm_compute; reflexivity|].
  intros p Hp.
  pose proof (fresh_pages order) as Hall.
  rewrite forallb_forall in Hall.
  assert (Hin : In p pages).
  { unfold pages. apply in_map_iff. exists (Z.to_nat p).
    split; [lia|]. apply in_seq. lia. }
  specialize (Hall p Hin). unfold fresh_page in Hall.
  destruct (getPageNo _ p) as [no| |]; try discriminate.
  destruct (getUsablePtr _ p) as [u| |]; try discriminate.
  destruct (getNumberOfKey _ p) as [n| |]; try discriminate.
  destruct (getParent _ p) as [parent| |]; try discriminate.
  destruct (getNext _ p) as [next| |]; try discriminate.
  destruct (isUsed _ p) as [used| |]; try discriminate.
  apply andb_prop in Hall as [Hall H6]. apply andb_prop in Hall as [Hall H5].
  apply andb_prop in Hall as [Hall H4]. apply andb_prop in Hall as [Hall H3].
  apply andb_prop in Hall as [H1 H2].
  apply Z.eqb_eq in H1, H2, H3, H4, H5. apply Bool.eqb_prop in H6.
  subst. auto 10.
Qed.

(** ** Range search *)

Lemma range_keys_filter key1 key2 : forall n b page i ks,
  keys_from n b page i = Ok ks ->
  range_keys n b page key1 key2 i
  = Ok (List.filter (fun k => (k >=? key1) && (k <=? key2)) ks).
Proof.
  induction n as [|n IH]; intros b page i ks H; simpl in H.
  - injection H as <-. reflexivity.
  - apply bind_Ok in H as (k & Hk & H). apply bind_Ok in H as (rest & Hr & H).
    injection H as <-. cbn [range_keys]. rewrite Hk.
    cbn [mbind outcome_bind]. rewrite (IH _ _ _ _ Hr).
    cbn [mbind outcome_bind List.filter].
    destruct ((k >=? key1) && (k <=? key2)); reflexivity.
Qed.

(** X24.  On a tree whose root is a leaf, [RangeSearch] prints the keys
    of the root's live slots that lie between [key1] and [key2], both
    included, in slot order, and stops. *)
Theorem RangeSearch_on_a_leaf_root fuel b key1 key2 ks :
  getNodeType b rootPageNo = Ok nodeTypeLeaf ->
  page_keys b rootPageNo = Ok ks ->
  RangeSearch (S fuel) b key1 key2
  = Ok (List.filter (fun k => (k >=? key1) && (k <=? key2)) ks).
Proof.
  intros Ht Hks. unfold RangeSearch, search. rewrite Ht.
  cbn [mbind outcome_bind]. change (is_leaf nodeTypeLeaf) with true.
  cbv iota. cbn [mbind outcome_bind range_pages].
  unfold page_keys in Hks. apply bind_Ok in Hks as (n & Hn & Hks).
  rewrite Hn. cbn [mbind outcome_bind].
  rewrite (range_keys_filter _ _ _ _ _ _ _ Hks). cbn [mbind outcome_bind].
  rewrite Z.eqb_refl. reflexivity.
Qed.

Lemma RangeSearch_on_a_leaf_root_witness :
  getNodeType five_tree rootPageNo = Ok nodeTypeLeaf /\
  page_keys five_tree rootPageNo = Ok [10; 20; 30; 40; 50] /\
  RangeSearch 1 five_tree 20 45
  = Ok (List.filter (fun k => (k >=? 20) && (k <=? 45)) [10; 20; 30; 40; 50]).
Proof.
  assert (H1 : getNodeType five_tree rootPageNo = Ok nodeTypeLeaf)
    by (vm_compute; reflexivity).
  assert (H2 : page_keys five_tree rootPageNo = Ok [10; 20; 30; 40; 50])
    by (vm_compute; reflexivity).
  split; [exact H1|]. split; [exact H2|].
  exact (RangeSearch_on_a_leaf_root 0 five_tree 20 45 _ H1 H2).
Defined.

Lemma range_pages_spins b endPage key1 key2 :
  getNext b 0 = Ok 0 -> endPage <> 0 ->
  forall fuel out, range_pages fuel b 0 endPage key1 key2 <> Ok out.
Proof.
  intros Hnext Hend fuel. induction fuel as [|fuel IH]; intros out H;
    cbn [range_pages] in H; [discriminate|].
  apply bind_Ok in H as (n & _ & H). apply bind_Ok in H as (ks & _ & H).
  destruct (Z.eqb_spec 0 endPage) as [E|_]; [congruence|].
  rewrite Hnext in H. cbn [mbind outcome_bind] in H.
  apply bind_Ok in H as (rest & Hrest & _). exact (IH _ Hrest).
Qed.

Lemma searchInternalNode_fuel f1 : forall f2 b pageNo key page x,
  searchInternalNode f1 b pageNo key = Ok page ->
  searchInternalNode f2 b pageNo key = Ok x -> x = page.
Proof.
  induction f1 as [|f1 IH]; intros f2 b pageNo key page x H1 H2;
    [discriminate|].
  destruct f2 as [|f2]; [discriminate|]. simpl in H1, H2.
  apply bind_Ok in H1 as (n & Hn & H1). rewrite Hn in H2.
  cbn [mbind outcome_bind] in H2.
  apply bind_Ok in H1 as (k & Hk & H1). rewrite Hk in H2.
  cbn [mbind outcome_bind] in H2.
  apply bind_Ok in H1 as (c & Hc & H1). rewrite Hc in H2.
  cbn [mbind outcome_bind] in H2.
  apply bind_Ok in H1 as (t & Ht & H1). rewrite Ht in H2.
  cbn [mbind outcome_bind] in H2.
  destruct (is_leaf t); [congruence|]. eapply IH; eauto.
Qed.

Lemma search_fuel f1 f2 b key page x :
  search f1 b key = Ok page -> search f2 b key = Ok x -> x = page.
Proof.
  unfold search. intros H1 H2.
  apply bind_Ok in H1 as (t & Ht & H1). rewrite Ht in H2.
  cbn [mbind outcome_bind] in H2.
  destruct (is_leaf t); [congruence|]. eapply searchInternalNode_fuel; eauto.
Qed.

(** X25.  [RangeSearch] does not stop at the end of the leaf chain.  When
    the leaf of [key1] is not the leaf of [key2], has no next leaf (its
    next field is 0), and page 0 has the next field 0 as [CreateTree]
    leaves it, the loop moves to page 0 and stays there: [RangeSearch]
    returns for no amount of fuel. *)
Theorem RangeSearch_never_returns_past_the_last_leaf
  f0 b key1 key2 startPage endPage :
  search f0 b key1 = Ok startPage -> search f0 b key2 = Ok endPage ->
  startPage <> endPage -> endPage <> 0 ->
  getNext b startPage = Ok 0 -> getNext b 0 = Ok 0 ->
  forall fuel out, RangeSearch fuel b key1 key2 <> Ok out.
Proof.
  intros Hs He Hne He0 Hn Hn0 fuel out H. unfold RangeSearch in H.
  apply bind_Ok in H as (s & Hs' & H). apply bind_Ok in H as (e & He' & H).
  assert (s = startPage) by (eapply search_fuel; eauto).
  assert (e = endPage) by (eapply search_fuel; eauto). subst s e.
  destruct fuel as [|fuel]; [discriminate|]. cbn [range_pages] in H.
  apply bind_Ok in H as (n & _ & H). apply bind_Ok in H as (ks & _ & H).
  destruct (Z.eqb_spec startPage endPage) as [E|_]; [congruence|].
  rewrite Hn in H. cbn [mbind outcome_bind] in H.
  apply bind_Ok in H as (rest & Hrest & _).
  exact (range_pages_spins b endPage key1 key2 Hn0 He0 fuel rest Hrest).
Qed.

Lemma RangeSearch_never_returns_past_the_last_leaf_witness :
  search 2 split_done 50 = Ok 2 /\ search 2 split_done 10 = Ok 3 /\
  2 <> 3 /\ 3 <> 0 /\
  getNext split_done 2 = Ok 0 /\ getNext split_done 0 = Ok 0 /\
  forall fuel out, RangeSearch fuel split_done 50 10 <> Ok out.
Proof.
  assert (H1 : search 2 split_done 50 = Ok 2) by (vm_compute; reflexivity).
  assert (H2 : search 2 split_done 10 = Ok 3) by (vm_compute; reflexivity).
  assert (H3 : 2 <> 3) by lia. assert (H4 : 3 <> 0) by lia.
  assert (H5 : getNext split_done 2 = Ok 0) by (vm_compute; reflexivity).
  assert (H6 : getNext split_done 0 = Ok 0) by (vm_compute; reflexivity).
  split; [exact H1|]. split; [exact H2|]. split; [exact H3|].
  split; [exact H4|]. split; [exact H5|]. split; [exact H6|].
  exact (RangeSearch_never_returns_past_the_last_leaf 2 split_done 50 10 2 3
           H1 H2 H3 H4 H5 H6).
Defined.

(** ** Entries of a leaf *)

Lemma entry_put_same key v es : entry key (put key v es) = Some v.
Proof.
  induction es as [|[k w] es IH]; simpl.
  - rewrite Z.eqb_refl. reflexivity.
  - destruct (Z.ltb_spec k key) as [Hlt|Hge]; simpl.
    + destruct (Z.eqb_spec k key); [lia|]. exact IH.
    + rewrite Z.eqb_refl. reflexivity.
Qed.

Lemma entry_put_other key v es key' :
  key' <> key -> entry key' (put key v es) = entry key' es.
Proof.
  intros Hne. induction es as [|[k w] es IH]; simpl.
  - destruct (Z.eqb_spec key key'); [congruence|reflexivity].
  - destruct (Z.ltb_spec k key) as [Hlt|Hge]; simpl.
    + rewrite IH. reflexivity.
    + destruct (Z.eqb_spec key key'); [congruence|reflexivity].
Qed.

Lemma length_put key v es : length (put key v es) = S (length es).
Proof.
  induction es as [|[k w] es IH]; simpl; [reflexivity|].
  destruct (k <? key); simpl; [rewrite IH|]; reflexivity.
Qed.

(** In an ascending list, [put] is insertion at the position where the
    keys stop being below the new key. *)
Lemma put_at key v : forall es k,
  (k <= length es)%nat ->
  (forall i e, (i < k)%nat -> es !! i = Some e -> fst e < key) ->
  (forall i e, (k <= i)%nat -> es !! i = Some e -> key <= fst e) ->
  put key v es = take k es ++ (key, v) :: drop k es.
Proof.
  induction es as [|[k0 w] es IH]; intros k Hk Hlt Hge.
  - simpl in Hk. replace k with 0%nat by lia. reflexivity.
  - destruct k as [|k].
    + simpl. specialize (Hge 0%nat (k0, w) ltac:(lia) eq_refl). simpl in Hge.
      destruct (Z.ltb_spec k0 key); [lia|]. reflexivity.
    + simpl. specialize (Hlt 0%nat (k0, w) ltac:(lia) eq_refl) as H0.
      simpl in H0. destruct (Z.ltb_spec k0 key); [|lia].
      f_equal. apply IH.
      * simpl in Hk. lia.
      * intros i e Hi He. apply (Hlt (S i) e); [lia|exact He].
      * intros i e Hi He. apply (Hge (S i) e); [lia|exact He].
Qed.

Lemma keys_ascend_put key v es :
  keys_ascend es -> keys_ascend (put key v es).
Proof.
  induction es as [|[k w] es IH]; intros Hs.
  - intros i j ei ej Hij Hi Hj. simpl in Hi, Hj.
    destruct i; [|discriminate]. destruct j; [|discriminate].
    injection Hi as <-. injection Hj as <-. lia.
  - simpl. destruct (Z.ltb_spec k key) as [Hlt|Hge].
    + assert (Hs' : keys_ascend es).
      { intros i j ei ej Hij Hi Hj. apply (Hs (S i) (S j)); [lia|exact Hi|exact Hj]. }
      specialize (IH Hs').
      assert (Hmin : forall j e, put key v es !! j = Some e -> k <= fst e).
      { clear IH. intros j e. revert j.
        assert (Hk : forall j e', es !! j = Some e' -> k <= fst e').
        { intros j e' He'. apply (Hs 0%nat (S j) (k, w) e'); [lia|reflexivity|exact He']. }
        clear Hs Hs'. induction es as [|[k1 w1] es IHes]; intros j He; simpl in He.
        - destruct j; [|discriminate]. injection He as <-. simpl. lia.
        - destruct (k1 <? key).
          + destruct j; simpl in He.
            * injection He as <-. apply (Hk 0%nat (k1, w1)). reflexivity.
            * apply (IHes (fun j e' H => Hk (S j) e' H) j He).
          + destruct j; simpl in He.
            * injection He as <-. simpl. lia.
            * apply (Hk j e He). }
      intros i j ei ej Hij Hi Hj. destruct i as [|i]; simpl in Hi.
      * injection Hi as <-. simpl. destruct j as [|j]; simpl in Hj.
        -- injection Hj as <-. simpl. lia.
        -- apply (Hmin j ej Hj).
      * destruct j as [|j]; [lia|]. simpl in Hj.
        apply (IH i j); [lia|exact Hi|exact Hj].
    + intros i j ei ej Hij Hi Hj. destruct i as [|i]; simpl in Hi.
      * injection Hi as <-. simpl. destruct j as [|j]; simpl in Hj.
        -- injection Hj as <-. simpl. lia.
        -- assert (k <= fst ej).
           { apply (Hs 0%nat j (k, w) ej); [lia|reflexivity|exact Hj]. }
           lia.
      * destruct j as [|j]; [lia|]. simpl in Hj.
        apply (Hs i j); [lia|exact Hi|exact Hj].
Qed.

Lemma entry_put_all key : forall kvs es,
  entry key (put_all kvs es)
  = fold_left (fun acc kv => if fst kv =? key then Some (snd kv) else acc)
              kvs (entry key es).
Proof.
  induction kvs as [|[k v] kvs IH]; intros es; [reflexivity|].
  unfold put_all in *. simpl. rewrite IH. f_equal.
  destruct (Z.eqb_spec k key) as [->|Hne].
  - apply entry_put_same.
  - apply entry_put_other. congruence.
Qed.

Lemma lookup_put_at {A} (es : list A) (x : A) k i :
  (k <= length es)%nat ->
  (take k es ++ x :: drop k es) !! i =
    if decide (i < k)%nat then es !! i
    else if decide (i = k) then Some x
    else es !! (i - 1)%nat.
Proof.
  intros Hk. case_decide as H1.
  - rewrite lookup_app_l by (rewrite length_take; lia).
    apply lookup_take_lt. exact H1.
  - rewrite lookup_app_r by (rewrite length_take; lia).
    rewrite length_take. replace (k `min` length es)%nat with k by lia.
    case_decide as H2.
    + subst i. rewrite Nat.sub_diag. reflexivity.
    + destruct (i - k)%nat as [|j] eqn:E; [lia|]. simpl.
      rewrite lookup_drop. f_equal. lia.
Qed.

(** ** Inserting into a root that is a leaf *)

Lemma getKeyIndex_from_some b p key : forall n i,
  image_ok b -> 0 <= p < 32 -> 0 <= i -> i + Z.of_nat n <= 40 ->
  exists r, getKeyIndex_from n b p key i = Ok r /\
            (r = -1 \/ i <= r < i + Z.of_nat n).
Proof.
  induction n as [|n IH]; intros i Hb Hp Hi Hn.
  - exists (-1). split; [reflexivity|]. left. reflexivity.
  - cbn [getKeyIndex_from].
    destruct (getKey_some b p i Hb Hp ltac:(lia)) as (k & Hk & _).
    rewrite Hk. cbn [mbind outcome_bind].
    destruct (k =? key).
    + exists i. split; [reflexivity|]. right. lia.
    + destruct (IH (i + 1) Hb Hp ltac:(lia) ltac:(lia)) as (r & Hr & Hc).
      exists r. split; [exact Hr|]. destruct Hc; [left; assumption|right; lia].
Qed.

(** [getKeyCell] returns when the live slots of the page point inside
    it. *)
Lemma getKeyCell_some b p k n :
  image_ok b -> 0 <= p < 32 -> getNumberOfKey b p = Ok n -> n <= 39 ->
  (forall j c, 0 <= j < n -> getCellPtr b p j = Ok c -> c <= 504) ->
  exists oc, getKeyCell b p k = Ok oc.
Proof.
  intros Hb Hp Hn Hn39 Hptr. pose proof (image_len _ Hb) as Hlen.
  assert (H0 : 0 <= n).
  { unfold getNumberOfKey, offsetNumberOfKey in Hn.
    rewrite getPageInt32_rd in Hn by (assumption || lia).
    apply Uint32_range in Hn. lia. }
  unfold getKeyCell, getKeyIndex. rewrite Hn. cbn [mbind outcome_bind].
  destruct (getKeyIndex_from_some b p k (Z.to_nat n) 0 Hb Hp ltac:(lia)
              ltac:(lia)) as (r & Hr & Hcase).
  rewrite Hr. cbn [mbind outcome_bind].
  destruct (Z.eqb_spec r (-1)) as [|Hne]; [eauto|].
  destruct Hcase as [|Hrange]; [contradiction|].
  destruct (getCellPtr_some b p r Hb Hp ltac:(lia)) as (c & Hc & Hc0).
  rewrite Hc. cbn [mbind outcome_bind].
  pose proof (Hptr r c ltac:(lia) Hc) as Hc504.
  destruct (getNodeType_some b p Hb Hp) as (t & Ht).
  rewrite Ht. cbn [mbind outcome_bind].
  rewrite getPageData_in by assumption.
  destruct (is_leaf t); cbn [mbind outcome_bind].
  - unfold subslice_from, u32. cbn [base slen].
    rewrite (Z.mod_small (c + 4)) by lia.
    destruct (Z.leb_spec 0 (c + 4)); [|lia].
    destruct (Z.leb_spec (c + 4) 512); [|lia].
    cbn [andb mbind outcome_bind]. unfold view. cbn [base slen].
    destruct (Uint32_total (rd (data b) (p * 512 + (c + 4)) (512 - (c + 4))))
      as (ps & Hps).
    { rewrite len_rd; lia. }
    rewrite Hps. cbn [mbind outcome_bind].
    match goal with |- context [blockCopy ?s ?a ?d ?o ?cnt] =>
      destruct (blockCopy_some s a d o cnt) as (cell & Hcell); try lia
    end.
    rewrite Hcell. cbn [mbind outcome_bind]. eauto.
  - match goal with |- context [blockCopy ?s ?a ?d ?o ?cnt] =>
      destruct (blockCopy_some s a d o cnt) as (cell & Hcell); try lia
    end.
    rewrite Hcell. cbn [mbind outcome_bind]. eauto.
Qed.

(** [insertOrUpdateCell] into a slot whose cell pointer is 0: the cell is
    put right below the usable pointer, which moves down by its length. *)
Lemma insertOrUpdateCell_fresh b p i cell u k oc :
  image_ok b -> 0 <= p < 32 -> 0 <= i <= 38 ->
  getCellPtr b p i = Ok 0 -> getUsablePtr b p = Ok u ->
  getKey b p i = Ok k -> getKeyCell b p k = Ok oc ->
  1 <= len cell -> len cell <= u <= 512 ->
  insertOrUpdateCell b p i cell
  = Ok (set_data b
          (wr (wr (wr (data b) (p * 512 + (44 + 12 * i))
                      (PutUint32 (u - len cell)))
                  (p * 512 + 12) (PutUint32 (u - len cell)))
              (p * 512 + (u - len cell)) cell)).
Proof.
  intros Hb Hp Hi Hptr Hu Hk Hoc Hc1 Hcu.
  pose proof (image_len _ Hb) as Hlen.
  unfold insertOrUpdateCell.
  rewrite Hptr. cbn [mbind outcome_bind].
  rewrite getPageData_in by assumption. cbn [mbind outcome_bind].
  rewrite Hk. cbn [mbind outcome_bind]. rewrite Hoc.
  cbn [mbind outcome_bind]. change (0 =? 0) with true. cbv iota.
  rewrite Hu. cbn [mbind outcome_bind].
  unfold u32. rewrite (Z.mod_small (len cell)) by lia.
  rewrite (Z.mod_small (u - len cell)) by lia.
  rewrite setCellPtr_wr by (assumption || lia).
  cbn [mbind outcome_bind].
  rewrite setUsablePtr_wr by (try apply image_ok_nest; try len_tac; lia).
  cbn [mbind outcome_bind].
  rewrite ?data_set_data, ?set_data_twice.
  unfold view, store. cbn [base slen].
  rewrite ?data_set_data, ?set_data_twice.
  set (d2 := wr (wr (data b) _ _) _ _).
  assert (Hd2 : len d2 = 16384) by (subst d2; len_tac).
  unfold blockCopy. rewrite len_rd by lia.
  destruct (Z.gtb_spec 0 (len cell)); [lia|].
  destruct (Z.gtb_spec (len cell) (len cell)); [lia|].
  destruct (Z.gtb_spec (0 + len cell) (len cell)); [lia|].
  destruct (Z.gtb_spec (u - len cell + 0) 512); [lia|].
  destruct (Z.gtb_spec (len cell) 512); [lia|].
  destruct (Z.gtb_spec (u - len cell + 0 + len cell) 512); [lia|].
  cbn [orb]. destruct (Z.leb_spec (len cell) 0); [lia|].
  destruct (Z.ltb_spec 0 0); [lia|].
  destruct (Z.ltb_spec (u - len cell + 0) 0); [lia|].
  cbn [orb mbind outcome_bind].
  rewrite rd_all. do 2 f_equal.
  rewrite wr_view by lia. f_equal. lia.
Qed.

(** The loop of [insertAndNotSplit] on a page whose first [m] slots hold
    the keys [K j] and the cell pointers [C j] and whose slot [m] has no
    cell: it stops below the slots whose keys are not below [key], having
    moved each of them one slot up, and leaves a slot without a cell at
    the position [k] it returns. *)
Lemma open_gap_spec p key (K C : Z -> Z) : forall m b,
  image_ok b -> 0 <= p < 32 -> Z.of_nat m <= 38 ->
  (forall j, 0 <= j < Z.of_nat m ->
     getKey b p j = Ok (K j) /\ getCellPtr b p j = Ok (C j)) ->
  getCellPtr b p (Z.of_nat m) = Ok 0 ->
  exists d' k,
    open_gap m b p key (Z.of_nat m) = Ok (set_data b d', k) /\
    0 <= k <= Z.of_nat m /\
    (k = 0 \/ K (k - 1) < key) /\
    (forall j, k <= j < Z.of_nat m -> key <= K j) /\
    len d' = 16384 /\
    getCellPtr (set_data b d') p k = Ok 0 /\
    (forall j, k < j <= Z.of_nat m ->
       getKey (set_data b d') p j = Ok (K (j - 1)) /\
       getCellPtr (set_data b d') p j = Ok (C (j - 1))) /\
    (forall a l, 0 <= a -> 0 <= l ->
       a + l <= p * 512 + 36 + 12 * k \/
       p * 512 + 48 + 12 * Z.of_nat m <= a ->
       rd d' a l = rd (data b) a l).
Proof.
  induction m as [|m IH]; intros b Hb Hp Hm Hslots Hfree.
  - exists (data b), 0. rewrite set_data_id. split; [reflexivity|].
    split; [simpl; lia|]. split; [left; reflexivity|].
    split; [intros; simpl in *; lia|]. split; [exact Hb|].
    split; [exact Hfree|]. split; [intros; simpl in *; lia|]. reflexivity.
  - pose proof (image_len _ Hb) as Hlen.
    cbn [open_gap]. cbv zeta.
    destruct (Hslots (Z.of_nat m) ltac:(lia)) as [Hk Hc].
    rewrite Hk. cbn [mbind outcome_bind]. rewrite Hc.
    cbn [mbind outcome_bind].
    assert (HK : 0 <= K (Z.of_nat m) < 2^64).
    { rewrite getKey_rd in Hk by (assumption || lia).
      eapply Uint64_range; eauto. }
    assert (HC : 0 <= C (Z.of_nat m) < 2^32).
    { rewrite getCellPtr_rd in Hc by (assumption || lia).
      eapply Uint32_range; eauto. }
    destruct (Z.ltb_spec (K (Z.of_nat m)) key) as [Hlt|Hge].
    + exists (data b), (Z.of_nat m + 1). rewrite set_data_id.
      split; [reflexivity|]. split; [lia|].
      split; [right; replace (Z.of_nat m + 1 - 1) with (Z.of_nat m) by lia;
              exact Hlt|].
      split; [intros; lia|]. split; [exact Hlen|].
      split; [replace (Z.of_nat m + 1) with (Z.of_nat (S m)) by lia;
              exact Hfree|].
      split; [intros; lia|]. reflexivity.
    + rewrite setKey_wr by (assumption || lia). cbn [mbind outcome_bind].
      rewrite setCellPtr_wr by (try apply image_ok_nest; try len_tac; lia).
      cbn [mbind outcome_bind]. rewrite ?data_set_data, ?set_data_twice.
      rewrite setCellPtr_wr by (try apply image_ok_nest; try len_tac; lia).
      cbn [mbind outcome_bind]. rewrite ?data_set_data, ?set_data_twice.
      set (d3 := wr (wr (wr (data b) _ _) _ _) _ _).
      assert (Hd3 : len d3 = 16384) by (subst d3; len_tac).
      assert (Hb3 : image_ok (set_data b d3)) by (apply image_ok_nest; exact Hd3).
      assert (Hfr3 : forall a l, 0 <= a -> 0 <= l ->
                a + l <= p * 512 + 44 + 12 * Z.of_nat m \/
                p * 512 + 48 + 12 * (Z.of_nat m + 1) <= a ->
                rd d3 a l = rd (data b) a l).
      { intros a l Ha Hl Hcase. subst d3. rd_tac 16384. reflexivity. }
      destruct (IH (set_data b d3) Hb3 Hp ltac:(lia)) as (d' & k & Hrun & Hk0 & Hstop & Hge' & Hd' & Hfree' & Hmoved & Hframe).
      { intros j Hj. rewrite getKey_rd, getCellPtr_rd by (assumption || lia).
        rewrite data_set_data. rewrite !Hfr3 by lia.
        rewrite <- getKey_rd, <- getCellPtr_rd by (assumption || lia).
        apply Hslots. lia. }
      { rewrite getCellPtr_rd by (assumption || lia). rewrite data_set_data.
        subst d3. rd_tac 16384. apply Uint32_Put. }
      rewrite set_data_twice in *. rewrite data_set_data in Hframe.
      exists d', k. split; [exact Hrun|]. split; [lia|].
      split; [exact Hstop|].
      split.
      { intros j Hj. destruct (Z.eq_dec j (Z.of_nat m)) as [->|]; [lia|].
        apply Hge'. lia. }
      split; [exact Hd'|]. split; [exact Hfree'|].
      split.
      { intros j Hj. destruct (Z.eq_dec j (Z.of_nat m + 1)) as [->|Hne].
        - replace (Z.of_nat m + 1 - 1) with (Z.of_nat m) by lia.
          assert (Hbd : image_ok (set_data b d')) by (apply image_ok_nest; exact Hd').
          rewrite getKey_rd, getCellPtr_rd by (assumption || lia).
          rewrite data_set_data. rewrite !Hframe by lia.
          subst d3. split.
          + rd_tac 16384. rewrite Uint64_Put. f_equal. apply Z.mod_small. lia.
          + rd_tac 16384. rewrite Uint32_Put. f_equal. apply Z.mod_small. lia.
        - apply Hmoved. lia. }
      intros a l Ha Hl Hcase. rewrite Hframe by lia. apply Hfr3; lia.
Qed.

(** [Insert] into a root leaf that has room: no split, the new entry goes
    into the slot that keeps the keys ascending, its cell right below the
    usable pointer. *)
Lemma leaf_root_Insert fuel b es u key v :
  leaf_root b es u ->
  Z.of_nat (length es) <> order b mod 2^32 ->
  0 <= key < 2^64 ->
  48 + 12 * (Z.of_nat (length es) + 1) <= u - 8 - len v ->
  exists b',
    Insert (S fuel) b key (Some v) = Ok b' /\ order b' = order b /\
    leaf_root b' (put key v es) (u - 8 - len v).
Proof.
  intros (Hb & Ht & Hpar & Hn & Hu & Hroom & Hasc & Hslots & Hfree)
         Hord Hkey Hspace.
  pose proof (image_len _ Hb) as Hlen.
  assert (Hv0 : 0 <= len v) by (unfold len; lia).
  unfold rootPageNo in *.
  set (n := Z.of_nat (length es)) in *.
  assert (Hn0 : 0 <= n) by (subst n; lia).
  set (K := fun j => match getKey b 1 j with Ok k => k | _ => 0 end).
  set (C := fun j => match getCellPtr b 1 j with Ok c => c | _ => 0 end).
  assert (HKC : forall j, 0 <= j < n ->
            getKey b 1 j = Ok (K j) /\ getCellPtr b 1 j = Ok (C j)).
  { intros j Hj. subst K C. cbv beta.
    destruct (getKey_some b 1 j Hb ltac:(lia) ltac:(lia)) as (k & -> & _).
    destruct (getCellPtr_some b 1 j Hb ltac:(lia) ltac:(lia)) as (c & -> & _).
    auto. }
  assert (Hes : forall i k' v', es !! i = Some (k', v') ->
            0 <= Z.of_nat i < n /\ K (Z.of_nat i) = k' /\
            u <= C (Z.of_nat i) /\ C (Z.of_nat i) + 8 + len v' <= 504 /\
            rd (data b) (512 + C (Z.of_nat i)) (8 + len v') = leaf_cell v').
  { intros i k' v' Hi. pose proof (lookup_lt_Some _ _ _ Hi) as Hlt.
    destruct (Hslots i k' v' Hi) as (Hk' & c & Hc & H1 & H2 & H3).
    subst K C. cbv beta. rewrite Hk', Hc. subst n. repeat split; auto; lia. }
  set (cell := leaf_cell v).
  assert (Hcell : len cell = 8 + len v).
  { subst cell. unfold leaf_cell, len. rewrite !length_app. simpl length. lia. }
  set (cp := u - 8 - len v) in *.
  assert (Hcpv : cp = u - 8 - len v) by reflexivity.
  (* the loop *)
  destruct (open_gap_spec 1 key K C (length es) b Hb ltac:(lia) ltac:(lia) HKC
              (Hfree n ltac:(lia) ltac:(lia)))
    as (d' & k & Hgap & Hk & Hstop & Hge & Hd' & Hfreek & Hmoved & Hframe).
  fold n in Hk, Hge, Hmoved, Hframe.
  assert (Hbd' : image_ok (set_data b d')) by (apply image_ok_nest; exact Hd').
  rewrite getCellPtr_rd in Hfreek by (assumption || lia).
  rewrite data_set_data in Hfreek.
  (* the image that the insert leaves *)
  set (d5 := wr (wr (wr (wr (wr d' (1 * 512 + (36 + 12 * k)) (PutUint64 key))
                            (1 * 512 + (44 + 12 * k)) (PutUint32 cp))
                        (1 * 512 + 12) (PutUint32 cp))
                    (1 * 512 + cp) cell)
                (1 * 512 + 32) (PutUint32 (n + 1))).
  assert (Hd5 : len d5 = 16384) by (clearbody cp cell; subst d5; len_tac).
  assert (Hb5 : image_ok (set_data b d5)) by (apply image_ok_nest; exact Hd5).
  assert (Hfr5 : forall a l, 0 <= a -> 0 <= l ->
            (a + l <= 524 \/
             528 <= a /\ a + l <= 544 \/
             548 <= a /\ a + l <= 548 + 12 * k \/
             560 + 12 * k <= a /\ a + l <= 512 + cp \/
             512 + u <= a) ->
            rd d5 a l = rd d' a l).
  { intros a l Ha Hl Hcase. clearbody cp cell. subst d5. rd_tac 16384.
    reflexivity. }
  assert (Hins : Insert (S fuel) b key (Some v) = Ok (set_data b d5)).
  { unfold Insert, search, rootPageNo. rewrite Ht. cbn [mbind outcome_bind].
    change (is_leaf nodeTypeLeaf) with true. cbv iota.
    cbn [mbind outcome_bind insertKey]. rewrite Hn. cbn [mbind outcome_bind].
    unfold u32 at 1.
    destruct (Z.eqb_spec n (order b mod 2^32)) as [E|_]; [congruence|].
    cbn [negb]. unfold insertAndNotSplit. rewrite Hn.
    cbn [mbind outcome_bind].
    destruct (getKey_some b 1 (n - 1) Hb ltac:(lia) ltac:(lia))
      as (k0 & Hk0 & _).
    rewrite Hk0. cbn [mbind outcome_bind].
    subst n. rewrite Nat2Z.id. rewrite Hgap. cbn [mbind outcome_bind].
    set (n := Z.of_nat (length es)) in *.
    rewrite setKey_wr by (assumption || lia). cbn [mbind outcome_bind].
    rewrite ?data_set_data, ?set_data_twice.
    unfold setChild. rewrite marshal_cell by lia.
    change (PutUint32 0 ++ PutUint32 (len v) ++ v) with cell.
    cbn [mbind outcome_bind].
    clearbody cp cell.
    match goal with |- context [insertOrUpdateCell ?s _ _ _] =>
      assert (Hs : image_ok s) by (apply image_ok_nest; len_tac);
      assert (Hc1 : getCellPtr s 1 k = Ok 0)
        by (rewrite getCellPtr_rd by ok_tac; rewrite data_set_data;
            rd_tac 16384; exact Hfreek);
      assert (Hu1 : getUsablePtr s 1 = Ok u)
        by (rewrite getUsablePtr_rd by ok_tac; rewrite data_set_data;
            rd_tac 16384; rewrite Hframe by lia;
            rewrite <- (getUsablePtr_rd b 1) by ok_tac; exact Hu);
      assert (Hk1 : getKey s 1 k = Ok key)
        by (rewrite getKey_rd by ok_tac; rewrite data_set_data;
            rd_tac 16384; rewrite Uint64_Put; f_equal;
            apply Z.mod_small; lia);
      assert (Hn1 : getNumberOfKey s 1 = Ok n)
        by (unfold getNumberOfKey, offsetNumberOfKey;
            rewrite getPageInt32_rd by ok_tac; rewrite data_set_data;
            rd_tac 16384; rewrite Hframe by lia;
            rewrite <- (getPageInt32_rd b 1 32) by ok_tac; exact Hn);
      assert (Hoc : exists oc, getKeyCell s 1 key = Ok oc)
    end.
    { eapply getKeyCell_some; [exact Hs|lia|exact Hn1|lia|].
      intros j c Hj Hc. rewrite getCellPtr_rd in Hc by (assumption || lia).
      rewrite data_set_data in Hc.
      destruct (Z_lt_dec j k) as [Hjk|Hjk].
      - rewrite (rd_wr_other_L 16384) in Hc by side.
        rewrite Hframe in Hc by lia.
        rewrite <- (getCellPtr_rd b 1 j) in Hc by ok_tac.
        destruct (HKC j ltac:(lia)) as [_ HCj]. rewrite HCj in Hc.
        injection Hc as <-.
        destruct (lookup_lt_is_Some_2 es (Z.to_nat j) ltac:(lia)) as ([k' v'] & He).
        destruct (Hes _ _ _ He) as (_ & _ & _ & H2 & _).
        rewrite Z2Nat.id in H2 by lia. unfold len in H2. lia.
      - rewrite (rd_wr_other_L 16384) in Hc by side.
        destruct (Z.eq_dec j k) as [->|Hne].
        + rewrite Hfreek in Hc. injection Hc as <-. lia.
        + destruct (Hmoved j ltac:(lia)) as [_ HCj].
          rewrite getCellPtr_rd in HCj by (assumption || lia).
          rewrite data_set_data in HCj. rewrite HCj in Hc. injection Hc as <-.
          destruct (lookup_lt_is_Some_2 es (Z.to_nat (j - 1)) ltac:(lia))
            as ([k' v'] & He).
          destruct (Hes _ _ _ He) as (_ & _ & _ & H2 & _).
          rewrite Z2Nat.id in H2 by lia. unfold len in H2. lia. }
    destruct Hoc as (oc & Hoc).
    rewrite (insertOrUpdateCell_fresh _ 1 k cell u key oc Hs)
      by (assumption || lia).
    cbn [mbind outcome_bind]. rewrite ?data_set_data, ?set_data_twice.
    rewrite Hcell. replace (u - (8 + len v)) with cp by lia.
    clear Hs Hc1 Hu1 Hk1 Hn1 Hoc.
    match goal with |- context [getKey ?s 1 n] =>
      assert (Hs : image_ok s) by (apply image_ok_nest; len_tac);
      destruct (getKey_some s 1 n Hs ltac:(lia) ltac:(lia)) as (k2 & Hk2 & _);
      assert (Hp2 : getParent s 1 = Ok 0)
        by (unfold getParent, offsetParent;
            rewrite getPageInt32_rd by ok_tac; rewrite data_set_data;
            rd_tac 16384; rewrite Hframe by lia;
            rewrite <- (getPageInt32_rd b 1 8) by ok_tac; exact Hpar)
    end.
    rewrite Hk2. cbn [mbind outcome_bind]. rewrite Hp2.
    cbn [mbind outcome_bind]. change (0 =? 0) with true.
    cbn [negb andb mbind outcome_bind].
    unfold setNumberOfKey, offsetNumberOfKey.
    rewrite setPageInt32_wr by ok_tac. rewrite ?data_set_data, ?set_data_twice.
    unfold u32. rewrite (Z.mod_small (n + 1)) by lia. reflexivity. }
  (* where the new entry went *)
  assert (Hpos : put key v es
                 = take (Z.to_nat k) es ++ (key, v) :: drop (Z.to_nat k) es).
  { apply put_at; [lia| |].
    - intros i [k' v'] Hi He. destruct (Hes _ _ _ He) as (Hin & HK' & _).
      cbn [fst]. destruct Hstop as [->|Hstop]; [lia|].
      destruct (lookup_lt_is_Some_2 es (Z.to_nat (k - 1)) ltac:(lia))
        as ([k1 v1] & He1).
      destruct (Hes _ _ _ He1) as (_ & HK1 & _).
      rewrite Z2Nat.id in HK1 by lia.
      pose proof (Hasc i (Z.to_nat (k - 1)) _ _ ltac:(lia) He He1) as Hle.
      cbn [fst] in Hle. lia.
    - intros i [k' v'] Hi He. destruct (Hes _ _ _ He) as (Hin & HK' & _).
      cbn [fst]. rewrite <- HK'. apply Hge. lia. }
  assert (Hold : forall a l, 0 <= a -> 0 <= l -> 512 + u <= a ->
            rd d5 a l = rd (data b) a l).
  { intros a l Ha Hl Hcase. rewrite Hfr5 by lia. apply Hframe; lia. }
  exists (set_data b d5). split; [exact Hins|]. split; [reflexivity|].
  unfold leaf_root, rootPageNo. split; [exact Hb5|].
  split.
  { apply getNodeType_rd; [exact Hb5|lia|]. rewrite data_set_data.
    rewrite Hfr5 by lia. rewrite Hframe by lia.
    apply getNodeType_rd; [exact Hb|lia|exact Ht]. }
  split.
  { unfold getParent, offsetParent. rewrite getPageInt32_rd by ok_tac.
    rewrite data_set_data. rewrite Hfr5 by lia. rewrite Hframe by lia.
    rewrite <- (getPageInt32_rd b 1 8) by ok_tac. exact Hpar. }
  split.
  { unfold getNumberOfKey, offsetNumberOfKey.
    rewrite getPageInt32_rd by ok_tac. rewrite data_set_data.
    clearbody cp cell. subst d5. rd_tac 16384. rewrite Uint32_Put.
    rewrite length_put. f_equal. rewrite Z.mod_small by lia. lia. }
  split.
  { rewrite getUsablePtr_rd by ok_tac. rewrite data_set_data.
    clearbody cp cell. subst d5. rd_tac 16384. rewrite Uint32_Put.
    f_equal. apply Z.mod_small. lia. }
  split; [rewrite length_put; lia|].
  split; [apply keys_ascend_put; exact Hasc|].
  split.
  - intros i k' v' Hi.
    assert (Hi38 : Z.of_nat i <= n).
    { apply lookup_lt_Some in Hi. rewrite length_put in Hi. lia. }
    rewrite Hpos in Hi.
    rewrite lookup_put_at in Hi by lia.
    rewrite getKey_rd, getCellPtr_rd by (assumption || lia).
    rewrite !data_set_data.
    destruct (decide (i < Z.to_nat k)%nat) as [Hlt|Hnlt].
    + destruct (Hes _ _ _ Hi) as (Hin & HK' & H1 & H2 & H3).
      destruct (HKC (Z.of_nat i) ltac:(lia)) as [HKi HCi].
      rewrite !Hfr5 by lia. rewrite !Hframe by lia.
      rewrite <- getKey_rd, <- getCellPtr_rd by (assumption || lia).
      rewrite HKi, HCi, HK'. split; [reflexivity|].
      exists (C (Z.of_nat i)). split; [reflexivity|]. split; [lia|].
      split; [lia|]. rewrite Hold by (unfold len; lia). exact H3.
    + destruct (decide (i = Z.to_nat k)) as [->|Hne].
      * injection Hi as <- <-. rewrite Z2Nat.id by lia.
        change (leaf_cell v) with cell.
        clearbody cp cell. subst d5. split.
        -- rd_tac 16384. rewrite Uint64_Put. f_equal. apply Z.mod_small. lia.
        -- exists cp. split.
           { rd_tac 16384. rewrite Uint32_Put. f_equal. apply Z.mod_small. lia. }
           split; [lia|]. split; [lia|].
           rewrite (rd_wr_other_L 16384) by side.
           apply (rd_wr_same_L 16384); try side; lia.
      * destruct (Hes _ _ _ Hi) as (Hin & HK' & H1 & H2 & H3).
        destruct (Hmoved (Z.of_nat i) ltac:(lia)) as [HKi HCi].
        rewrite getKey_rd in HKi by (assumption || lia).
        rewrite getCellPtr_rd in HCi by (assumption || lia).
        rewrite data_set_data in HKi, HCi.
        replace (Z.of_nat i - 1) with (Z.of_nat (i - 1)) in HKi, HCi by lia.
        rewrite !Hfr5 by lia. rewrite HKi, HCi, HK'.
        split; [reflexivity|].
        exists (C (Z.of_nat (i - 1))). split; [reflexivity|]. split; [lia|].
        split; [lia|]. rewrite Hold by (unfold len; lia). exact H3.
  - intros i Hi Hroom'. rewrite length_put in Hi.
    rewrite getCellPtr_rd by (assumption || lia). rewrite data_set_data.
    rewrite Hfr5 by lia. rewrite Hframe by lia.
    rewrite <- getCellPtr_rd by (assumption || lia).
    apply Hfree; lia.
Qed.

(** Reading the cell of a leaf entry through its slot. *)
Lemma getKeyCell_leaf b p key i c v :
  image_ok b -> 0 <= p < 32 ->
  getKeyIndex b p key = Ok i -> 0 <= i <= 38 ->
  getCellPtr b p i = Ok c -> getNodeType b p = Ok nodeTypeLeaf ->
  0 <= c -> c + 8 + len v <= 512 ->
  rd (data b) (p * 512 + c) (8 + len v) = leaf_cell v ->
  getKeyCell b p key = Ok (Some (leaf_cell v)).
Proof.
  intros Hb Hp Hidx Hi Hc Ht Hc0 Hc1 Hcell.
  pose proof (image_len _ Hb) as Hlen.
  assert (Hv0 : 0 <= len v) by (unfold len; lia).
  assert (Hl : len (leaf_cell v) = 8 + len v).
  { unfold leaf_cell, len. rewrite !length_app. simpl length. lia. }
  unfold getKeyCell. rewrite Hidx. cbn [mbind outcome_bind].
  destruct (Z.eqb_spec i (-1)); [lia|].
  rewrite Hc. cbn [mbind outcome_bind]. rewrite Ht.
  cbn [mbind outcome_bind]. change (is_leaf nodeTypeLeaf) with true. cbv iota.
  rewrite getPageData_in by assumption. cbn [mbind outcome_bind].
  unfold subslice_from, u32. cbn [base slen].
  rewrite (Z.mod_small (c + 4)) by lia.
  destruct (Z.leb_spec 0 (c + 4)); [|lia].
  destruct (Z.leb_spec (c + 4) 512); [|lia].
  cbn [andb mbind outcome_bind]. unfold view. cbn [base slen].
  replace (p * 512 + (c + 4)) with (p * 512 + c + 4) by lia.
  rewrite (rd_shift (data b) (p * 512 + c) 4) by lia.
  rewrite (rd_split (data b) (p * 512 + c) _ (8 + len v)) by lia.
  rewrite Hcell. change (Z.to_nat 4) with 4%nat.
  rewrite drop_app_le by (unfold len in Hl; lia).
  unfold leaf_cell at 1.
  change (drop 4 (PutUint32 0 ++ PutUint32 (len v) ++ v))
    with (PutUint32 (len v) ++ v).
  rewrite <- app_assoc. rewrite Uint32_PutUint32.
  cbn [mbind outcome_bind]. rewrite (Z.mod_small (len v)) by lia.
  rewrite (Z.mod_small (8 + len v)) by lia.
  unfold blockCopy. rewrite len_rd by lia.
  assert (Hz : len (zeros (8 + len v)) = 8 + len v).
  { unfold zeros, len. rewrite repeat_length. lia. }
  rewrite Hz.
  destruct (Z.gtb_spec c 512); [lia|].
  destruct (Z.gtb_spec (8 + len v) 512); [lia|].
  destruct (Z.gtb_spec (c + (8 + len v)) 512); [lia|].
  destruct (Z.gtb_spec 0 (8 + len v)); [lia|].
  destruct (Z.gtb_spec (8 + len v) (8 + len v)); [lia|].
  destruct (Z.gtb_spec (0 + (8 + len v)) (8 + len v)); [lia|].
  cbn [orb]. destruct (Z.leb_spec (8 + len v) 0); [lia|].
  destruct (Z.ltb_spec c 0); [lia|]. destruct (Z.ltb_spec 0 0); [lia|].
  cbn [orb mbind outcome_bind].
  rewrite rd_rd by lia. rewrite Hcell.
  rewrite wr_zeros_all by exact Hl. reflexivity.
Qed.

Lemma getKeyIndex_entries b p key : forall es i,
  0 <= i ->
  (forall j e, es !! j = Some e ->
               getKey b p (i + Z.of_nat j) = Ok (fst e)) ->
  exists r, getKeyIndex_from (length es) b p key i = Ok r /\
    ((r = -1 /\ entry key es = None) \/
     (exists j v, r = i + Z.of_nat j /\ es !! j = Some (key, v) /\
                  entry key es = Some v)).
Proof.
  induction es as [|[k w] es IH]; intros i Hi Hkeys.
  - exists (-1). split; [reflexivity|]. left. auto.
  - cbn [length getKeyIndex_from entry].
    pose proof (Hkeys 0%nat (k, w) eq_refl) as H0. cbn [fst] in H0.
    rewrite Z.add_0_r in H0. rewrite H0. cbn [mbind outcome_bind].
    destruct (Z.eqb_spec k key) as [->|Hne].
    + exists i. split; [reflexivity|]. right. exists 0%nat, w.
      split; [lia|]. auto.
    + destruct (IH (i + 1) ltac:(lia)) as (r & Hr & Hcase).
      { intros j e He. replace (i + 1 + Z.of_nat j) with (i + Z.of_nat (S j)) by lia.
        apply Hkeys. exact He. }
      exists r. split; [exact Hr|].
      destruct Hcase as [|(j & v & -> & Hj & He)]; [left; assumption|].
      right. exists (S j), v. split; [lia|]. auto.
Qed.

(** [Get] on a root leaf: the payload of the first entry with the key, a
    panic when there is none. *)
Lemma leaf_root_Get fuel b es u key :
  leaf_root b es u ->
  Get fuel b key = match entry key es with
                   | Some v => Ok (Some v)
                   | None => Fault
                   end.
Proof.
  intros (Hb & Ht & Hpar & Hn & Hu & Hroom & Hasc & Hslots & Hfree).
  unfold rootPageNo in *.
  unfold Get, search, rootPageNo. rewrite Ht. cbn [mbind outcome_bind].
  change (is_leaf nodeTypeLeaf) with true. cbv iota.
  cbn [mbind outcome_bind].
  destruct (getKeyIndex_entries b 1 key es 0 ltac:(lia)) as (r & Hr & Hcase).
  { intros j [k v] He. destruct (Hslots _ _ _ He) as [Hk _].
    rewrite Z.add_0_l. exact Hk. }
  assert (Hidx : getKeyIndex b 1 key = Ok r).
  { unfold getKeyIndex. rewrite Hn. cbn [mbind outcome_bind].
    rewrite Nat2Z.id. exact Hr. }
  destruct Hcase as [[-> Hnone]|(j & v & -> & Hj & Hsome)].
  - rewrite Hnone. apply (getKeyPayload_absent _ _ _ nodeTypeLeaf);
      [|exact Ht|reflexivity].
    unfold getKeyCell. rewrite Hidx. reflexivity.
  - rewrite Hsome. destruct (Hslots _ _ _ Hj) as (Hk & c & Hc & H1 & H2 & H3).
    pose proof (lookup_lt_Some _ _ _ Hj) as Hlt.
    assert (Hv0 : 0 <= len v) by (unfold len; lia).
    unfold getKeyPayload.
    rewrite (getKeyCell_leaf b 1 key (0 + Z.of_nat j) c v); try assumption;
      try lia.
    cbn [mbind outcome_bind]. rewrite Ht. cbn [mbind outcome_bind].
    change (is_leaf nodeTypeLeaf) with true. cbv iota.
    assert (Hl : len (leaf_cell v) = 8 + len v).
    { unfold leaf_cell, len. rewrite !length_app. simpl length. lia. }
    destruct (Z.leb_spec 8 (len (leaf_cell v))); [|lia]. reflexivity.
Qed.

Lemma fresh_slots order :
  forallb (no_cell (mkTree (data tree5) rootPageNo order))
          (map Z.of_nat (seq 0 39)) = true.
Proof. vm_compute. reflexivity. Qed.

(** The tree [CreateTree] returns is a root leaf with no entries. *)
Lemma fresh_leaf_root order :
  leaf_root (mkTree (data tree5) rootPageNo order) [] 504.
Proof.
  unfold leaf_root.
  split; [vm_compute; reflexivity|]. split; [vm_compute; reflexivity|].
  split; [vm_compute; reflexivity|]. split; [vm_compute; reflexivity|].
  split; [vm_compute; reflexivity|]. split; [simpl; lia|].
  split; [intros i j ei ej _ Hi; discriminate|].
  split; [intros i k v Hi; discriminate|].
  intros i Hi Hroom. simpl in Hi.
  pose proof (fresh_slots order) as Hall. rewrite forallb_forall in Hall.
  assert (Hin : In i (map Z.of_nat (seq 0 39))).
  { apply in_map_iff. exists (Z.to_nat i). split; [lia|]. apply in_seq. lia. }
  specialize (Hall i Hin). unfold no_cell in Hall.
  destruct (getCellPtr _ rootPageNo i) as [c| |]; try discriminate.
  apply Z.eqb_eq in Hall. subst c. reflexivity.
Qed.

Lemma one_key_leaf_root :
  leaf_root one_key_tree [(7, bytes "val-7")] 491.
Proof.
  destruct (leaf_root_Insert 0 tree5 [] 504 7 (bytes "val-7")
              (fresh_leaf_root 5))
    as (b' & Hins & _ & Hroot).
  - vm_compute. discriminate.
  - lia.
  - vm_compute. discriminate.
  - assert (E : Insert 1 tree5 7 (Some (bytes "val-7")) = Ok one_key_tree)
      by (vm_compute; reflexivity).
    rewrite E in Hins. injection Hins as <-. exact Hroot.
Qed.

(** X26.  [Insert] into a root that is a leaf, holds fewer keys than the
    order and has room for one more slot and the new cell: no split
    happens; the root stays a leaf; the new entry is stored before the
    first entry whose key is not below its key, so the keys stay
    ascending; its cell is the 8-byte header and the payload, put right
    below the old usable pointer; the entries that were there keep their
    keys and payloads.  Afterwards [Get] returns the new payload for the
    new key and, for every other key, what it returned before. *)
Theorem Insert_into_a_leaf_root fuel fuel' b es u key v :
  leaf_root b es u ->
  Z.of_nat (length es) <> order b mod 2^32 ->
  0 <= key < 2^64 ->
  48 + 12 * (Z.of_nat (length es) + 1) <= u - 8 - len v ->
  exists b',
    Insert (S fuel) b key (Some v) = Ok b' /\ order b' = order b /\
    leaf_root b' (put key v es) (u - 8 - len v) /\
    Get fuel' b' key = Ok (Some v) /\
    forall key', key' <> key -> Get fuel' b' key' = Get fuel' b key'.
Proof.
  intros Hroot Hord Hkey Hspace.
  destruct (leaf_root_Insert fuel b es u key v Hroot Hord Hkey Hspace)
    as (b' & Hins & Ho & Hroot').
  exists b'. split; [exact Hins|]. split; [exact Ho|]. split; [exact Hroot'|].
  split.
  - rewrite (leaf_root_Get fuel' b' _ _ key Hroot').
    rewrite entry_put_same. reflexivity.
  - intros key' Hne.
    rewrite (leaf_root_Get fuel' b' _ _ key' Hroot').
    rewrite (leaf_root_Get fuel' b _ _ key' Hroot).
    rewrite entry_put_other by exact Hne. reflexivity.
Qed.

Lemma Insert_into_a_leaf_root_witness :
  leaf_root one_key_tree [(7, bytes "val-7")] 491 /\
  Z.of_nat (length [(7, bytes "val-7")]) <> order one_key_tree mod 2^32 /\
  0 <= 3 < 2^64 /\
  48 + 12 * (Z.of_nat (length [(7, bytes "val-7")]) + 1)
    <= 491 - 8 - len (bytes "val-3") /\
  exists b',
    Insert 1 one_key_tree 3 (Some (bytes "val-3")) = Ok b' /\
    order b' = order one_key_tree /\
    leaf_root b' (put 3 (bytes "val-3") [(7, bytes "val-7")])
              (491 - 8 - len (bytes "val-3")) /\
    Get 0 b' 3 = Ok (Some (bytes "val-3")) /\
    forall key', key' <> 3 -> Get 0 b' key' = Get 0 one_key_tree key'.
Proof.
  assert (H2 : Z.of_nat (length [(7, bytes "val-7")])
               <> order one_key_tree mod 2^32) by (vm_compute; discriminate).
  assert (H3 : 0 <= 3 < 2^64) by lia.
  assert (H4 : 48 + 12 * (Z.of_nat (length [(7, bytes "val-7")]) + 1)
               <= 491 - 8 - len (bytes "val-3")) by (vm_compute; discriminate).
  split; [exact one_key_leaf_root|]. split; [exact H2|]. split; [exact H3|].
  split; [exact H4|].
  exact (Insert_into_a_leaf_root 0 0 one_key_tree _ 491 3 (bytes "val-3")
           one_key_leaf_root H2 H3 H4).
Defined.

Lemma entry_first key : forall (es : list (Z * list byte)) i v,
  es !! i = Some (key, v) ->
  (forall j w, (j < i)%nat -> es !! j <> Some (key, w)) ->
  entry key es = Some v.
Proof.
  induction es as [|[k w] es IH]; intros i v Hi Hfirst; [discriminate|].
  cbn [entry]. destruct i as [|i].
  - injection Hi as -> ->. rewrite Z.eqb_refl. reflexivity.
  - destruct (Z.eqb_spec k key) as [->|Hne].
    + exfalso. apply (Hfirst 0%nat w); [lia|reflexivity].
    + apply (IH i v Hi). intros j w' Hj. apply (Hfirst (S j) w'). lia.
Qed.

Lemma entry_none key : forall (es : list (Z * list byte)),
  (forall i v, es !! i <> Some (key, v)) -> entry key es = None.
Proof.
  induction es as [|[k w] es IH]; intros Hno; [reflexivity|].
  cbn [entry]. destruct (Z.eqb_spec k key) as [->|Hne].
  - exfalso. apply (Hno 0%nat w). reflexivity.
  - apply IH. intros i v. apply (Hno (S i) v).
Qed.

(** X27.  [Get] on a tree whose root is a leaf with the entries [es]
    returns the payload of the first entry that carries the key, and
    panics when no entry carries it. *)
Theorem Get_from_a_leaf_root fuel b es u key :
  leaf_root b es u ->
  (forall i v, es !! i = Some (key, v) ->
     (forall j w, (j < i)%nat -> es !! j <> Some (key, w)) ->
     Get fuel b key = Ok (Some v)) /\
  ((forall i v, es !! i <> Some (key, v)) -> Get fuel b key = Fault).
Proof.
  intros Hroot. rewrite (leaf_root_Get fuel b es u key Hroot). split.
  - intros i v Hi Hfirst. rewrite (entry_first key es i v Hi Hfirst).
    reflexivity.
  - intros Hno. rewrite (entry_none key es Hno). reflexivity.
Qed.

Lemma Get_from_a_leaf_root_witness :
  leaf_root one_key_tree [(7, bytes "val-7")] 491 /\
  (forall i v, [(7, bytes "val-7")] !! i = Some (7, v) ->
     (forall j w, (j < i)%nat -> [(7, bytes "val-7")] !! j <> Some (7, w)) ->
     Get 0 one_key_tree 7 = Ok (Some v)) /\
  ((forall i v, [(7, bytes "val-7")] !! i <> Some (7, v)) ->
   Get 0 one_key_tree 7 = Fault).
Proof.
  split; [exact one_key_leaf_root|].
  exact (Get_from_a_leaf_root 0 one_key_tree _ 491 7 one_key_leaf_root).
Defined.

Lemma cells_size_nonneg kvs : 0 <= cells_size kvs.
Proof.
  induction kvs as [|[k v] kvs IH]; simpl; [lia|]. unfold len. lia.
Qed.

Lemma cells_size_cons k v kvs :
  cells_size ((k, v) :: kvs) = 8 + len v + cells_size kvs.
Proof. reflexivity. Qed.

Lemma inserts_into_a_leaf_root fuel : forall kvs b es u,
  leaf_root b es u ->
  Z.of_nat (length es) + Z.of_nat (length kvs) <= order b mod 2^32 ->
  Forall (fun kv => 0 <= fst kv < 2^64) kvs ->
  48 + 12 * (Z.of_nat (length es) + Z.of_nat (length kvs))
    <= u - cells_size kvs ->
  exists b',
    inserts (S fuel) b kvs = Ok b' /\ order b' = order b /\
    leaf_root b' (put_all kvs es) (u - cells_size kvs).
Proof.
  induction kvs as [|[k v] kvs IH]; intros b es u Hroot Hord Hkeys Hspace.
  - exists b. split; [reflexivity|]. split; [reflexivity|].
    simpl. rewrite Z.sub_0_r. exact Hroot.
  - cbn [inserts]. inversion Hkeys as [|? ? Hk Hrest]; subst.
    cbn [fst] in Hk. cbn [length] in Hord, Hspace.
    rewrite cells_size_cons in Hspace. rewrite cells_size_cons.
    pose proof (cells_size_nonneg kvs) as Hc0.
    assert (Hv0 : 0 <= len v) by (unfold len; lia).
    destruct (leaf_root_Insert fuel b es u k v Hroot)
      as (b1 & Hins & Hord1 & Hroot1); try lia.
    rewrite Hins. cbn [mbind outcome_bind].
    destruct (IH b1 (put k v es) (u - 8 - len v) Hroot1)
      as (b' & Hrun & Hord' & Hroot'); try exact Hrest.
    { rewrite length_put, Hord1. lia. }
    { rewrite length_put. lia. }
    exists b'. split; [exact Hrun|]. split; [congruence|].
    unfold put_all in *. cbn [fold_left fst snd].
    replace (u - (8 + len v + cells_size kvs))
      with (u - 8 - len v - cells_size kvs) by lia.
    exact Hroot'.
Qed.

(** X28.  Insert and Get round-trip while the root has not split.  Start
    from [CreateTree order] and insert any pairs, no more of them than the
    order and few enough for their slots and cells to fit the root page
    (12 bytes a slot, 8 bytes a cell header, from offset 48 up to 504):
    every [Insert] succeeds, and afterwards [Get] returns, for each key,
    the payload of the latest pair inserted under it, and panics for a key
    that was never inserted. *)
Theorem Get_after_inserts_without_split order kvs fuel fuel' :
  Z.of_nat (length kvs) <= order mod 2^32 ->
  Forall (fun kv => 0 <= fst kv < 2^64) kvs ->
  48 + 12 * Z.of_nat (length kvs) + cells_size kvs <= 504 ->
  exists t b,
    CreateTree order = Ok t /\ inserts (S fuel) t kvs = Ok b /\
    forall key,
      Get fuel' b key = match latest key kvs with
                        | Some v => Ok (Some v)
                        | None => Fault
                        end.
Proof.
  intros Hord Hkeys Hspace.
  destruct (inserts_into_a_leaf_root fuel kvs
              (mkTree (data tree5) rootPageNo order) [] 504
              (fresh_leaf_root order))
    as (b & Hrun & _ & Hroot'); try assumption.
  { cbn [length]. lia. }
  exists (mkTree (data tree5) rootPageNo order), b.
  split; [apply CreateTree_data|]. split; [exact Hrun|].
  intros key. rewrite (leaf_root_Get fuel' b _ _ key Hroot').
  rewrite entry_put_all. reflexivity.
Qed.

Lemma Get_after_inserts_without_split_witness :
  Z.of_nat (length test_inserts) <= 16 mod 2^32 /\
  Forall (fun kv => 0 <= fst kv < 2^64) test_inserts /\
  48 + 12 * Z.of_nat (length test_inserts) + cells_size test_inserts <= 504 /\
  exists t b,
    CreateTree 16 = Ok t /\ inserts 1 t test_inserts = Ok b /\
    forall key,
      Get 0 b key = match latest key test_inserts with
                    | Some v => Ok (Some v)
                    | None => Fault
                    end.
Proof.
  assert (H1 : Z.of_nat (length test_inserts) <= 16 mod 2^32)
    by (vm_compute; discriminate).
  assert (H2 : Forall (fun kv => 0 <= fst kv < 2^64) test_inserts)
    by (repeat (constructor; [simpl; lia|]); constructor).
  assert (H3 : 48 + 12 * Z.of_nat (length test_inserts)
               + cells_size test_inserts <= 504)
    by (vm_compute; discriminate).
  split; [exact H1|]. split; [exact H2|]. split; [exact H3|].
  exact (Get_after_inserts_without_split 16 test_inserts 0 0 H1 H2 H3).
Defined.

Lemma keys_from_entries b p : forall (es : list (Z * list byte)) i,
  (forall j e, es !! j = Some e ->
               getKey b p (i + Z.of_nat j) = Ok (fst e)) ->
  keys_from (length es) b p i = Ok (map fst es).
Proof.
  induction es as [|e es IH]; intros i Hkeys; [reflexivity|].
  cbn [length keys_from map].
  pose proof (Hkeys 0%nat e eq_refl) as H0. rewrite Z.add_0_r in H0.
  rewrite H0. cbn [mbind outcome_bind]. rewrite (IH (i + 1)).
  - reflexivity.
  - intros j e' He. replace (i + 1 + Z.of_nat j) with (i + Z.of_nat (S j)) by lia.
    apply Hkeys. exact He.
Qed.

(** X29.  [RangeSearch] on a tree whose root is a leaf prints the keys of
    the entries that lie between [key1] and [key2], both included, in
    ascending order. *)
Theorem RangeSearch_in_key_order fuel b es u key1 key2 :
  leaf_root b es u ->
  keys_ascend es /\
  RangeSearch (S fuel) b key1 key2
  = Ok (List.filter (fun k => (k >=? key1) && (k <=? key2)) (map fst es)).
Proof.
  intros Hroot. pose proof Hroot as (_ & Ht & _ & Hn & _ & _ & Hasc & Hslots & _).
  split; [exact Hasc|].
  unfold RangeSearch, search. rewrite Ht. cbn [mbind outcome_bind].
  change (is_leaf nodeTypeLeaf) with true. cbv iota.
  cbn [mbind outcome_bind range_pages]. rewrite Hn.
  cbn [mbind outcome_bind]. rewrite Nat2Z.id.
  rewrite (range_keys_filter key1 key2 _ b rootPageNo 0 (map fst es)).
  - cbn [mbind outcome_bind]. rewrite Z.eqb_refl. reflexivity.
  - apply keys_from_entries. intros j [k v] He.
    destruct (Hslots _ _ _ He) as [Hk _]. rewrite Z.add_0_l. exact Hk.
Qed.

Lemma RangeSearch_in_key_order_witness :
  leaf_root one_key_tree [(7, bytes "val-7")] 491 /\
  keys_ascend [(7, bytes "val-7")] /\
  RangeSearch 1 one_key_tree 4 15
  = Ok (List.filter (fun k => (k >=? 4) && (k <=? 15))
          (map fst [(7, bytes "val-7")])).
Proof.
  split; [exact one_key_leaf_root|].
  exact (RangeSearch_in_key_order 0 one_key_tree _ 491 4 15 one_key_leaf_root).
Defined.

End BtreeSpec.
